(** * The version bump tool of the fullcalendar monorepo

    A shallow embedding of [scripts/update-version.js] (and of its older
    variant, which lacks the precondition checks and the bundle package)
    together with the properties its specification states.

    Layout: JavaScript strings and the regular expression of the argument
    check; JSON documents with the property order of JavaScript objects,
    [JSON.parse] and [JSON.stringify]; the file system; the effects of the
    process (files, child processes, the two output streams, exit codes);
    the script itself; a model of git behind a POSIX shell; then the
    theorems. *)

From Stdlib Require Import String Ascii List NArith Lia Bool.
From stdpp Require Import base option gmap strings list sorting.

Set Default Proof Using "Type".

(* ================================================================== *)
(** * JavaScript strings *)
(* ================================================================== *)

(** A JavaScript string is modelled by the sequence of bytes of its UTF-8
    form, the form in which it is read from and written to files.  The
    prefix of the internal packages and every character the version
    pattern accepts are ASCII, so tests on them agree with the tests on
    UTF-16 code units that the engine performs. *)

(** [s.startsWith(p)] *)
Definition startsWith (s p : string) : bool := String.prefix p s.

(** White space removed by [String.prototype.trim], restricted to the
    ASCII range: tab, line feed, vertical tab, form feed, carriage return
    and space. *)
Definition is_space (c : ascii) : bool :=
  match nat_of_ascii c with
  | 9 | 10 | 11 | 12 | 13 | 32 => true
  | _ => false
  end.

(** [s.trim()] is the empty string, which is what the script tests when
    it uses the output of a command as a condition. *)
Fixpoint trim_is_empty (s : string) : bool :=
  match s with
  | EmptyString => true
  | String c s' => is_space c && trim_is_empty s'
  end.

(** [xs.join(sep)] on strings. *)
Fixpoint join (sep : string) (xs : list string) : string :=
  match xs with
  | [] => ""
  | [x] => x
  | x :: rest => x +:+ sep +:+ join sep rest
  end.

(* ================================================================== *)
(** * Regular expressions *)
(* ================================================================== *)

Module Regex.

(** The fragment of the pattern language the script uses: character
    classes, concatenation, the quantifiers [+], [*] and [?], groups.
    None of it needs more than regular languages (no back-reference, no
    look-around), for which the backtracking search of the engine finds a
    match exactly when the string is in the language. *)
Inductive regex : Type :=
| Never : regex
| Empty : regex
| Class (p : ascii -> bool) : regex
| Cat (r1 r2 : regex) : regex
| Alt (r1 r2 : regex) : regex
| Star (r : regex) : regex.

Definition Lit (c : ascii) : regex := Class (Ascii.eqb c).
Definition Plus (r : regex) : regex := Cat r (Star r).
Definition Opt (r : regex) : regex := Alt r Empty.

(** The language of a pattern. *)
Inductive lang : regex -> list ascii -> Prop :=
| lang_empty : lang Empty []
| lang_class p c : p c = true -> lang (Class p) [c]
| lang_cat r1 r2 u v : lang r1 u -> lang r2 v -> lang (Cat r1 r2) (u ++ v)
| lang_alt_l r1 r2 u : lang r1 u -> lang (Alt r1 r2) u
| lang_alt_r r1 r2 u : lang r2 u -> lang (Alt r1 r2) u
| lang_star_nil r : lang (Star r) []
| lang_star_cons r u v : lang r u -> lang (Star r) v -> lang (Star r) (u ++ v).

(** Matching by derivatives. *)
Fixpoint nullable (r : regex) : bool :=
  match r with
  | Never => false
  | Empty => true
  | Class _ => false
  | Cat r1 r2 => nullable r1 && nullable r2
  | Alt r1 r2 => nullable r1 || nullable r2
  | Star _ => true
  end.

Fixpoint deriv (c : ascii) (r : regex) : regex :=
  match r with
  | Never => Never
  | Empty => Never
  | Class p => if p c then Empty else Never
  | Cat r1 r2 =>
      if nullable r1 then Alt (Cat (deriv c r1) r2) (deriv c r2)
      else Cat (deriv c r1) r2
  | Alt r1 r2 => Alt (deriv c r1) (deriv c r2)
  | Star r1 => Cat (deriv c r1) (Star r1)
  end.

Fixpoint matches (r : regex) (s : list ascii) : bool :=
  match s with
  | [] => nullable r
  | c :: s' => matches (deriv c r) s'
  end.

(** [/^r$/.test(s)]: with both anchors and no flag the pattern has to
    match the whole of [s]. *)
Definition test (r : regex) (s : string) : bool :=
  matches r (list_ascii_of_string s).

End Regex.

(** ** The pattern of the version argument *)

Definition in_range (lo hi : nat) (c : ascii) : bool :=
  (lo <=? nat_of_ascii c)%nat && (nat_of_ascii c <=? hi)%nat.

(** [\d] *)
Definition is_digit (c : ascii) : bool := in_range 48 57 c.

(** [[a-zA-Z0-9-]] *)
Definition is_ident_char (c : ascii) : bool :=
  in_range 97 122 c || in_range 65 90 c || in_range 48 57 c
  || Ascii.eqb "-" c.

(** The pattern of [main], group by group: [^], then [(\d+)], [\.],
    [(\d+)], [\.], [(\d+)], then an optional group made of [-], of
    [[a-zA-Z0-9-]+] and of any number of repetitions of [\.] followed by
    [[a-zA-Z0-9-]+], then [$]. *)
Definition SEMVER : Regex.regex :=
  let digits := Regex.Plus (Regex.Class is_digit) in
  let ident := Regex.Plus (Regex.Class is_ident_char) in
  let dot := Regex.Lit "." in
  Regex.Cat digits (Regex.Cat dot (Regex.Cat digits (Regex.Cat dot
    (Regex.Cat digits
      (Regex.Opt (Regex.Cat (Regex.Lit "-")
         (Regex.Cat ident (Regex.Star (Regex.Cat dot ident))))))))).

(** The grammar in the words of the specification: three dot-separated
    non-negative integers, optionally followed by a hyphen and a
    dot-separated sequence of alphanumeric/hyphen segments. *)
Definition digits (u : list ascii) : Prop :=
  u <> [] /\ forallb is_digit u = true.

Definition segment (u : list ascii) : Prop :=
  u <> [] /\ forallb is_ident_char u = true.

Fixpoint dotted (segs : list (list ascii)) : list ascii :=
  match segs with
  | [] => []
  | [u] => u
  | u :: rest => u ++ "."%char :: dotted rest
  end.

Definition semver_grammar (s : string) : Prop :=
  exists major minor patch pre,
    digits major /\ digits minor /\ digits patch /\
    (pre = [] \/
     exists segs, segs <> [] /\ Forall segment segs /\
                  pre = "-"%char :: dotted segs) /\
    list_ascii_of_string s =
      major ++ "."%char :: minor ++ "."%char :: patch ++ pre.

(* ================================================================== *)
(** * JSON documents *)
(* ================================================================== *)

(** A document as [JSON.parse] returns it.  The members of an object are
    kept in the order in which JavaScript enumerates its properties,
    which is the order [JSON.stringify] and [Object.keys] follow.  A
    number is carried as its decimal literal: the rounding to a binary64
    and the shortest-digits printing are not part of the model, and no
    property below looks inside a number. *)
#[local] Unset Elimination Schemes.
Inductive json : Type :=
| JNull : json
| JBool (b : bool) : json
| JNum (literal : string) : json
| JStr (s : string) : json
| JArr (items : list json) : json
| JObj (members : list (string * json)) : json.
#[local] Set Elimination Schemes.

Definition keys (ms : list (string * json)) : list string := map fst ms.

(** ** Property order of ordinary objects *)

Definition digit_value (c : ascii) : N := N.of_nat (nat_of_ascii c - 48).

Definition decimal_value (cs : list ascii) : N :=
  fold_left (fun acc c => (10 * acc + digit_value c)%N) cs 0%N.

(** An array index is a key that is the canonical decimal numeral of an
    integer between 0 and 2^32 - 2.  Such keys are enumerated before all
    others, in ascending numeric order. *)
Definition array_index (k : string) : option N :=
  match list_ascii_of_string k with
  | [] => None
  | c :: cs =>
      if forallb is_digit (c :: cs)
         && (negb (Ascii.eqb c "0") || match cs with [] => true | _ => false end)
         && (length cs <? 10)%nat
         && (decimal_value (c :: cs) <=? 4294967294)%N
      then Some (decimal_value (c :: cs))
      else None
  end.

Definition is_array_index (k : string) : bool :=
  match array_index k with Some _ => true | None => false end.

(** [o[k]] for an own property. *)
Fixpoint obj_get (ms : list (string * json)) (k : string) : option json :=
  match ms with
  | [] => None
  | (k', v) :: rest => if String.eqb k' k then Some v else obj_get rest k
  end.

Definition obj_has (ms : list (string * json)) (k : string) : bool :=
  match obj_get ms k with Some _ => true | None => false end.

(** Assignment to a property that exists: the value changes, the place
    of the key does not. *)
Fixpoint obj_replace (ms : list (string * json)) (k : string) (v : json)
  : list (string * json) :=
  match ms with
  | [] => []
  | (k', v') :: rest =>
      if String.eqb k' k then (k', v) :: rest
      else (k', v') :: obj_replace rest k v
  end.

(** A new array-index key goes after the smaller indices. *)
Fixpoint obj_insert_index (ms : list (string * json)) (i : N) (k : string)
  (v : json) : list (string * json) :=
  match ms with
  | [] => [(k, v)]
  | (k', v') :: rest =>
      match array_index k' with
      | Some i' =>
          if (i' <? i)%N then (k', v') :: obj_insert_index rest i k v
          else (k, v) :: ms
      | None => (k, v) :: ms
      end
  end.

(** [o[k] = v] on an ordinary object. *)
Definition obj_set (ms : list (string * json)) (k : string) (v : json)
  : list (string * json) :=
  if obj_has ms k then obj_replace ms k v
  else match array_index k with
       | Some i => obj_insert_index ms i k v
       | None => ms ++ [(k, v)]
       end.

(** The object [JSON.parse] builds from the members of an object
    literal, taken in the order of the text: each member is defined on
    the object in turn, so a repeated name keeps its first place and its
    last value. *)
Definition obj_of_members (ms : list (string * json)) : list (string * json) :=
  fold_left (fun acc kv => obj_set acc (fst kv) (snd kv)) ms [].

(** From the syntax tree of a text to the document. *)
Fixpoint internalize (j : json) : json :=
  match j with
  | JArr xs => JArr (map internalize xs)
  | JObj ms =>
      JObj (obj_of_members (map (fun kv => (fst kv, internalize (snd kv))) ms))
  | _ => j
  end.

(** ** Reading a text *)

Inductive token : Type :=
| TLBrace | TRBrace | TLBracket | TRBracket | TColon | TComma
| TString (s : string) | TNumber (literal : string)
| TTrue | TFalse | TNull.

(** The grammar of a JSON number: an optional minus sign, an integer
    part without leading zero, an optional fraction, an optional
    exponent. *)
Definition NUMBER : Regex.regex :=
  let digit := Regex.Class is_digit in
  let nonzero := Regex.Class (in_range 49 57) in
  let sign := Regex.Class (fun c => Ascii.eqb c "+" || Ascii.eqb c "-") in
  let e := Regex.Class (fun c => Ascii.eqb c "e" || Ascii.eqb c "E") in
  Regex.Cat (Regex.Opt (Regex.Lit "-"))
    (Regex.Cat (Regex.Alt (Regex.Lit "0") (Regex.Cat nonzero (Regex.Star digit)))
      (Regex.Cat (Regex.Opt (Regex.Cat (Regex.Lit ".") (Regex.Plus digit)))
        (Regex.Opt (Regex.Cat e (Regex.Cat (Regex.Opt sign) (Regex.Plus digit)))))).

Definition is_number_char (c : ascii) : bool :=
  is_digit c || Ascii.eqb c "-" || Ascii.eqb c "+" || Ascii.eqb c "."
  || Ascii.eqb c "e" || Ascii.eqb c "E".

Definition hex_value (c : ascii) : option nat :=
  let n := nat_of_ascii c in
  if in_range 48 57 c then Some (n - 48)
  else if in_range 97 102 c then Some (n - 87)
  else if in_range 65 70 c then Some (n - 55)
  else None.

(** The bytes of the code unit written [\uXXXX].  The two halves of a
    surrogate pair are encoded one by one, which differs from the
    engine for characters outside the basic plane written as escapes. *)
Definition code_unit_bytes (u : nat) : list ascii :=
  if (u <? 128)%nat then [ascii_of_nat u]
  else if (u <? 2048)%nat then
    [ascii_of_nat (192 + u / 64); ascii_of_nat (128 + u mod 64)]
  else
    [ascii_of_nat (224 + u / 4096); ascii_of_nat (128 + (u / 64) mod 64);
     ascii_of_nat (128 + u mod 64)].

Inductive lex_state : Type :=
| LIdle
| LString (acc : list ascii)
| LEscape (acc : list ascii)
| LUnicode (acc : list ascii) (hex : list nat)
| LNumber (acc : list ascii)
| LWord (acc : list ascii).

Definition string_of_rev (acc : list ascii) : string :=
  string_of_list_ascii (rev acc).

(** The first character of a token. *)
Definition lex_start (c : ascii) (toks : list token)
  : option (lex_state * list token) :=
  match nat_of_ascii c with
  | 9 | 10 | 13 | 32 => Some (LIdle, toks)
  | 123 => Some (LIdle, TLBrace :: toks)
  | 125 => Some (LIdle, TRBrace :: toks)
  | 91 => Some (LIdle, TLBracket :: toks)
  | 93 => Some (LIdle, TRBracket :: toks)
  | 58 => Some (LIdle, TColon :: toks)
  | 44 => Some (LIdle, TComma :: toks)
  | 34 => Some (LString [], toks)
  | _ =>
      if is_digit c || Ascii.eqb c "-" then Some (LNumber [c], toks)
      else if in_range 97 122 c then Some (LWord [c], toks)
      else None
  end.

Definition close_number (acc : list ascii) : option token :=
  if Regex.matches NUMBER (rev acc) then Some (TNumber (string_of_rev acc))
  else None.

Definition close_word (acc : list ascii) : option token :=
  let w := string_of_rev acc in
  if String.eqb w "true" then Some TTrue
  else if String.eqb w "false" then Some TFalse
  else if String.eqb w "null" then Some TNull
  else None.

Definition unescape (c : ascii) : option ascii :=
  match nat_of_ascii c with
  | 34 => Some (ascii_of_nat 34)
  | 92 => Some (ascii_of_nat 92)
  | 47 => Some (ascii_of_nat 47)
  | 98 => Some (ascii_of_nat 8)
  | 102 => Some (ascii_of_nat 12)
  | 110 => Some (ascii_of_nat 10)
  | 114 => Some (ascii_of_nat 13)
  | 116 => Some (ascii_of_nat 9)
  | _ => None
  end.

Fixpoint lex (st : lex_state) (toks : list token) (s : list ascii)
  : option (list token) :=
  match s with
  | [] =>
      match st with
      | LIdle => Some (rev toks)
      | LNumber acc => t ← close_number acc; Some (rev (t :: toks))
      | LWord acc => t ← close_word acc; Some (rev (t :: toks))
      | _ => None
      end
  | c :: s' =>
      match st with
      | LIdle => '(st', toks') ← lex_start c toks; lex st' toks' s'
      | LString acc =>
          if Ascii.eqb c (ascii_of_nat 34)
          then lex LIdle (TString (string_of_rev acc) :: toks) s'
          else if Ascii.eqb c (ascii_of_nat 92) then lex (LEscape acc) toks s'
          else if (nat_of_ascii c <? 32)%nat then None
          else lex (LString (c :: acc)) toks s'
      | LEscape acc =>
          if Ascii.eqb c "u" then lex (LUnicode acc []) toks s'
          else e ← unescape c; lex (LString (e :: acc)) toks s'
      | LUnicode acc hex =>
          h ← hex_value c;
          match hex with
          | [h2; h1; h0] =>
              let u := ((h0 * 16 + h1) * 16 + h2) * 16 + h in
              lex (LString (rev (code_unit_bytes u) ++ acc)) toks s'
          | _ => lex (LUnicode acc (h :: hex)) toks s'
          end
      | LNumber acc =>
          if is_number_char c then lex (LNumber (c :: acc)) toks s'
          else t ← close_number acc;
               '(st', toks') ← lex_start c (t :: toks); lex st' toks' s'
      | LWord acc =>
          if in_range 97 122 c then lex (LWord (c :: acc)) toks s'
          else t ← close_word acc;
               '(st', toks') ← lex_start c (t :: toks); lex st' toks' s'
      end
  end.

(** The parser keeps the containers that are still open on a stack. *)
Inductive frame : Type :=
| FArr (acc : list json)
| FObj (acc : list (string * json)) (k : string).

Inductive parse_state : Type :=
| PValue (stack : list frame) (may_close : bool)
| PKey (acc : list (string * json)) (stack : list frame) (may_close : bool)
| PColon (acc : list (string * json)) (k : string) (stack : list frame)
| PAfter (v : json) (stack : list frame).

Definition parse_step (st : parse_state) (t : token) : option parse_state :=
  match st with
  | PValue stack may_close =>
      match t with
      | TLBracket => Some (PValue (FArr [] :: stack) true)
      | TLBrace => Some (PKey [] stack true)
      | TString s => Some (PAfter (JStr s) stack)
      | TNumber n => Some (PAfter (JNum n) stack)
      | TTrue => Some (PAfter (JBool true) stack)
      | TFalse => Some (PAfter (JBool false) stack)
      | TNull => Some (PAfter JNull stack)
      | TRBracket =>
          match may_close, stack with
          | true, FArr [] :: rest => Some (PAfter (JArr []) rest)
          | _, _ => None
          end
      | _ => None
      end
  | PKey acc stack may_close =>
      match t with
      | TString k => Some (PColon acc k stack)
      | TRBrace => if may_close then Some (PAfter (JObj []) stack) else None
      | _ => None
      end
  | PColon acc k stack =>
      match t with
      | TColon => Some (PValue (FObj acc k :: stack) false)
      | _ => None
      end
  | PAfter v stack =>
      match stack, t with
      | FArr acc :: rest, TComma => Some (PValue (FArr (v :: acc) :: rest) false)
      | FArr acc :: rest, TRBracket => Some (PAfter (JArr (rev (v :: acc))) rest)
      | FObj acc k :: rest, TComma => Some (PKey ((k, v) :: acc) rest false)
      | FObj acc k :: rest, TRBrace =>
          Some (PAfter (JObj (rev ((k, v) :: acc))) rest)
      | _, _ => None
      end
  end.

Fixpoint parse_tokens (st : parse_state) (ts : list token) : option json :=
  match ts with
  | [] => match st with PAfter v [] => Some v | _ => None end
  | t :: ts' => st' ← parse_step st t; parse_tokens st' ts'
  end.

(** The syntax tree of a text, [None] for a text [JSON.parse] refuses. *)
Definition read_json (text : string) : option json :=
  ts ← lex LIdle [] (list_ascii_of_string text);
  parse_tokens (PValue [] false) ts.

(** [JSON.parse(text)], [None] for the [SyntaxError]. *)
Definition JSON_parse (text : string) : option json :=
  internalize <$> read_json text.

(** ** Writing a document *)

Definition nl : string := String (ascii_of_nat 10) EmptyString.
Definition dquote : string := String (ascii_of_nat 34) EmptyString.
Definition backslash : string := String (ascii_of_nat 92) EmptyString.

Definition hex_digit (n : nat) : ascii :=
  if (n <? 10)%nat then ascii_of_nat (48 + n) else ascii_of_nat (87 + n).

(** One character inside a quoted string: the quote, the backslash and
    the control characters are escaped, everything else is copied. *)
Definition escape_char (c : ascii) : string :=
  match nat_of_ascii c with
  | 8 => backslash +:+ "b"
  | 9 => backslash +:+ "t"
  | 10 => backslash +:+ "n"
  | 12 => backslash +:+ "f"
  | 13 => backslash +:+ "r"
  | 34 => backslash +:+ dquote
  | 92 => backslash +:+ backslash
  | n =>
      if (n <? 32)%nat
      then backslash +:+ "u00"
           +:+ String (hex_digit (n / 16)) (String (hex_digit (n mod 16)) "")
      else String c ""
  end.

Fixpoint escape (s : string) : string :=
  match s with
  | EmptyString => ""
  | String c s' => escape_char c +:+ escape s'
  end.

Definition quote (s : string) : string := dquote +:+ escape s +:+ dquote.

(** The serialization of a value whose lines are indented by [indent],
    each level of nesting adding [gap]. *)
Fixpoint serialize (gap indent : string) (j : json) : string :=
  match j with
  | JNull => "null"
  | JBool true => "true"
  | JBool false => "false"
  | JNum literal => literal
  | JStr s => quote s
  | JArr [] => "[]"
  | JArr xs =>
      let stepback := indent in
      let indent := indent +:+ gap in
      "[" +:+ nl +:+ indent
      +:+ join ("," +:+ nl +:+ indent) (map (serialize gap indent) xs)
      +:+ nl +:+ stepback +:+ "]"
  | JObj [] => "{}"
  | JObj ms =>
      let stepback := indent in
      let indent := indent +:+ gap in
      "{" +:+ nl +:+ indent
      +:+ join ("," +:+ nl +:+ indent)
            (map (fun kv => quote (fst kv) +:+ ": " +:+ serialize gap indent (snd kv)) ms)
      +:+ nl +:+ stepback +:+ "}"
  end.

(** [JSON.stringify(value, null, 2)] *)
Definition JSON_stringify (j : json) : string := serialize "  " "" j.

(** ** Conversion to a string inside a template literal *)

(** [`${v}`] for a value read from a document, [None] when the
    conversion throws a [TypeError]: an object that has a member named
    [toString] hides the method of that name, and nothing else converts
    it.  An array is the comma-separated list of its items, [null] items
    being empty. *)
Fixpoint template_string (j : json) : option string :=
  match j with
  | JNull => Some "null"
  | JBool true => Some "true"
  | JBool false => Some "false"
  | JNum literal => Some literal
  | JStr s => Some s
  | JArr xs =>
      join "," <$>
        mapM (fun x => match x with JNull => Some "" | _ => template_string x end) xs
  | JObj ms => if obj_has ms "toString" then None else Some "[object Object]"
  end.

(** The same for a variable that may hold [undefined]. *)
Definition template_string_opt (v : option json) : option string :=
  match v with
  | None => Some "undefined"
  | Some j => template_string j
  end.

(* ================================================================== *)
(** * The file system *)
(* ================================================================== *)

(** A path is the list of its names from the root of the file system, so
    that [path.join(dir, name)] is [dir ++ [name]] and [path.dirname]
    drops the last name.  Links are not modelled. *)
Inductive node : Type :=
| File (content : string)
| Dir.

Definition existsSync (files : gmap (list string) node) (p : list string) : bool :=
  match files !! p with Some _ => true | None => false end.

(** [fs.statSync(p).isDirectory()] for a path that exists. *)
Definition isDirectory (files : gmap (list string) node) (p : list string) : bool :=
  match files !! p with Some Dir => true | _ => false end.

Fixpoint strip_dir (dir p : list string) : option (list string) :=
  match dir, p with
  | [], _ => Some p
  | d :: dir', n :: p' => if String.eqb d n then strip_dir dir' p' else None
  | _ :: _, [] => None
  end.

Definition child_name (dir : list string) (entry : list string * node)
  : option string :=
  match strip_dir dir (fst entry) with
  | Some [name] => Some name
  | _ => None
  end.

(** The names [fs.readdirSync(dir)] lists.  The order is the one of the
    map, as arbitrary as the order of the operating system. *)
Definition entries (files : gmap (list string) node) (dir : list string)
  : list string :=
  omap (child_name dir) (map_to_list files).

(* ================================================================== *)
(** * The process and its effects *)
(* ================================================================== *)

(** What a run does that can be observed from outside, in the order in
    which it does it. *)
Inductive event : Type :=
| Stdout (text : string)
| Stderr (text : string)
| Write (p : list string) (content : string)
| Exec (command : string).

(** A child process either ends with status 0, and [execSync] returns
    what it printed, or fails, and [execSync] throws. *)
Inductive result : Type :=
| Ok (output : string)
| Failed (message : string).

(** The external collaborator: whatever runs the commands, with a state
    of its own of type [G].  It reads the files and does not write the
    ones the script handles. *)
Class Shell (G : Type) : Type :=
  run_command : string -> gmap (list string) node -> G -> result * G.

Record world (G : Type) : Type := World {
  files : gmap (list string) node;
  vcs : G;
  trace : list event   (* the latest event first *)
}.
Arguments World {G}.
Arguments files {G}.
Arguments vcs {G}.
Arguments trace {G}.

(** A statement ends normally, or the process exits with a code, or an
    exception propagates. *)
Inductive outcome (A : Type) : Type :=
| Returned (a : A)
| Exited (code : nat)
| Thrown (message : string).
Arguments Returned {A}.
Arguments Exited {A}.
Arguments Thrown {A}.

Definition action (G A : Type) : Type := world G -> outcome A * world G.

#[global] Instance action_ret {G} : MRet (action G) :=
  fun A a w => (Returned a, w).

#[global] Instance action_bind {G} : MBind (action G) :=
  fun A B k m w =>
    match m w with
    | (Returned a, w') => k a w'
    | (Exited code, w') => (Exited code, w')
    | (Thrown msg, w') => (Thrown msg, w')
    end.

Section Effects.
Context {G : Type} `{Shell G}.

Definition throw {A} (msg : string) : action G A :=
  fun w => (Thrown msg, w).

(** [process.exit(code)] *)
Definition process_exit {A} (code : nat) : action G A :=
  fun w => (Exited code, w).

(** [try { body } catch (error) { handler(error.message) }] *)
Definition try_catch {A} (body : action G A) (handler : string -> action G A)
  : action G A :=
  fun w =>
    match body w with
    | (Thrown msg, w') => handler msg w'
    | r => r
    end.

Definition emit (e : event) : action G unit :=
  fun w => (Returned tt, World (files w) (vcs w) (e :: trace w)).

Definition console_log (text : string) : action G unit := emit (Stdout text).
Definition console_error (text : string) : action G unit := emit (Stderr text).

Definition when (b : bool) (m : action G unit) : action G unit :=
  if b then m else mret tt.

Definition current_files : action G (gmap (list string) node) :=
  fun w => (Returned (files w), w).

(** [fs.readFileSync(p, 'utf8')] *)
Definition readFileSync (p : list string) : action G string :=
  fun w =>
    match files w !! p with
    | Some (File content) => (Returned content, w)
    | Some Dir => (Thrown "EISDIR: illegal operation on a directory, read", w)
    | None => (Thrown "ENOENT: no such file or directory, open", w)
    end.

(** [fs.writeFileSync(p, content)].  The script only writes to paths
    that exist, so the case of a missing parent directory is left out. *)
Definition writeFileSync (p : list string) (content : string) : action G unit :=
  fun w =>
    match files w !! p with
    | Some Dir => (Thrown "EISDIR: illegal operation on a directory, open", w)
    | _ => (Returned tt,
            World (<[p := File content]> (files w)) (vcs w)
                  (Write p content :: trace w))
    end.

(** [fs.readdirSync(dir)] *)
Definition readdirSync (dir : list string) : action G (list string) :=
  fun w =>
    match files w !! dir with
    | Some Dir => (Returned (entries (files w) dir), w)
    | Some (File _) => (Thrown "ENOTDIR: not a directory, scandir", w)
    | None => (Thrown "ENOENT: no such file or directory, scandir", w)
    end.

(** [execSync(command)] *)
Definition execSync (command : string) : action G string :=
  fun w =>
    let '(r, g) := run_command command (files w) (vcs w) in
    let w' := World (files w) g (Exec command :: trace w) in
    match r with
    | Ok output => (Returned output, w')
    | Failed msg => (Thrown ("Command failed: " +:+ command +:+ nl +:+ msg), w')
    end.

(** [xs.forEach(f)] *)
Fixpoint forEach {A} (xs : list A) (f : A -> action G unit) : action G unit :=
  match xs with
  | [] => mret tt
  | x :: rest => f x;; forEach rest f
  end.

(** [JSON.parse(text)] as a statement. *)
Definition parse (text : string) : action G json :=
  match JSON_parse text with
  | Some j => mret j
  | None => throw "Unexpected token in JSON"
  end.

(** [doc[k]] where [k] is none of the names the prototypes define:
    [undefined], here [None], when [doc] has no such member, a
    [TypeError] on [null]. *)
Definition get_member (doc : json) (k : string) : action G (option json) :=
  match doc with
  | JObj ms => mret (obj_get ms k)
  | JNull => throw "Cannot read properties of null"
  | _ => mret None
  end.

(** [doc[k] = v] in a module, that is in strict mode: a [TypeError] on
    [null] and on a primitive value.  On an array a name that is not an
    index becomes a property that [JSON.stringify] leaves out. *)
Definition set_member (doc : json) (k : string) (v : json) : action G json :=
  match doc with
  | JObj ms => mret (JObj (obj_set ms k v))
  | JArr xs => mret (JArr xs)
  | JNull => throw "Cannot set properties of null"
  | _ => throw ("Cannot create property '" +:+ k +:+ "'")
  end.

(** A template literal around a value of a document. *)
Definition template (v : option json) : action G string :=
  match template_string_opt v with
  | Some s => mret s
  | None => throw "Cannot convert object to primitive value"
  end.

End Effects.

(* ================================================================== *)
(** * scripts/update-version.js *)
(* ================================================================== *)

Definition HELP_TEXT : string :=
"
Script to update the version of Fullcalendar packages

It takes a version as an argument and:
1. Updates version field in root package.json and all packages/[name]/package.json
2. Updates all @teamdiverst/fullcalendar-dependencies to the new version
3. Creates a git commit for the version update
4. Creates git tag " +:+ dquote +:+ "v<version>" +:+ dquote +:+ "

Usage:
 scripts/update-version.js <version>
 or
 npm run update-version <version>

Note: After updating the version, remember to run 'npm install' to install
the updated dependencies and update the lock file with the new version.
".

Definition PREFIX : string := "@teamdiverst/fullcalendar-".

Definition depTypes : list string :=
  ["dependencies"; "devDependencies"; "peerDependencies"].

(** [args.includes(flag)] *)
Definition includes (flag : string) (args : list string) : bool :=
  existsb (String.eqb flag) args.

(** The inner loop of [updatePackageJsonFile] on the value of one
    dependency field: [Object.keys] is taken once, then every key that
    starts with the prefix is assigned the range.  Only an object has
    such keys: those of an array or of a string are indices, the other
    values have none, and a falsy value is skipped by the test around
    the loop, so every value that is not an object is left as it is. *)
Definition update_dependencies (version : string) (deps : json) : json :=
  match deps with
  | JObj ms =>
      JObj (fold_left
              (fun acc dep =>
                 if startsWith dep PREFIX
                 then obj_set acc dep (JStr ("~" +:+ version))
                 else acc)
              (keys ms) ms)
  | _ => deps
  end.

(** The body of [depTypes.forEach]: the value of the field is an object
    of the document, changed in place. *)
Definition update_depType (version : string) (doc : json) (depType : string)
  : json :=
  match doc with
  | JObj ms =>
      match obj_get ms depType with
      | Some deps => JObj (obj_set ms depType (update_dependencies version deps))
      | None => doc
      end
  | _ => doc
  end.

Section Script.
Context {G : Type} `{Shell G}.

(** [findProjectRoot], on the names of [__dirname] from the innermost
    one: the loop stops, and the function throws, when the directory is
    its own parent. *)
Fixpoint findProjectRoot_from (files : gmap (list string) node)
  (innermost_first : list string) : option (list string) :=
  match innermost_first with
  | [] => None
  | _ :: parent =>
      let currentDir := rev innermost_first in
      if existsSync files (currentDir ++ ["package.json"])
         && existsSync files (currentDir ++ ["packages"])
      then Some currentDir
      else findProjectRoot_from files parent
  end.

Definition findProjectRoot (dirname : list string) : action G (list string) :=
  files ← current_files;
  match findProjectRoot_from files (rev dirname) with
  | Some dir => mret dir
  | None =>
      throw "Could not find project root (looking for package.json and packages/ directory)"
  end.

Definition updatePackageJsonFile (filePath : list string)
  (packageName version : string) : action G unit :=
  text ← readFileSync filePath;
  json ← parse text;
  json ← set_member json "version" (JStr version);
  let json := fold_left (update_depType version) depTypes json in
  writeFileSync filePath (JSON_stringify json +:+ nl);;
  console_log ("Updated package " +:+ packageName).

Definition STATUS : string := "git status --porcelain".
Definition ADD : string :=
  "git add package.json packages/*/package.json bundle/package.json".

Definition commit_command (oldVersion version : string) : string :=
  "git commit -m " +:+ dquote +:+ "Updated version from " +:+ oldVersion
  +:+ " to " +:+ version +:+ dquote.

(** The body of the [try] block of [main]. *)
Definition bump (dirname : list string) (version : string) : action G unit :=
  projectRoot ← findProjectRoot dirname;
  let tag := "v" +:+ version in
  (* Check if there are uncommitted changes *)
  status ← execSync STATUS;
  when (negb (trim_is_empty status))
    (console_error "Error: There are uncommitted changes in the repository";;
     console_error "Please commit or stash your changes before running this script";;
     process_exit 1);;
  (* Check if a git tag for the new version already exists *)
  listed ← execSync ("git tag -l " +:+ tag);
  when (negb (trim_is_empty listed))
    (console_error ("Error: Git tag " +:+ dquote +:+ tag +:+ dquote +:+ " already exists");;
     process_exit 1);;
  (* Update root package.json *)
  let rootPackageFile := projectRoot ++ ["package.json"] in
  files ← current_files;
  oldVersion ←
    (if existsSync files rootPackageFile then
       text ← readFileSync rootPackageFile;
       rootData ← parse text;
       oldVersion ← get_member rootData "version";
       rootData ← set_member rootData "version" (JStr version);
       writeFileSync rootPackageFile (JSON_stringify rootData +:+ nl);;
       console_log ("Updated root package.json to " +:+ version);;
       mret oldVersion
     else mret (Some JNull));
  (* Find packages *)
  let packagesDir := projectRoot ++ ["packages"] in
  names ← readdirSync packagesDir;
  files ← current_files;
  let packages :=
    map (fun pkg => (pkg, packagesDir ++ [pkg]))
        (filter (fun dir => isDirectory files (packagesDir ++ [dir])) names)
    (* Also include the bundle package *)
    ++ [("bundle", projectRoot ++ ["bundle"])] in
  (* Update package.json files *)
  forEach packages (fun '(name, dir) =>
    let packageFile := dir ++ ["package.json"] in
    files ← current_files;
    if existsSync files packageFile
    then updatePackageJsonFile packageFile name version
    else mret tt);;
  execSync ADD;;
  old ← template oldVersion;
  execSync (commit_command old version);;
  console_log "Committed changes on affected files";;
  execSync ("git tag " +:+ tag);;
  console_log ("Created git tag " +:+ tag);;
  console_log (nl +:+ "Successfully updated all packages from " +:+ old
               +:+ " to " +:+ version).

(** [main], given [__dirname] and [process.argv.slice(2)]. *)
Definition main (dirname : list string) (args : list string) : action G unit :=
  let version := head args in
  when (includes "-h" args || includes "--help" args)
    (console_log HELP_TEXT;; process_exit 0);;
  match version with
  | None | Some EmptyString =>
      (* !version: undefined or the empty string *)
      console_error "Error: No version provided";;
      console_error HELP_TEXT;;
      process_exit 1
  | Some version =>
      when (negb (Regex.test SEMVER version))
        (console_error ("Error: Invalid SemVer format " +:+ dquote +:+ version +:+ dquote);;
         console_error "Expected format: X.Y.Z-pre-release.build";;
         console_error "Examples: 6.1.19, 6.1.19-alpha, 6.1.19-a11y.1";;
         process_exit 1);;
      try_catch (bump dirname version)
        (fun message => console_error ("Error: " +:+ message);; process_exit 1)
  end.

(** The exit code of the process: the one given to [process.exit], 0
    when [main] returns.  [main] catches what it throws; an exception
    that escaped would end the process with code 1. *)
Definition exit_code {A} (o : outcome A) : nat :=
  match o with
  | Returned _ => 0
  | Exited code => code
  | Thrown _ => 1
  end.

(** A run of the script in a fresh process. *)
Definition run (dirname : list string) (args : list string)
  (files : gmap (list string) node) (g : G) : outcome unit * world G :=
  main dirname args (World files g []).

End Script.

(* ================================================================== *)
(** * The older variant of the script *)
(* ================================================================== *)

(** The second copy of the script in the repository: the same handling
    of the arguments, no check of the work tree nor of the tag, no
    bundle package, the update of a package written in the loop. *)
Module Variant.

Definition HELP_TEXT : string :=
"
Script to update the version of Fullcalendar packages

It takes a version as an argument and:
1. Updates version field in root package.json and all packages/[name]/package.json
2. Updates all @teamdiverst/fullcalendar-dependencies to the new version
3. Creates a git commit for the version update
4. Creates git tag " +:+ dquote +:+ "v<version>" +:+ dquote +:+ "

Usage:
 scripts/update-version.js <version>
 or
 npm run update-version <version>
".

Definition ADD : string := "git add package.json packages/*/package.json".

Section Script.
Context {G : Type} `{Shell G}.

Definition bump (dirname : list string) (version : string) : action G unit :=
  projectRoot ← findProjectRoot dirname;
  (* Update root package.json *)
  let rootPackageFile := projectRoot ++ ["package.json"] in
  files ← current_files;
  oldVersion ←
    (if existsSync files rootPackageFile then
       text ← readFileSync rootPackageFile;
       rootData ← parse text;
       oldVersion ← get_member rootData "version";
       rootData ← set_member rootData "version" (JStr version);
       writeFileSync rootPackageFile (JSON_stringify rootData +:+ nl);;
       console_log ("Updated root package.json to " +:+ version);;
       mret oldVersion
     else mret (Some JNull));
  (* Find Fullcalendar packages *)
  let packagesDir := projectRoot ++ ["packages"] in
  names ← readdirSync packagesDir;
  files ← current_files;
  let packages :=
    filter (fun dir => isDirectory files (packagesDir ++ [dir])) names in
  (* Update package.json files on all packages *)
  forEach packages (fun pkg =>
    let packageFile := packagesDir ++ [pkg; "package.json"] in
    files ← current_files;
    if existsSync files packageFile then
      text ← readFileSync packageFile;
      json ← parse text;
      json ← set_member json "version" (JStr version);
      let json := fold_left (update_depType version) depTypes json in
      writeFileSync packageFile (JSON_stringify json +:+ nl);;
      console_log ("Updated package " +:+ pkg)
    else mret tt);;
  execSync ADD;;
  old ← template oldVersion;
  execSync (commit_command old version);;
  console_log "Committed changes on affected files";;
  let tag := "v" +:+ version in
  execSync ("git tag " +:+ tag);;
  console_log ("Created git tag " +:+ tag);;
  console_log (nl +:+ "Successfully updated all packages from " +:+ old
               +:+ " to " +:+ version).

Definition main (dirname : list string) (args : list string) : action G unit :=
  let version := head args in
  when (includes "-h" args || includes "--help" args)
    (console_log HELP_TEXT;; process_exit 0);;
  match version with
  | None | Some EmptyString =>
      console_error "Error: No version provided";;
      console_error HELP_TEXT;;
      process_exit 1
  | Some version =>
      when (negb (Regex.test SEMVER version))
        (console_error ("Error: Invalid SemVer format " +:+ dquote +:+ version +:+ dquote);;
         console_error "Expected format: X.Y.Z-pre-release.build";;
         console_error "Examples: 6.1.19, 6.1.19-alpha, 6.1.19-a11y.1";;
         process_exit 1);;
      try_catch (bump dirname version)
        (fun message => console_error ("Error: " +:+ message);; process_exit 1)
  end.

Definition run (dirname : list string) (args : list string)
  (files : gmap (list string) node) (g : G) : outcome unit * world G :=
  main dirname args (World files g []).

End Script.
End Variant.

(* ================================================================== *)
(** * What a run leaves behind *)
(* ================================================================== *)

(** The four stages at which the handling of the arguments can stop. *)
Inductive verdict : Type :=
| ShowHelp
| MissingVersion
| InvalidVersion (version : string)
| Proceed (version : string).

(** The events of a run in the order in which they happened. *)
Definition history {G : Type} (w : world G) : list event := rev (trace w).

(** The paths written, the commands run and the lines sent to each
    stream in a list of events. *)
Definition writes (h : list event) : list (list string) :=
  omap (fun e => match e with Write p _ => Some p | _ => None end) h.

Definition execs (h : list event) : list string :=
  omap (fun e => match e with Exec c => Some c | _ => None end) h.

Definition outs (h : list event) : list string :=
  omap (fun e => match e with Stdout s => Some s | _ => None end) h.

Definition errs (h : list event) : list string :=
  omap (fun e => match e with Stderr s => Some s | _ => None end) h.

(** The same for a trace, which has the latest event first; the results
    have the earliest first. *)
Definition written (t : list event) : list (list string) := writes (rev t).
Definition commands (t : list event) : list string := execs (rev t).
Definition stdout (t : list event) : list string := outs (rev t).
Definition stderr (t : list event) : list string := errs (rev t).

(** Nothing outside the process was touched: no file written and no
    command run. *)
Definition untouched {G : Type} (before : gmap (list string) node) (g : G)
  (w : world G) : Prop :=
  files w = before /\ vcs w = g /\
  written (trace w) = [] /\ commands (trace w) = [].

(* ================================================================== *)
(** * A model of git behind a POSIX shell *)
(* ================================================================== *)

(** One implementation of the collaborator, precise enough to run the
    script from end to end: a repository whose work tree is the
    directory the process runs in, which is the root of the project, and
    the five commands of the script as [sh] and [git] carry them out.
    Ignore rules, hooks, links and the expansions the shell performs
    inside double quotes are left out.  The general theorems below do
    not depend on it: they hold for every implementation. *)
Module Git.

Record repo : Type := Repo {
  toplevel : list string;                 (* the work tree, also the cwd *)
  head : gmap (list string) string;       (* the files of the last commit *)
  index : gmap (list string) string;      (* the staged files *)
  tags : list string;
  messages : list string                  (* of the commits, latest first *)
}.

(** The files below the top level, with their content. *)
Definition work_tree (files : gmap (list string) node) (top : list string)
  : gmap (list string) string :=
  omap (fun n => match n with File c => Some c | Dir => None end)
       (filter (fun kv => is_Some (strip_dir top kv.1)) files).

Definition relative (top p : list string) : string :=
  join "/" (default p (strip_dir top p)).

Definition same (a b : option string) : bool := bool_decide (a = b).

(** One line of [git status --porcelain], empty for a path on which the
    last commit, the index and the work tree agree. *)
Definition status_line (r : repo) (wt : gmap (list string) string)
  (p : list string) : string :=
  let staged :=
    match head r !! p, index r !! p with
    | None, Some _ => "A"
    | Some _, None => "D"
    | a, b => if same a b then " " else "M"
    end in
  let unstaged :=
    match index r !! p, wt !! p with
    | None, Some _ => "?"
    | Some _, None => "D"
    | a, b => if same a b then " " else "M"
    end in
  if String.eqb (staged +:+ unstaged) "  " then ""
  else (if String.eqb (staged +:+ unstaged) " ?" then "??" else staged +:+ unstaged)
       +:+ " " +:+ relative (toplevel r) p +:+ nl.

Definition status (files : gmap (list string) node) (r : repo) : string :=
  let wt := work_tree files (toplevel r) in
  let paths := elements (dom wt ∪ dom (index r) ∪ dom (head r)) in
  fold_right (fun p out => status_line r wt p +:+ out) "" paths.

Fixpoint strip_prefix (p s : string) : option string :=
  match p, s with
  | EmptyString, _ => Some s
  | String a p', String b s' =>
      if Ascii.eqb a b then strip_prefix p' s' else None
  | String _ _, EmptyString => None
  end.

Fixpoint split_on (sep : ascii) (s : string) : list string :=
  match s with
  | EmptyString => [""]
  | String c s' =>
      if Ascii.eqb c sep then "" :: split_on sep s'
      else match split_on sep s' with
           | w :: ws => String c w :: ws
           | [] => [String c ""]
           end
  end.

(** The fields of a command line that has no quoting. *)
Definition words (command : string) : list string :=
  filter (fun w => w <> "") (split_on " " command).

(** Pathname expansion of the shell for a word whose pattern
    characters, if any, are whole [*] components: a [*] stands for every
    name of the directory that does not start with a dot. *)
Fixpoint expand (files : gmap (list string) node) (dir : list string)
  (components : list string) : list (list string) :=
  match components with
  | [] => if existsSync files dir then [dir] else []
  | c :: rest =>
      if String.eqb c "*" then
        flat_map (fun name => expand files (dir ++ [name]) rest)
                 (filter (fun name => negb (startsWith name ".")) (entries files dir))
      else expand files (dir ++ [c]) rest
  end.

(** What git receives for one word: paths, or the word itself as a
    pattern when it has a [*] that matched nothing. *)
Inductive pathspec : Type :=
| Paths (ps : list (list string))
| Pattern (word : string).

Definition pathspec_of (files : gmap (list string) node) (top : list string)
  (word : string) : pathspec :=
  let components := split_on "/" word in
  if existsb (String.eqb "*") components then
    match expand files top components with
    | [] => Pattern word
    | ps => Paths ps
    end
  else Paths [top ++ components].

Definition wildcard (word : string) : Regex.regex :=
  fold_right
    (fun c r =>
       Regex.Cat (if Ascii.eqb c "*" then Regex.Star (Regex.Class (fun _ => true))
                  else Regex.Lit c) r)
    Regex.Empty (list_ascii_of_string word).

Definition is_below (dir p : list string) : bool :=
  match strip_dir dir p with Some _ => true | None => false end.

(** The known paths one pathspec selects: a path or what lies below it;
    for a pattern, the paths it matches, its [*] crossing directories. *)
Definition selected (top : list string) (known : list (list string))
  (spec : pathspec) : list (list (list string)) :=
  match spec with
  | Paths ps => map (fun p => filter (fun q => is_below p q) known) ps
  | Pattern word =>
      [filter (fun q => Regex.test (wildcard word) (relative top q)) known]
  end.

Definition stage (wt : gmap (list string) string)
  (idx : gmap (list string) string) (p : list string)
  : gmap (list string) string :=
  match wt !! p with
  | Some content => <[p := content]> idx
  | None => delete p idx
  end.

(** [git add]: every pathspec has to select something, or nothing is
    staged at all. *)
Definition add (files : gmap (list string) node) (r : repo)
  (specs : list string) : result * repo :=
  let wt := work_tree files (toplevel r) in
  let known := elements (dom wt ∪ dom (index r)) in
  let groups :=
    flat_map (fun w => selected (toplevel r) known (pathspec_of files (toplevel r) w))
             specs in
  if existsb (fun g => match g with [] => true | _ => false end) groups
  then (Failed "fatal: pathspec did not match any files", r)
  else (Ok "",
        Repo (toplevel r) (head r) (fold_left (stage wt) (concat groups) (index r))
             (tags r) (messages r)).

Definition commit (r : repo) (message : string) : result * repo :=
  if bool_decide (index r = head r)
  then (Failed "nothing to commit, working tree clean", r)
  else (Ok "", Repo (toplevel r) (index r) (index r) (tags r) (message :: messages r)).

Definition tag_list (r : repo) (name : string) : string :=
  if existsb (String.eqb name) (tags r) then name +:+ nl else "".

Definition tag (r : repo) (name : string) : result * repo :=
  if existsb (String.eqb name) (tags r)
  then (Failed ("fatal: tag '" +:+ name +:+ "' already exists"), r)
  else match messages r with
       | [] => (Failed "fatal: Failed to resolve 'HEAD' as a valid ref.", r)
       | _ => (Ok "", Repo (toplevel r) (head r) (index r) (name :: tags r) (messages r))
       end.

(** The text between the double quotes of [-m "..."]. *)
Definition unquote (quoted : string) : option string :=
  match strip_prefix dquote quoted with
  | Some rest =>
      match rev (list_ascii_of_string rest) with
      | c :: inner =>
          if Ascii.eqb c (ascii_of_nat 34)
          then Some (string_of_list_ascii (rev inner)) else None
      | [] => None
      end
  | None => None
  end.

Definition run (command : string) (files : gmap (list string) node) (r : repo)
  : result * repo :=
  match strip_prefix "git commit -m " command with
  | Some quoted =>
      match unquote quoted with
      | Some message => commit r message
      | None => (Failed "sh: Syntax error: Unterminated quoted string", r)
      end
  | None =>
      match words command with
      | ["git"; "status"; "--porcelain"] => (Ok (status files r), r)
      | ["git"; "tag"; "-l"; name] => (Ok (tag_list r name), r)
      | ["git"; "tag"; name] => tag r name
      | "git" :: "add" :: specs => add files r specs
      | _ => (Failed "sh: command not found", r)
      end
  end.

#[global] Instance posix : Shell repo := run.

(** A repository in which everything below [top] is committed. *)
Definition committed (files : gmap (list string) node) (top : list string)
  (tags : list string) : repo :=
  Repo top (work_tree files top) (work_tree files top) tags ["Initial commit"].

End Git.

(* ================================================================== *)
(** * A workspace *)
(* ================================================================== *)

(** A small project on which the script can be run: a root manifest
    that itself depends on an internal package, a package [core], a
    directory without manifest, a plain file among the packages, and
    the bundle. *)
Module Example.

Definition root_manifest : json :=
  JObj [("name", JStr "fullcalendar-workspace");
        ("version", JStr "1.0.0");
        ("private", JBool true);
        ("devDependencies",
          JObj [("@teamdiverst/fullcalendar-core", JStr "~1.0.0");
                ("typescript", JStr "^5.0.0")])].

Definition core_manifest : json :=
  JObj [("name", JStr "@teamdiverst/fullcalendar-core");
        ("version", JStr "1.0.0");
        ("dependencies", JObj [("preact", JStr "~10.12.1")]);
        ("keywords", JArr [JStr "calendar"; JStr "event"])].

Definition bundle_manifest : json :=
  JObj [("name", JStr "fullcalendar");
        ("version", JStr "1.0.0");
        ("dependencies",
          JObj [("@teamdiverst/fullcalendar-core", JStr "~1.0.0");
                ("@teamdiverst/fullcalendar-daygrid", JStr "~1.0.0")]);
        ("peerDependencies", JObj [("@teamdiverst/other", JStr "1.x")])].

Definition text_of (doc : json) : string := JSON_stringify doc +:+ nl.

Definition dirname : list string := ["home"; "dev"; "fullcalendar"; "scripts"].
Definition root : list string := ["home"; "dev"; "fullcalendar"].

Definition disk : gmap (list string) node :=
  list_to_map
    [(["home"], Dir);
     (["home"; "dev"], Dir);
     (root, Dir);
     (root ++ ["scripts"], Dir);
     (root ++ ["scripts"; "update-version.js"], File "#!/usr/bin/env node");
     (root ++ ["package.json"], File (text_of root_manifest));
     (root ++ ["packages"], Dir);
     (root ++ ["packages"; "README.md"], File "# Packages");
     (root ++ ["packages"; "core"], Dir);
     (root ++ ["packages"; "core"; "package.json"], File (text_of core_manifest));
     (root ++ ["packages"; "drafts"], Dir);
     (root ++ ["packages"; "drafts"; "notes.txt"], File "to do");
     (root ++ ["bundle"], Dir);
     (root ++ ["bundle"; "package.json"], File (text_of bundle_manifest))].

Definition repo : Git.repo := Git.committed disk root ["v1.0.0"].

(** The same project with one more package, in a directory whose name
    starts with a dot. *)
Definition hidden_manifest : json :=
  JObj [("name", JStr "@teamdiverst/fullcalendar-internal");
        ("version", JStr "1.0.0")].

Definition disk_with_hidden : gmap (list string) node :=
  <[root ++ ["packages"; ".internal"; "package.json"] := File (text_of hidden_manifest)]>
    (<[root ++ ["packages"; ".internal"] := Dir]> disk).

Definition repo_with_hidden : Git.repo :=
  Git.committed disk_with_hidden root ["v1.0.0"].

(** The same project with one more package, whose manifest lists a
    numeric key after another key. *)
Definition icons_text : string :=
  text_of (JObj [("name", JStr "@teamdiverst/fullcalendar-icons");
                 ("version", JStr "1.0.0");
                 ("sizes", JObj [("large", JStr "32px"); ("1", JStr "16px")])]).

Definition disk_with_icons : gmap (list string) node :=
  <[root ++ ["packages"; "icons"; "package.json"] := File icons_text]>
    (<[root ++ ["packages"; "icons"] := Dir]> disk).

Definition repo_with_icons : Git.repo :=
  Git.committed disk_with_icons root ["v1.0.0"].

End Example.

(* ================================================================== *)
(** * Vocabulary of the statements *)
(* ================================================================== *)

(** [-h] or [--help] is among the arguments. *)
Definition help_requested (args : list string) : bool :=
  includes "-h" args || includes "--help" args.

(** What the specification says of an argument list: help when it is
    asked for, else an error when no version is given, else an error
    when the version is not in the grammar, else the run proceeds. *)
Definition verdict_of (args : list string) : verdict :=
  if help_requested args then ShowHelp
  else match head args with
       | None | Some EmptyString => MissingVersion
       | Some version =>
           if Regex.test SEMVER version then Proceed version
           else InvalidVersion version
       end.

(** [doc[k]] as a value, [None] for [undefined]. *)
Definition member (doc : json) (k : string) : option json :=
  match doc with
  | JObj ms => obj_get ms k
  | _ => None
  end.

(** The document after [doc.version = version], when the assignment
    does not throw. *)
Definition with_version (version : string) (doc : json) : option json :=
  match doc with
  | JObj ms => Some (JObj (obj_set ms "version" (JStr version)))
  | JArr xs => Some (JArr xs)
  | _ => None
  end.

(** The document [updatePackageJsonFile] serializes. *)
Definition rewritten (version : string) (doc : json) : option json :=
  fold_left (update_depType version) depTypes <$> with_version version doc.

(** The text [updatePackageJsonFile] writes over [text]. *)
Definition package_text (version text : string) : option string :=
  doc ← JSON_parse text;
  doc' ← rewritten version doc;
  Some (JSON_stringify doc' +:+ nl).

(** The text [main] writes over the text of the root manifest. *)
Definition root_text (version text : string) : option string :=
  doc ← JSON_parse text;
  match doc with
  | JNull => None
  | _ => doc' ← with_version version doc; Some (JSON_stringify doc' +:+ nl)
  end.

(** The manifests of the packages: one for each directory right below
    [packages/] that has one, and the one of the bundle. *)
Definition is_package_manifest (files : gmap (list string) node)
  (root p : list string) : Prop :=
  (exists name,
      p = root ++ ["packages"; name; "package.json"] /\
      isDirectory files (root ++ ["packages"; name]) = true /\
      existsSync files p = true) \/
  (p = root ++ ["bundle"; "package.json"] /\ existsSync files p = true).

(** The last character of a text is a line feed and the one before it,
    if any, is not. *)
Definition ends_with_one_newline (text : string) : Prop :=
  exists body c,
    text = body +:+ String c nl /\ c <> ascii_of_nat 10.

(** The keys of an object of the text that are not array indices, each
    once, in the order in which they first occur. *)
Definition first_occurrences (ks : list string) : list string :=
  fold_left (fun acc k => if decide (k ∈ acc) then acc else acc ++ [k]) ks [].

(** The value the text gives to a key: the one of its last member of
    that name. *)
Definition last_member (ms : list (string * json)) (k : string) : option json :=
  obj_get (rev ms) k.

Definition index_le (k1 k2 : string) : Prop :=
  match array_index k1, array_index k2 with
  | Some i1, Some i2 => (i1 <= i2)%N
  | _, _ => False
  end.

(** The order in which JavaScript enumerates the keys of an object built
    from members named [raw], in this order: no key twice; the array
    indices first, ascending; then the other keys in the order of their
    first occurrence. *)
Definition js_enumeration (raw ks : list string) : Prop :=
  NoDup ks /\
  exists indices others,
    ks = indices ++ others /\
    Forall (fun k => is_array_index k = true) indices /\
    StronglySorted index_le indices /\
    (forall k, k ∈ indices <-> k ∈ raw /\ is_array_index k = true) /\
    others = first_occurrences (filter (fun k => is_array_index k = false) raw).

(** A document that lists, at every depth, the keys of the objects of a
    syntax tree in the order of enumeration, with the values of their
    last occurrence. *)
#[local] Unset Elimination Schemes.
Inductive enumerates : json -> json -> Prop :=
| enumerates_null : enumerates JNull JNull
| enumerates_bool b : enumerates (JBool b) (JBool b)
| enumerates_num n : enumerates (JNum n) (JNum n)
| enumerates_str s : enumerates (JStr s) (JStr s)
| enumerates_arr xs ys :
    Forall2 enumerates xs ys -> enumerates (JArr xs) (JArr ys)
| enumerates_obj raw ms :
    js_enumeration (keys raw) (keys ms) ->
    (forall k v, obj_get ms k = Some v ->
       exists v0, last_member raw k = Some v0 /\ enumerates v0 v) ->
    enumerates (JObj raw) (JObj ms).
#[local] Set Elimination Schemes.

(** An action that, if it makes the process exit, does so with code 1,
    and that only adds events to the trace. *)
Definition tame {G A : Type} (m : action G A) : Prop :=
  forall w o w',
    m w = (o, w') ->
    (forall code, o = Exited code -> code = 1) /\
    exists new, trace w' = new ++ trace w.

(** The handler of [main]. *)
Definition report {G : Type} (message : string) : action G unit :=
  console_error ("Error: " +:+ message);; process_exit 1.

(** ** The serialization as a page of indented lines *)

(** What the specification calls 2-space indentation: the text is a
    first line followed by lines each made of a line feed, two spaces
    for every level of nesting, and the content. *)
Fixpoint spaces (n : nat) : string :=
  match n with
  | 0 => ""
  | S n' => String " " (spaces n')
  end.

(** A comma at the end of the last line. *)
Fixpoint with_comma (ls : list (nat * string)) : list (nat * string) :=
  match ls with
  | [] => []
  | [(depth, content)] => [(depth, content +:+ ",")]
  | l :: rest => l :: with_comma rest
  end.

(** Groups of lines, a comma after each but the last. *)
Fixpoint separated (groups : list (list (nat * string))) : list (nat * string) :=
  match groups with
  | [] => []
  | [g] => g
  | g :: rest => with_comma g ++ separated rest
  end.

(** The start of the current line, then the lines that follow, each
    with its level of nesting. *)
Fixpoint layout (depth : nat) (j : json) : string * list (nat * string) :=
  match j with
  | JNull => ("null", [])
  | JBool true => ("true", [])
  | JBool false => ("false", [])
  | JNum literal => (literal, [])
  | JStr s => (quote s, [])
  | JArr [] => ("[]", [])
  | JArr xs =>
      ("[",
       separated
         (map (fun x => (S depth, fst (layout (S depth) x)) :: snd (layout (S depth) x)) xs)
       ++ [(depth, "]")])
  | JObj [] => ("{}", [])
  | JObj ms =>
      ("{",
       separated
         (map (fun kv =>
                 (S depth, quote (fst kv) +:+ ": " +:+ fst (layout (S depth) (snd kv)))
                 :: snd (layout (S depth) (snd kv))) ms)
       ++ [(depth, "}")])
  end.

Definition render_line (l : nat * string) : string :=
  nl +:+ spaces (2 * fst l) +:+ snd l.

Definition render_lines (ls : list (nat * string)) : string :=
  fold_right (fun l text => render_line l +:+ text) "" ls.

Definition render (page : string * list (nat * string)) : string :=
  fst page +:+ render_lines (snd page).

(** ** The order of the keys along an update *)

(** The keys of the object that is the value of [k] in [doc]. *)
Definition keys_at (k : string) (doc : json) : option (list string) :=
  match member doc k with
  | Some (JObj ms) => Some (keys ms)
  | _ => None
  end.

(** [doc'] has the keys of [doc] in the same order, with [version] last
    if it is new; the values are the same, except for [version] and for
    dependency maps, which keep their keys in the same order. *)
Definition keeps_keys (doc doc' : json) : Prop :=
  match doc, doc' with
  | JObj ms, JObj ms' =>
      keys ms' = keys ms ++ (if obj_has ms "version" then [] else ["version"]) /\
      forall k, k <> "version" ->
        obj_get ms' k = obj_get ms k \/
        (k ∈ depTypes /\
         exists deps deps',
           obj_get ms k = Some (JObj deps) /\
           obj_get ms' k = Some (JObj deps') /\
           keys deps' = keys deps)
  | JArr xs, JArr ys => ys = xs
  | _, _ => False
  end.

(** An action that writes no file. *)
Definition silent {G A : Type} (m : action G A) : Prop :=
  forall w o w',
    m w = (o, w') ->
    files w' = files w /\
    exists new, trace w' = new ++ trace w /\ written new = [].


(* ================================================================== *)
(** * The steps the two copies share *)
(* ================================================================== *)

Section Steps.
Context {G : Type} `{Shell G}.

(** The end of the [try] block: staging, commit and tag, with the
    staging command of the copy. *)
Definition stage_commit_tag (add : string) (oldVersion : option json)
  (version : string) : action G unit :=
  execSync add;;
  old ← template oldVersion;
  execSync (commit_command old version);;
  console_log "Committed changes on affected files";;
  let tag := "v" +:+ version in
  execSync ("git tag " +:+ tag);;
  console_log ("Created git tag " +:+ tag);;
  console_log (nl +:+ "Successfully updated all packages from " +:+ old
               +:+ " to " +:+ version).

(** The [try] block from the update of the root manifest on.  The
    copies differ by the packages they add to the ones of [packages/]
    and by the staging command. *)
Definition update_and_commit (extra : list (string * list string))
  (add : string) (projectRoot : list string) (version : string)
  : action G unit :=
  let rootPackageFile := projectRoot ++ ["package.json"] in
  files ← current_files;
  oldVersion ←
    (if existsSync files rootPackageFile then
       text ← readFileSync rootPackageFile;
       rootData ← parse text;
       oldVersion ← get_member rootData "version";
       rootData ← set_member rootData "version" (JStr version);
       writeFileSync rootPackageFile (JSON_stringify rootData +:+ nl);;
       console_log ("Updated root package.json to " +:+ version);;
       mret oldVersion
     else mret (Some JNull));
  let packagesDir := projectRoot ++ ["packages"] in
  names ← readdirSync packagesDir;
  files ← current_files;
  let packages :=
    map (fun pkg => (pkg, packagesDir ++ [pkg]))
        (filter (fun dir => isDirectory files (packagesDir ++ [dir])) names)
    ++ extra in
  forEach packages (fun '(name, dir) =>
    let packageFile := dir ++ ["package.json"] in
    files ← current_files;
    if existsSync files packageFile
    then updatePackageJsonFile packageFile name version
    else mret tt);;
  stage_commit_tag add oldVersion version.

End Steps.

(** The manifests the loop goes through, in its order. *)
Definition listed_manifests (files : gmap (list string) node)
  (root : list string) (extra : list (string * list string))
  : list (list string) :=
  map (fun pkg : string * list string => snd pkg ++ ["package.json"])
      (map (fun pkg => (pkg, (root ++ ["packages"]) ++ [pkg]))
           (filter (fun dir => isDirectory files ((root ++ ["packages"]) ++ [dir]))
                   (entries files (root ++ ["packages"])))
       ++ extra).

(** An action that prints to the error stream only when it is about to
    make the process exit: when it exits, the last thing it did was to
    print there; when it returns or throws, it has printed nothing
    there. *)
Definition orderly {G A : Type} (m : action G A) : Prop :=
  forall w o w',
    m w = (o, w') ->
    exists new,
      trace w' = new ++ trace w /\
      match o with
      | Exited _ => exists line rest, new = Stderr line :: rest
      | _ => stderr new = []
      end.

(** Both entries that make a directory the root of the project. *)
Definition is_project_root (files : gmap (list string) node)
  (dir : list string) : bool :=
  existsSync files (dir ++ ["package.json"])
  && existsSync files (dir ++ ["packages"]).

(** What the update of one package leaves in the history: the write of
    its manifest, then the line that reports it.  A package is given by
    its name, its directory and the text written. *)
Definition package_events (pkg : string * list string * string) : list event :=
  let '(name, dir, text) := pkg in
  [Write (dir ++ ["package.json"]) text; Stdout ("Updated package " +:+ name)].

(** The packages the loop goes through, in its order. *)
Definition listed_packages (files : gmap (list string) node)
  (root : list string) (extra : list (string * list string))
  : list (string * list string) :=
  map (fun pkg => (pkg, (root ++ ["packages"]) ++ [pkg]))
      (filter (fun dir => isDirectory files ((root ++ ["packages"]) ++ [dir]))
              (entries files (root ++ ["packages"])))
  ++ extra.

(* ================================================================== *)
(** * Projects on which a run fails *)
(* ================================================================== *)

Module Mishap.

(** The example project with one more package, whose manifest is cut
    short. *)
Definition disk_with_broken : gmap (list string) node :=
  <[Example.root ++ ["packages"; "broken"; "package.json"] := File "{ "]>
    (<[Example.root ++ ["packages"; "broken"] := Dir]> Example.disk).

Definition repo_with_broken : Git.repo :=
  Git.committed disk_with_broken Example.root ["v1.0.0"].

(** The example project with [null] as its root manifest. *)
Definition disk_with_null_root : gmap (list string) node :=
  <[Example.root ++ ["package.json"] := File "null"]> Example.disk.

Definition repo_with_null_root : Git.repo :=
  Git.committed disk_with_null_root Example.root ["v1.0.0"].

(** The example project without the manifest of the bundle, which the
    staging command names. *)
Definition disk_without_bundle : gmap (list string) node :=
  delete (Example.root ++ ["bundle"; "package.json"]) Example.disk.

Definition repo_without_bundle : Git.repo :=
  Git.committed disk_without_bundle Example.root ["v1.0.0"].

End Mishap.
#[local] Set Warnings "-clear-no-such-hyp".

(* ================================================================== *)
(** * Properties of the regular expressions *)
(* ================================================================== *)

Lemma lang_cat_inv r1 r2 w :
  Regex.lang (Regex.Cat r1 r2) w <->
  exists u v, w = u ++ v /\ Regex.lang r1 u /\ Regex.lang r2 v.
Proof.
  split.
  - inversion 1; subst; eauto.
  - intros (u & v & -> & Hu & Hv). by constructor.
Qed.

Lemma lang_alt_inv r1 r2 w :
  Regex.lang (Regex.Alt r1 r2) w <-> Regex.lang r1 w \/ Regex.lang r2 w.
Proof.
  split.
  - inversion 1; subst; auto.
  - intros [Hw | Hw]; [by apply Regex.lang_alt_l | by apply Regex.lang_alt_r].
Qed.

Lemma lang_empty_inv w : Regex.lang Regex.Empty w <-> w = [].
Proof. split; [by inversion 1 | intros ->; constructor]. Qed.

Lemma lang_never_inv w : Regex.lang Regex.Never w <-> False.
Proof. split; [inversion 1 | done]. Qed.

Lemma lang_class_inv p w :
  Regex.lang (Regex.Class p) w <-> exists c, w = [c] /\ p c = true.
Proof.
  split.
  - inversion 1; subst; eauto.
  - intros (c & -> & Hc). by constructor.
Qed.

(** A non-empty word of a starred pattern starts with a non-empty word
    of the pattern. *)
Lemma lang_star_cons_inv r c w :
  Regex.lang (Regex.Star r) (c :: w) ->
  exists u v, w = u ++ v /\ Regex.lang r (c :: u) /\ Regex.lang (Regex.Star r) v.
Proof.
  intros Hs. remember (Regex.Star r) as sr eqn:Hsr.
  remember (c :: w) as cw eqn:Hcw.
  revert w Hcw. induction Hs as [| | | | | |r' u v Hu _ Hv IHv]; intros w Hcw;
    try discriminate.
  injection Hsr as ->. destruct u as [|a u]; simpl in Hcw.
  - by apply IHv.
  - injection Hcw as <- <-. eauto.
Qed.

Lemma nullable_lang r : Regex.nullable r = true <-> Regex.lang r [].
Proof.
  induction r as [| |p|r1 IH1 r2 IH2|r1 IH1 r2 IH2|r IH]; simpl.
  - rewrite lang_never_inv. split; [discriminate | done].
  - rewrite lang_empty_inv. done.
  - rewrite lang_class_inv. split; [discriminate | by intros (c & ? & _)].
  - rewrite andb_true_iff, IH1, IH2, lang_cat_inv. split.
    + intros [H1 H2]. by exists [], [].
    + intros (u & v & Huv & Hu & Hv).
      symmetry in Huv. apply app_eq_nil in Huv as [-> ->]. done.
  - rewrite orb_true_iff, IH1, IH2, lang_alt_inv. done.
  - split; [intros _; constructor | done].
Qed.

Lemma deriv_lang c r w :
  Regex.lang (Regex.deriv c r) w <-> Regex.lang r (c :: w).
Proof.
  revert w.
  induction r as [| |p|r1 IH1 r2 IH2|r1 IH1 r2 IH2|r IH]; intros w; simpl.
  - rewrite !lang_never_inv. done.
  - rewrite lang_never_inv, lang_empty_inv. done.
  - rewrite lang_class_inv. destruct (p c) eqn:Hp.
    + rewrite lang_empty_inv. split.
      * intros ->. eauto.
      * by intros (c' & [= -> ->] & _).
    + rewrite lang_never_inv. split; [done |].
      intros (c' & [= -> ->] & Hc'). congruence.
  - assert (Hcat : Regex.lang (Regex.Cat (Regex.deriv c r1) r2) w <->
                   exists u v, w = u ++ v /\ Regex.lang r1 (c :: u) /\ Regex.lang r2 v).
    { rewrite lang_cat_inv. split; intros (u & v & ? & Hu & ?);
        exists u, v; by rewrite <-?IH1 in *|- *. }
    destruct (Regex.nullable r1) eqn:Hn.
    + rewrite lang_alt_inv, Hcat, IH2, lang_cat_inv. split.
      * intros [(u & v & -> & Hu & Hv) | Hw].
        -- by exists (c :: u), v.
        -- apply nullable_lang in Hn. by exists [], (c :: w).
      * intros (u & v & Huv & Hu & Hv). destruct u as [|a u]; simpl in Huv.
        -- right. by subst.
        -- injection Huv as <- ->. left. eauto.
    + rewrite Hcat, lang_cat_inv. split.
      * intros (u & v & -> & Hu & Hv). by exists (c :: u), v.
      * intros (u & v & Huv & Hu & Hv). destruct u as [|a u]; simpl in Huv.
        -- apply nullable_lang in Hu. congruence.
        -- injection Huv as <- ->. eauto.
  - rewrite !lang_alt_inv, IH1, IH2. done.
  - rewrite lang_cat_inv. split.
    + intros (u & v & -> & Hu & Hv). apply IH in Hu.
      by apply (Regex.lang_star_cons r (c :: u) v).
    + intros Hs. apply lang_star_cons_inv in Hs as (u & v & -> & Hu & Hv).
      exists u, v. by rewrite IH.
Qed.

(** The matcher decides the language. *)
Lemma matches_lang r w : Regex.matches r w = true <-> Regex.lang r w.
Proof.
  revert r. induction w as [|c w IH]; intros r; simpl.
  - apply nullable_lang.
  - by rewrite IH, deriv_lang.
Qed.

Lemma lang_star_inv r w :
  Regex.lang (Regex.Star r) w <->
  exists ws, Forall (Regex.lang r) ws /\ w = concat ws.
Proof.
  split.
  - intros Hs. remember (Regex.Star r) as sr eqn:Hsr.
    induction Hs as [| | | | | |r' u v Hu _ Hv IHv]; try discriminate.
    + by exists [].
    + injection Hsr as ->. destruct (IHv eq_refl) as (ws & Hws & ->).
      exists (u :: ws). by split; [constructor |].
  - intros (ws & Hws & ->). induction Hws as [|u ws Hu _ IH]; simpl.
    + constructor.
    + by constructor.
Qed.

Lemma lang_lit_inv c w : Regex.lang (Regex.Lit c) w <-> w = [c].
Proof.
  unfold Regex.Lit. rewrite lang_class_inv. split.
  - intros (c' & -> & Hc). by apply Ascii.eqb_eq in Hc as ->.
  - intros ->. exists c. by rewrite Ascii.eqb_refl.
Qed.

Lemma lang_opt_inv r w :
  Regex.lang (Regex.Opt r) w <-> w = [] \/ Regex.lang r w.
Proof. unfold Regex.Opt. rewrite lang_alt_inv, lang_empty_inv. tauto. Qed.

Lemma lang_star_class p w :
  Regex.lang (Regex.Star (Regex.Class p)) w <-> forallb p w = true.
Proof.
  rewrite lang_star_inv. split.
  - intros (ws & Hws & ->). induction Hws as [|u ws Hu _ IH]; [done |].
    apply lang_class_inv in Hu as (c & -> & Hc). simpl. by rewrite Hc.
  - induction w as [|c w IH]; simpl.
    + by exists [].
    + rewrite andb_true_iff. intros [Hc Hw].
      destruct (IH Hw) as (ws & Hws & ->). exists ([c] :: ws).
      split; [constructor; [by constructor | done] | done].
Qed.

Lemma lang_plus_class p w :
  Regex.lang (Regex.Plus (Regex.Class p)) w <-> w <> [] /\ forallb p w = true.
Proof.
  unfold Regex.Plus. rewrite lang_cat_inv. split.
  - intros (u & v & -> & Hu & Hv).
    apply lang_class_inv in Hu as (c & -> & Hc).
    apply lang_star_class in Hv. simpl. by rewrite Hc.
  - intros [Hne Hw]. destruct w as [|c w]; [done |]. simpl in Hw.
    apply andb_true_iff in Hw as [Hc Hw]. exists [c], w.
    split; [done |]. split; [by constructor | by apply lang_star_class].
Qed.

Lemma dotted_cons u segs :
  dotted (u :: segs) = u ++ concat (map (cons "."%char) segs).
Proof.
  revert u. induction segs as [|v segs IH]; intros u.
  - simpl. by rewrite app_nil_r.
  - change (dotted (u :: v :: segs)) with (u ++ "."%char :: dotted (v :: segs)).
    by rewrite IH.
Qed.

(** The tail of the pre-release group: any number of segments, each
    after a dot. *)
Lemma lang_star_segments w :
  Regex.lang
    (Regex.Star (Regex.Cat (Regex.Lit ".") (Regex.Plus (Regex.Class is_ident_char)))) w
  <-> exists segs, Forall segment segs /\ w = concat (map (cons "."%char) segs).
Proof.
  rewrite lang_star_inv. split.
  - intros (ws & Hws & ->). induction Hws as [|u ws Hu _ (segs & Hsegs & IH)].
    + by exists [].
    + apply lang_cat_inv in Hu as (d & v & -> & Hd & Hv).
      apply lang_lit_inv in Hd as ->. apply lang_plus_class in Hv.
      exists (v :: segs). split; [by constructor |]. simpl. by rewrite IH.
  - intros (segs & Hsegs & ->). induction Hsegs as [|v segs Hv _ (ws & Hws & IH)].
    + by exists [].
    + exists (("."%char :: v) :: ws). split; [| simpl; by rewrite IH].
      constructor; [| done]. apply lang_cat_inv. exists ["."%char], v.
      split; [done |]. split; [by apply lang_lit_inv | by apply lang_plus_class].
Qed.

(** The pattern of the script and the grammar of the specification
    describe the same strings. *)
Lemma SEMVER_grammar s : Regex.test SEMVER s = true <-> semver_grammar s.
Proof.
  unfold Regex.test, semver_grammar, SEMVER.
  rewrite matches_lang. set (w := list_ascii_of_string s). clearbody w.
  split.
  - intros Hw.
    apply lang_cat_inv in Hw as (major & w1 & -> & Hmajor & Hw).
    apply lang_cat_inv in Hw as (d1 & w2 & -> & Hd1 & Hw).
    apply lang_cat_inv in Hw as (minor & w3 & -> & Hminor & Hw).
    apply lang_cat_inv in Hw as (d2 & w4 & -> & Hd2 & Hw).
    apply lang_cat_inv in Hw as (patch & pre & -> & Hpatch & Hpre).
    apply lang_lit_inv in Hd1 as ->. apply lang_lit_inv in Hd2 as ->.
    apply lang_plus_class in Hmajor, Hminor, Hpatch.
    exists major, minor, patch, pre. repeat (split; [done |]). split; [| done].
    apply lang_opt_inv in Hpre as [-> | Hpre]; [by left | right].
    apply lang_cat_inv in Hpre as (h & w5 & -> & Hh & Hpre).
    apply lang_cat_inv in Hpre as (u & w6 & -> & Hu & Hsegs).
    apply lang_lit_inv in Hh as ->. apply lang_plus_class in Hu.
    apply lang_star_segments in Hsegs as (segs & Hsegs & ->).
    exists (u :: segs). split; [done |]. split; [by constructor |].
    by rewrite dotted_cons.
  - intros (major & minor & patch & pre & Hmajor & Hminor & Hpatch & Hpre & ->).
    apply lang_cat_inv. exists major, ("."%char :: minor ++ "."%char :: patch ++ pre).
    split; [done |]. split; [by apply lang_plus_class |].
    apply (Regex.lang_cat _ _ ["."%char]); [by apply lang_lit_inv |].
    apply lang_cat_inv. exists minor, ("."%char :: patch ++ pre).
    split; [done |]. split; [by apply lang_plus_class |].
    apply (Regex.lang_cat _ _ ["."%char]); [by apply lang_lit_inv |].
    apply lang_cat_inv. exists patch, pre.
    split; [done |]. split; [by apply lang_plus_class |].
    apply lang_opt_inv. destruct Hpre as [-> | (segs & Hne & Hsegs & ->)]; [by left |].
    right. destruct Hsegs as [|u segs Hu Hsegs]; [done |].
    rewrite dotted_cons.
    apply (Regex.lang_cat _ _ ["-"%char]); [by apply lang_lit_inv |].
    apply lang_cat_inv. exists u, (concat (map (cons "."%char) segs)).
    split; [done |]. split; [by apply lang_plus_class |].
    apply lang_star_segments. eauto.
Qed.

(* ================================================================== *)
(** * Properties of objects *)
(* ================================================================== *)

Lemma obj_has_keys ms k : obj_has ms k = true <-> k ∈ keys ms.
Proof.
  unfold obj_has. induction ms as [|[k' v] ms IH]; simpl.
  - split; [discriminate | by intros ?%elem_of_nil].
  - rewrite elem_of_cons. destruct (String.eqb_spec k' k) as [-> | Hne].
    + split; [by left | done].
    + rewrite IH. split; [by right | by intros [-> | ?]].
Qed.

Lemma obj_has_get ms k : obj_has ms k = true <-> is_Some (obj_get ms k).
Proof.
  unfold obj_has. destruct (obj_get ms k); split; try done.
Qed.

Lemma keys_obj_replace ms k v : keys (obj_replace ms k v) = keys ms.
Proof.
  induction ms as [|[k' v'] ms IH]; simpl; [done |].
  destruct (String.eqb k' k); simpl; by rewrite ?IH.
Qed.

Lemma obj_get_replace ms k v k' :
  obj_has ms k = true ->
  obj_get (obj_replace ms k v) k' =
    if String.eqb k k' then Some v else obj_get ms k'.
Proof.
  unfold obj_has. induction ms as [|[k0 v0] ms IH]; simpl; [done |].
  destruct (String.eqb_spec k0 k) as [-> | Hne]; simpl.
  - intros _. by destruct (String.eqb k k').
  - intros Hhas. destruct (String.eqb_spec k0 k') as [-> | Hne'].
    + by destruct (String.eqb_spec k k') as [-> | _].
    + by apply IH.
Qed.

Lemma obj_get_app ms1 ms2 k :
  obj_get (ms1 ++ ms2) k =
    match obj_get ms1 k with Some v => Some v | None => obj_get ms2 k end.
Proof.
  induction ms1 as [|[k0 v0] ms1 IH]; simpl; [done |].
  by destruct (String.eqb k0 k).
Qed.

Lemma obj_get_insert_index ms i k v k' :
  obj_has ms k = false ->
  obj_get (obj_insert_index ms i k v) k' =
    if String.eqb k k' then Some v else obj_get ms k'.
Proof.
  unfold obj_has. induction ms as [|[k0 v0] ms IH]; simpl; [done |].
  destruct (String.eqb_spec k0 k) as [-> | Hne]; [done |]. intros Hhas.
  destruct (array_index k0) as [i0|]; [destruct (i0 <? i)%N |]; simpl;
    try done.
  destruct (String.eqb_spec k0 k') as [-> | Hne'].
  - by destruct (String.eqb_spec k k') as [-> | _].
  - by apply IH.
Qed.

(** Reading after an assignment. *)
Lemma obj_get_set ms k v k' :
  obj_get (obj_set ms k v) k' =
    if String.eqb k k' then Some v else obj_get ms k'.
Proof.
  unfold obj_set. destruct (obj_has ms k) eqn:Hhas.
  - by apply obj_get_replace.
  - destruct (array_index k) as [i|].
    + by apply obj_get_insert_index.
    + rewrite obj_get_app. simpl. unfold obj_has in Hhas.
      destruct (String.eqb_spec k k') as [<- | Hne].
      * by destruct (obj_get ms k).
      * by destruct (obj_get ms k').
Qed.

(** An assignment to a key that exists keeps the keys where they are. *)
Lemma keys_obj_set_present ms k v :
  obj_has ms k = true -> keys (obj_set ms k v) = keys ms.
Proof. unfold obj_set. intros ->. apply keys_obj_replace. Qed.

(** A new key that is not an array index goes last. *)
Lemma keys_obj_set_absent ms k v :
  obj_has ms k = false -> array_index k = None ->
  keys (obj_set ms k v) = keys ms ++ [k].
Proof. unfold obj_set, keys. intros -> ->. by rewrite map_app. Qed.

Lemma keys_with_version ms version :
  keys (obj_set ms "version" (JStr version)) =
    keys ms ++ (if obj_has ms "version" then [] else ["version"]).
Proof.
  destruct (obj_has ms "version") eqn:Hhas.
  - rewrite app_nil_r. by apply keys_obj_set_present.
  - by apply keys_obj_set_absent.
Qed.

(** ** The loop over the keys of a dependency map *)

Lemma update_dependencies_fold version ks ms :
  (forall k, k ∈ ks -> obj_has ms k = true) ->
  let ms' :=
    fold_left
      (fun acc dep =>
         if startsWith dep PREFIX
         then obj_set acc dep (JStr ("~" +:+ version)) else acc) ks ms in
  keys ms' = keys ms /\
  forall k, obj_get ms' k =
    if startsWith k PREFIX && bool_decide (k ∈ ks)
    then Some (JStr ("~" +:+ version)) else obj_get ms k.
Proof.
  revert ms. induction ks as [|dep ks IH]; intros ms Hks; cbn [fold_left].
  - split; [done |]. intros k. rewrite bool_decide_eq_false_2 by apply not_elem_of_nil.
    by rewrite andb_false_r.
  - assert (Hdep : obj_has ms dep = true) by (apply Hks; left).
    set (ms1 := if startsWith dep PREFIX
                then obj_set ms dep (JStr ("~" +:+ version)) else ms).
    assert (Hkeys1 : keys ms1 = keys ms).
    { unfold ms1. destruct (startsWith dep PREFIX); [| done].
      by apply keys_obj_set_present. }
    destruct (IH ms1) as [Hkeys Hget].
    { intros k Hk. apply obj_has_keys. rewrite Hkeys1. apply obj_has_keys.
      apply Hks. by right. }
    split; [by rewrite Hkeys |]. intros k. rewrite Hget.
    destruct (startsWith k PREFIX) eqn:Hpre; simpl.
    + destruct (decide (k ∈ ks)) as [Hin | Hnin].
      * rewrite !bool_decide_eq_true_2; [done | by right | done].
      * rewrite (bool_decide_eq_false_2 (k ∈ ks)) by done.
        unfold ms1. destruct (decide (k = dep)) as [-> | Hne].
        -- rewrite Hpre, obj_get_set, String.eqb_refl.
           rewrite bool_decide_eq_true_2; [done | by left].
        -- rewrite bool_decide_eq_false_2 by (by intros [? | ?]%elem_of_cons).
           destruct (startsWith dep PREFIX); [| done].
           rewrite obj_get_set. by destruct (String.eqb_spec dep k).
    + unfold ms1. destruct (startsWith dep PREFIX) eqn:Hpre'; [| done].
      rewrite obj_get_set. destruct (String.eqb_spec dep k) as [-> | _]; [| done].
      congruence.
Qed.

(** The dependency map after the loop: the same keys at the same
    places, the range on the internal packages, the other values as
    they were. *)
Lemma update_dependencies_obj version ms :
  exists ms',
    update_dependencies version (JObj ms) = JObj ms' /\
    keys ms' = keys ms /\
    forall k, obj_get ms' k =
      if startsWith k PREFIX && obj_has ms k
      then Some (JStr ("~" +:+ version)) else obj_get ms k.
Proof.
  simpl. eexists. split; [done |].
  destruct (update_dependencies_fold version (keys ms) ms) as [Hkeys Hget].
  { intros k. apply obj_has_keys. }
  split; [done |]. intros k. rewrite Hget.
  destruct (obj_has ms k) eqn:Hhas.
  - rewrite bool_decide_eq_true_2; [done | by apply obj_has_keys].
  - rewrite bool_decide_eq_false_2; [done |].
    rewrite <-obj_has_keys. congruence.
Qed.

(** ** The three dependency fields of a manifest *)

Lemma update_depType_obj version ms depType :
  exists ms',
    update_depType version (JObj ms) depType = JObj ms' /\
    keys ms' = keys ms /\
    forall k, obj_get ms' k =
      if String.eqb depType k
      then update_dependencies version <$> obj_get ms k
      else obj_get ms k.
Proof.
  simpl. destruct (obj_get ms depType) as [deps|] eqn:Hdeps.
  - eexists. split; [done |]. split.
    + apply keys_obj_set_present. apply obj_has_get. by rewrite Hdeps.
    + intros k. rewrite obj_get_set.
      destruct (String.eqb_spec depType k) as [<- | _]; [| done].
      by rewrite Hdeps.
  - exists ms. split; [done |]. split; [done |]. intros k.
    destruct (String.eqb_spec depType k) as [<- | _]; [| done].
    by rewrite Hdeps.
Qed.

Lemma update_depTypes_obj version ds ms :
  NoDup ds ->
  exists ms',
    fold_left (update_depType version) ds (JObj ms) = JObj ms' /\
    keys ms' = keys ms /\
    forall k, obj_get ms' k =
      if bool_decide (k ∈ ds)
      then update_dependencies version <$> obj_get ms k
      else obj_get ms k.
Proof.
  intros Hds. revert ms.
  induction Hds as [|d ds Hd Hds IH]; intros ms; cbn [fold_left].
  - exists ms. split; [done |]. split; [done |]. intros k.
    by rewrite bool_decide_eq_false_2 by apply not_elem_of_nil.
  - destruct (update_depType_obj version ms d) as (ms1 & -> & Hkeys1 & Hget1).
    destruct (IH ms1) as (ms' & -> & Hkeys & Hget).
    exists ms'. split; [done |]. split; [congruence |]. intros k.
    rewrite Hget, Hget1. destruct (String.eqb_spec d k) as [<- | Hne].
    + rewrite (bool_decide_eq_false_2 (d ∈ ds)) by done.
      rewrite bool_decide_eq_true_2; [done | by left].
    + destruct (decide (k ∈ ds)) as [Hin | Hnin].
      * rewrite !bool_decide_eq_true_2; [done | by right | done].
      * rewrite !bool_decide_eq_false_2; [done | | done].
        by intros [-> | ?]%elem_of_cons.
Qed.

Lemma NoDup_depTypes : NoDup depTypes.
Proof. by apply (bool_decide_unpack _). Qed.

Lemma version_not_depType : "version" ∉ depTypes.
Proof. by apply (bool_decide_unpack _). Qed.

(** What [updatePackageJsonFile] makes of a manifest that is an object. *)
Lemma rewritten_obj version ms :
  exists ms',
    rewritten version (JObj ms) = Some (JObj ms') /\
    keys ms' = keys ms ++ (if obj_has ms "version" then [] else ["version"]) /\
    obj_get ms' "version" = Some (JStr version) /\
    (forall k, k ∈ depTypes ->
       obj_get ms' k = update_dependencies version <$> obj_get ms k) /\
    (forall k, k <> "version" -> k ∉ depTypes -> obj_get ms' k = obj_get ms k).
Proof.
  change (rewritten version (JObj ms)) with
    (Some (fold_left (update_depType version) depTypes
             (JObj (obj_set ms "version" (JStr version))))).
  destruct (update_depTypes_obj version depTypes
              (obj_set ms "version" (JStr version)) NoDup_depTypes)
    as (ms' & -> & Hkeys & Hget).
  exists ms'. split; [done |]. split; [by rewrite Hkeys, keys_with_version |].
  split; [| split].
  - rewrite Hget, bool_decide_eq_false_2, obj_get_set; [done |].
    apply version_not_depType.
  - intros k Hk. rewrite Hget, bool_decide_eq_true_2, obj_get_set by done.
    destruct (String.eqb_spec "version" k) as [<- | _]; [| done].
    by destruct version_not_depType.
  - intros k Hk Hdep. rewrite Hget, bool_decide_eq_false_2, obj_get_set by done.
    by destruct (String.eqb_spec "version" k) as [<- | _].
Qed.

(* ================================================================== *)
(** * Properties of the file system *)
(* ================================================================== *)

Lemma strip_dir_spec dir p rest :
  strip_dir dir p = Some rest <-> p = dir ++ rest.
Proof.
  revert p. induction dir as [|d dir IH]; intros p; simpl.
  - split; [by intros [= ->] | by intros ->].
  - destruct p as [|n p].
    + split; [discriminate | by intros ?].
    + destruct (String.eqb_spec d n) as [-> | Hne].
      * rewrite IH. split; [by intros -> | by intros [= ->]].
      * split; [discriminate | intros [= -> _]; done].
Qed.

Lemma child_name_spec dir entry name :
  child_name dir entry = Some name <-> fst entry = dir ++ [name].
Proof.
  unfold child_name. destruct (strip_dir dir (fst entry)) as [rest|] eqn:Hrest.
  - apply strip_dir_spec in Hrest as ->. destruct rest as [|n [|n' rest]].
    + split; [discriminate |]. rewrite app_nil_r. intros Heq.
      apply (f_equal length) in Heq. rewrite length_app in Heq. simpl in Heq. lia.
    + split; [by intros [= ->] | by intros [= ->]%app_inv_head].
    + split; [discriminate | by intros [=]%app_inv_head].
  - split; [discriminate |]. intros Heq.
    apply strip_dir_spec in Heq. congruence.
Qed.

Lemma NoDup_omap_inj {A B} (f : A -> option B) (l : list A) :
  (forall x y z, x ∈ l -> y ∈ l -> f x = Some z -> f y = Some z -> x = y) ->
  NoDup l -> NoDup (omap f l).
Proof.
  intros Hinj Hl. induction Hl as [|x l Hx Hl IH]; simpl; [constructor |].
  assert (IH' : NoDup (omap f l)).
  { apply IH. intros a b z Ha Hb. apply Hinj; by right. }
  destruct (f x) as [z|] eqn:Hfx; [| done].
  constructor; [| done]. intros (y & Hy & Hfy)%list_elem_of_omap.
  assert (x = y) as -> by (eapply Hinj; [by left | by right | done..]).
  done.
Qed.

(** The names listed for a directory are those of the paths right
    below it, each once. *)
Lemma elem_of_entries (files : gmap (list string) node) dir name :
  name ∈ entries files dir <-> is_Some (files !! (dir ++ [name])).
Proof.
  unfold entries. rewrite list_elem_of_omap. split.
  - intros ([p n] & Hin & Hname). apply child_name_spec in Hname.
    simpl in Hname. subst p. apply elem_of_map_to_list in Hin. eauto.
  - intros [n Hn]. exists (dir ++ [name], n). split.
    + by apply elem_of_map_to_list.
    + by apply child_name_spec.
Qed.

Lemma NoDup_entries (files : gmap (list string) node) dir :
  NoDup (entries files dir).
Proof.
  unfold entries. apply NoDup_omap_inj; [| apply NoDup_map_to_list].
  intros [p n] [p' n'] name Hin Hin' Hname Hname'.
  apply child_name_spec in Hname, Hname'. simpl in *. subst p p'.
  apply elem_of_map_to_list in Hin, Hin'. congruence.
Qed.

Lemma existsSync_true (files : gmap (list string) node) p :
  existsSync files p = true <-> is_Some (files !! p).
Proof.
  unfold existsSync. destruct (files !! p); split; done.
Qed.

Lemma findProjectRoot_from_found (files : gmap (list string) node) l root :
  findProjectRoot_from files l = Some root ->
  existsSync files (root ++ ["package.json"]) = true /\
  existsSync files (root ++ ["packages"]) = true.
Proof.
  induction l as [|n l IH]; [done |]. cbn [findProjectRoot_from].
  destruct (existsSync files (rev (n :: l) ++ ["package.json"])
            && existsSync files (rev (n :: l) ++ ["packages"])) eqn:Hfound.
  - intros [= <-]. by apply andb_true_iff in Hfound.
  - apply IH.
Qed.

(* ================================================================== *)
(** * Properties of the effects *)
(* ================================================================== *)

Lemma written_app new old : written (new ++ old) = written old ++ written new.
Proof. unfold written, writes. by rewrite rev_app_distr, omap_app. Qed.

Lemma commands_app new old : commands (new ++ old) = commands old ++ commands new.
Proof. unfold commands, execs. by rewrite rev_app_distr, omap_app. Qed.

Lemma stderr_app new old : stderr (new ++ old) = stderr old ++ stderr new.
Proof. unfold stderr, errs. by rewrite rev_app_distr, omap_app. Qed.

Lemma stdout_app new old : stdout (new ++ old) = stdout old ++ stdout new.
Proof. unfold stdout, outs. by rewrite rev_app_distr, omap_app. Qed.

(** The manifests the loop of [bump] goes through. *)
Lemma manifests_of_packages root (dirs : list string) :
  map (fun pkg : string * list string => snd pkg ++ ["package.json"])
      (map (fun pkg => (pkg, (root ++ ["packages"]) ++ [pkg])) dirs
       ++ [("bundle", root ++ ["bundle"])])
  = ((fun d => root ++ ["packages"; d; "package.json"]) <$> dirs)
    ++ [root ++ ["bundle"; "package.json"]].
Proof.
  rewrite map_app, map_map. cbn [map snd]. rewrite <-!app_assoc. f_equal.
  apply map_ext. intros d. cbn [snd]. by rewrite <-!app_assoc.
Qed.

Lemma NoDup_manifests root (dirs : list string) :
  NoDup dirs ->
  NoDup (((fun d => root ++ ["packages"; d; "package.json"]) <$> dirs)
         ++ [root ++ ["bundle"; "package.json"]]).
Proof.
  intros Hdirs. apply NoDup_app. split; [| split].
  - apply NoDup_fmap_2_strong; [| done].
    intros d d' _ _ Heq. apply app_inv_head in Heq. by injection Heq.
  - intros p (d & -> & _)%list_elem_of_fmap [=]%list_elem_of_singleton%app_inv_head.
  - apply NoDup_singleton.
Qed.

Section Runs.
Context {G : Type} `{Shell G}.

Lemma bind_run {A B} (m : action G A) (k : A -> action G B) w :
  (m ≫= k) w =
    match m w with
    | (Returned a, w') => k a w'
    | (Exited code, w') => (Exited code, w')
    | (Thrown msg, w') => (Thrown msg, w')
    end.
Proof. reflexivity. Qed.

(** One package: the manifest is replaced by its new text, or the
    statement throws and leaves everything as it was. *)
Lemma updatePackageJsonFile_run p name version (w : world G) :
  match files w !! p with
  | Some (File text) =>
      match package_text version text with
      | Some text' =>
          updatePackageJsonFile p name version w =
            (Returned tt,
             World (<[p := File text']> (files w)) (vcs w)
                   (Stdout ("Updated package " +:+ name) :: Write p text' :: trace w))
      | None => exists msg, updatePackageJsonFile p name version w = (Thrown msg, w)
      end
  | _ => exists msg, updatePackageJsonFile p name version w = (Thrown msg, w)
  end.
Proof.
  unfold updatePackageJsonFile. rewrite bind_run. unfold readFileSync.
  destruct (files w !! p) as [[text|]|] eqn:Hp; [| by eexists..].
  unfold package_text, parse. rewrite bind_run.
  destruct (JSON_parse text) as [doc|]; [| by eexists].
  cbn [mbind option_bind mret action_ret]. rewrite bind_run.
  destruct doc as [|b|n|s|xs|ms]; try (by eexists).
  - cbn [set_member mret action_ret rewritten with_version fmap option_fmap option_map].
    rewrite bind_run. unfold writeFileSync. rewrite Hp. reflexivity.
  - cbn [set_member mret action_ret rewritten with_version fmap option_fmap option_map].
    rewrite bind_run. unfold writeFileSync. rewrite Hp. reflexivity.
Qed.

(** The loop over the packages.  Whatever its outcome, it runs no
    command, prints no error and never exits; it writes, once each, to
    manifests of the packages that exist, the text written being the
    new text of the one that was there; and when it ends normally it
    has written to all of them. *)
Lemma forEach_packages version (pkgs : list (string * list string))
  (w : world G) o w' :
  NoDup (map (fun pkg => snd pkg ++ ["package.json"]) pkgs) ->
  forEach pkgs (fun '(name, dir) =>
    let packageFile := dir ++ ["package.json"] in
    files ← current_files;
    if existsSync files packageFile
    then updatePackageJsonFile packageFile name version
    else mret tt) w = (o, w') ->
  vcs w' = vcs w /\ (forall code, o <> Exited code) /\
  exists new,
    trace w' = new ++ trace w /\ commands new = [] /\ stderr new = [] /\
    NoDup (written new) /\
    (forall p, p ∉ written new -> files w' !! p = files w !! p) /\
    (forall p, p ∈ written new ->
       p ∈ map (fun pkg => snd pkg ++ ["package.json"]) pkgs /\
       exists text text',
         files w !! p = Some (File text) /\
         package_text version text = Some text' /\
         files w' !! p = Some (File text')) /\
    (o = Returned tt ->
     forall p, p ∈ map (fun pkg => snd pkg ++ ["package.json"]) pkgs ->
       existsSync (files w) p = true -> p ∈ written new).
Proof.
  revert w. induction pkgs as [|[name dir] pkgs IH]; intros w Hnodup Hrun.
  { injection Hrun as <- <-. split; [done |]. split; [done |].
    exists []. do 3 (split; [done |]). split; [constructor |].
    split; [done |]. split; [by intros p ?%elem_of_nil |].
    by intros _ p ?%elem_of_nil. }
  cbn [map snd] in Hnodup. apply NoDup_cons in Hnodup as [Hfresh Hnodup].
  cbn [forEach] in Hrun. rewrite !bind_run in Hrun.
  cbn [current_files] in Hrun.
  destruct (existsSync (files w) (dir ++ ["package.json"])) eqn:Hexists.
  - pose proof (updatePackageJsonFile_run (dir ++ ["package.json"]) name version w)
      as Hupdate.
    destruct (files w !! (dir ++ ["package.json"])) as [[text|]|] eqn:Hfile;
      [destruct (package_text version text) as [text'|] eqn:Htext | |].
    + rewrite Hupdate in Hrun.
      destruct (IH _ Hnodup Hrun)
        as (Hvcs & Hexit & new & Htrace & Hcmd & Herr & Hnd & Hframe & Hwrote & Hall).
      cbn [files vcs trace] in *.
      assert (Hnew : written (new ++ [Stdout ("Updated package " +:+ name);
                                      Write (dir ++ ["package.json"]) text'])
                     = (dir ++ ["package.json"]) :: written new).
      { by rewrite written_app. }
      assert (Hnotin : dir ++ ["package.json"] ∉ written new).
      { intros Hin. apply Hwrote in Hin as [Hin _]. by apply Hfresh, list_elem_of_In. }
      split; [done |]. split; [done |].
      exists (new ++ [Stdout ("Updated package " +:+ name);
                      Write (dir ++ ["package.json"]) text']).
      split; [by rewrite Htrace, <-app_assoc |].
      split; [by rewrite commands_app, Hcmd |].
      split; [by rewrite stderr_app, Herr |].
      rewrite Hnew. split; [by constructor |]. split; [| split].
      * intros p Hp. apply not_elem_of_cons in Hp as [Hne Hp].
        rewrite (Hframe p Hp). by apply lookup_insert_ne.
      * intros p [-> | Hp]%elem_of_cons.
        -- split; [by left |]. exists text, text'. split; [done |]. split; [done |].
           rewrite (Hframe _ Hnotin). apply lookup_insert_eq.
        -- destruct (Hwrote p Hp) as (Hin & t & t' & Ht & Ht' & Hw').
           split; [by right |]. exists t, t'. split; [| done].
           rewrite <-Ht. symmetry. apply lookup_insert_ne. by intros <-.
      * intros Ho p [-> | Hp]%elem_of_cons Hp'; [by left |]. right.
        apply (Hall Ho p Hp). apply existsSync_true. rewrite lookup_insert_ne.
        -- by apply existsSync_true.
        -- intros <-. by apply Hfresh, list_elem_of_In.
    + destruct Hupdate as [msg Hupdate]. rewrite Hupdate in Hrun.
      injection Hrun as <- <-. split; [done |]. split; [done |].
      exists []. do 3 (split; [done |]). split; [constructor |].
      split; [done |]. split; [by intros p ?%elem_of_nil | done].
    + destruct Hupdate as [msg Hupdate]. rewrite Hupdate in Hrun.
      injection Hrun as <- <-. split; [done |]. split; [done |].
      exists []. do 3 (split; [done |]). split; [constructor |].
      split; [done |]. split; [by intros p ?%elem_of_nil | done].
    + apply existsSync_true in Hexists. rewrite Hfile in Hexists.
      by destruct Hexists.
  - cbn [mret action_ret] in Hrun.
    destruct (IH _ Hnodup Hrun)
      as (Hvcs & Hexit & new & Htrace & Hcmd & Herr & Hnd & Hframe & Hwrote & Hall).
    split; [done |]. split; [done |]. exists new.
    repeat (split; [done |]). split.
    + intros p Hp. destruct (Hwrote p Hp) as [Hin Hrest]. split; [by right | done].
    + intros Ho p [-> | Hp]%elem_of_cons Hp'; [simpl in Hp'; congruence |].
      by apply Hall.
Qed.

(** The update of the root manifest. *)
Lemma root_update_run p version (w : world G) :
  let update : action G (option json) :=
    text ← readFileSync p;
    rootData ← parse text;
    oldVersion ← get_member rootData "version";
    rootData ← set_member rootData "version" (JStr version);
    writeFileSync p (JSON_stringify rootData +:+ nl);;
    console_log ("Updated root package.json to " +:+ version);;
    mret oldVersion in
  match files w !! p with
  | Some (File text) =>
      match root_text version text with
      | Some text' =>
          exists doc,
            JSON_parse text = Some doc /\
            update w =
              (Returned (member doc "version"),
               World (<[p := File text']> (files w)) (vcs w)
                     (Stdout ("Updated root package.json to " +:+ version)
                      :: Write p text' :: trace w))
      | None => exists msg, update w = (Thrown msg, w)
      end
  | _ => exists msg, update w = (Thrown msg, w)
  end.
Proof.
  intros update. unfold update. rewrite bind_run. unfold readFileSync.
  destruct (files w !! p) as [[text|]|] eqn:Hp; [| by eexists..].
  unfold root_text, parse. rewrite bind_run.
  destruct (JSON_parse text) as [doc|]; [| by eexists].
  cbn [mbind option_bind mret action_ret]. rewrite bind_run.
  destruct doc as [|b|n|s|xs|ms]; try (by eexists).
  - cbn [get_member set_member with_version mbind option_bind].
    eexists. split; [done |].
    cbv [mbind action_bind mret action_ret writeFileSync console_log emit].
    cbn [files vcs trace]. by rewrite Hp.
  - cbn [get_member set_member with_version mbind option_bind].
    eexists. split; [done |].
    cbv [mbind action_bind mret action_ret writeFileSync console_log emit].
    cbn [files vcs trace]. by rewrite Hp.
Qed.

(** The root manifest exists wherever a project root was found, and
    writing to it changes neither what exists nor what is a directory. *)
Lemma existsSync_insert_file (files : gmap (list string) node) p text q :
  existsSync files p = true ->
  existsSync (<[p := File text]> files) q = existsSync files q.
Proof.
  intros Hp. unfold existsSync in *. destruct (decide (p = q)) as [<- | Hne].
  - rewrite lookup_insert_eq. by destruct (files !! p).
  - by rewrite lookup_insert_ne.
Qed.

Lemma isDirectory_insert_file (files : gmap (list string) node) p text text0 q :
  files !! p = Some (File text0) ->
  isDirectory (<[p := File text]> files) q = isDirectory files q.
Proof.
  intros Hp. unfold isDirectory. destruct (decide (p = q)) as [<- | Hne].
  - by rewrite lookup_insert_eq, Hp.
  - by rewrite lookup_insert_ne.
Qed.

Lemma elem_of_entries_insert_file (files : gmap (list string) node) p text dir name :
  existsSync files p = true ->
  name ∈ entries (<[p := File text]> files) dir <-> name ∈ entries files dir.
Proof.
  intros Hp. rewrite !elem_of_entries, <-!existsSync_true.
  by rewrite existsSync_insert_file.
Qed.

(** A run of [bump] that ends normally, step by step. *)
Lemma bump_returned dirname version (w w' : world G) :
  bump dirname version w = (Returned tt, w') ->
  exists root status g1 listed g2 text text' doc old loop output g3 g4 g5,
    findProjectRoot_from (files w) (rev dirname) = Some root /\
    run_command STATUS (files w) (vcs w) = (Ok status, g1) /\
    trim_is_empty status = true /\
    run_command ("git tag -l " +:+ "v" +:+ version) (files w) g1 = (Ok listed, g2) /\
    trim_is_empty listed = true /\
    files w !! (root ++ ["package.json"]) = Some (File text) /\
    JSON_parse text = Some doc /\
    root_text version text = Some text' /\
    template_string_opt (member doc "version") = Some old /\
    run_command ADD (files w') g2 = (Ok output, g3) /\
    (exists out, run_command (commit_command old version) (files w') g3 = (Ok out, g4)) /\
    (exists out, run_command ("git tag " +:+ "v" +:+ version) (files w') g4 = (Ok out, g5)) /\
    vcs w' = g5 /\
    trace w' =
      [Stdout (nl +:+ "Successfully updated all packages from " +:+ old
               +:+ " to " +:+ version);
       Stdout ("Created git tag " +:+ "v" +:+ version);
       Exec ("git tag " +:+ "v" +:+ version);
       Stdout "Committed changes on affected files";
       Exec (commit_command old version);
       Exec ADD]
      ++ loop
      ++ [Stdout ("Updated root package.json to " +:+ version);
          Write (root ++ ["package.json"]) text';
          Exec ("git tag -l " +:+ "v" +:+ version);
          Exec STATUS]
      ++ trace w /\
    commands loop = [] /\ stderr loop = [] /\ NoDup (written loop) /\
    (forall p, p ∈ written loop <-> is_package_manifest (files w) root p) /\
    (forall p, p ∈ written loop ->
       exists text text',
         files w !! p = Some (File text) /\
         package_text version text = Some text' /\
         files w' !! p = Some (File text')) /\
    files w' !! (root ++ ["package.json"]) = Some (File text') /\
    (forall p, p <> root ++ ["package.json"] -> p ∉ written loop ->
       files w' !! p = files w !! p).
Proof.
  unfold bump. intros Hrun.
  rewrite bind_run in Hrun. unfold findProjectRoot at 1 in Hrun.
  rewrite bind_run in Hrun. cbn [current_files] in Hrun.
  destruct (findProjectRoot_from (files w) (rev dirname)) as [root|] eqn:Hroot;
    [| discriminate].
  cbn [mret action_ret] in Hrun.
  destruct (findProjectRoot_from_found _ _ _ Hroot) as [Hmanifest Hpackages].
  (* the work tree *)
  rewrite bind_run in Hrun. unfold execSync at 1 in Hrun.
  destruct (run_command STATUS (files w) (vcs w)) as [[status|msg] g1] eqn:Hstatus;
    [| discriminate].
  rewrite bind_run in Hrun.
  destruct (trim_is_empty status) eqn:Hclean; [| discriminate].
  cbn [negb when mret action_ret files vcs trace] in Hrun.
  (* the tag *)
  rewrite bind_run in Hrun. unfold execSync at 1 in Hrun.
  cbn [files vcs trace] in Hrun.
  destruct (run_command ("git tag -l " +:+ "v" +:+ version) (files w) g1)
    as [[listed|msg] g2] eqn:Hlisted; [| discriminate].
  rewrite bind_run in Hrun.
  destruct (trim_is_empty listed) eqn:Hfree; [| discriminate].
  cbn [negb when mret action_ret files vcs trace] in Hrun.
  (* the root manifest *)
  rewrite bind_run in Hrun. cbn [current_files files] in Hrun.
  rewrite Hmanifest in Hrun. rewrite bind_run in Hrun.
  pose proof (root_update_run (root ++ ["package.json"]) version
                (World (files w) g2
                   (Exec ("git tag -l " +:+ "v" +:+ version) :: Exec STATUS :: trace w)))
    as Hupdate.
  cbv zeta in Hupdate. cbn [files vcs trace] in Hupdate.
  destruct (files w !! (root ++ ["package.json"])) as [[text|]|] eqn:Htext;
    [destruct (root_text version text) as [text'|] eqn:Hroot_text | |];
    [destruct Hupdate as (doc & Hdoc & Hupdate) | destruct Hupdate as [msg Hupdate]..];
    rewrite Hupdate in Hrun; [| discriminate..].
  (* the packages *)
  rewrite bind_run in Hrun. unfold readdirSync at 1 in Hrun.
  cbn [files vcs trace] in Hrun.
  rewrite lookup_insert_ne in Hrun by (by intros [=]%app_inv_head).
  destruct (files w !! (root ++ ["packages"])) as [[?|]|] eqn:Hdir;
    [discriminate | | discriminate].
  rewrite bind_run in Hrun. cbn [current_files files] in Hrun.
  rewrite bind_run in Hrun.
  match type of Hrun with
  | context [forEach ?l ?f ?w0] => destruct (forEach l f w0) as [o1 w1] eqn:Hloop
  end.
  set (files1 := <[root ++ ["package.json"] := File text']> (files w)) in *.
  apply forEach_packages in Hloop
    as (Hvcs & Hexit & loop & Htrace & Hcmd & Herr & Hnd & Hframe & Hwrote & Hall).
  2:{ rewrite manifests_of_packages. apply NoDup_manifests.
      apply NoDup_filter, NoDup_entries. }
  rewrite manifests_of_packages in Hwrote, Hall. cbn [files vcs trace] in *.
  destruct o1 as [[]|code|msg]; [| by destruct (Hexit code) | discriminate].
  specialize (Hall eq_refl).
  (* the commit and the tag *)
  rewrite bind_run in Hrun. unfold execSync at 1 in Hrun.
  destruct (run_command ADD (files w1) (vcs w1)) as [[output|msg] g3] eqn:Hadd;
    [| discriminate].
  rewrite bind_run in Hrun. unfold template at 1 in Hrun.
  destruct (template_string_opt (member doc "version")) as [old|] eqn:Hold;
    [| discriminate].
  cbn [mret action_ret] in Hrun.
  rewrite bind_run in Hrun. unfold execSync at 1 in Hrun.
  cbn [files vcs trace] in Hrun.
  destruct (run_command (commit_command old version) (files w1) g3)
    as [[out4|msg] g4] eqn:Hcommit; [| discriminate].
  rewrite bind_run in Hrun. cbn [console_log emit files vcs trace] in Hrun.
  rewrite bind_run in Hrun. unfold execSync at 1 in Hrun.
  cbn [files vcs trace] in Hrun.
  destruct (run_command ("git tag " +:+ "v" +:+ version) (files w1) g4)
    as [[out5|msg] g5] eqn:Htag; [| discriminate].
  rewrite !bind_run in Hrun. cbn [console_log emit files vcs trace] in Hrun.
  injection Hrun as <-. cbn [files vcs trace].
  rewrite Hvcs in Hadd.
  assert (Hother : forall p,
    p ∈ ((fun d => root ++ ["packages"; d; "package.json"]) <$>
         filter (fun dir => isDirectory files1 ((root ++ ["packages"]) ++ [dir]))
                (entries files1 (root ++ ["packages"])))
        ++ [root ++ ["bundle"; "package.json"]] ->
    root ++ ["package.json"] <> p).
  { intros p [(d & -> & _)%list_elem_of_fmap | ->%list_elem_of_singleton]%elem_of_app;
      by intros [=]%app_inv_head. }
  assert (Hisdir : forall d,
    isDirectory files1 ((root ++ ["packages"]) ++ [d])
    = isDirectory (files w) (root ++ ["packages"; d])).
  { intros d. rewrite <-app_assoc. by apply isDirectory_insert_file with text. }
  exists root, status, g1, listed, g2, text, text', doc, old, loop, output, g3, g4, g5.
  do 10 (split; [done |]). split; [by eexists |]. split; [by eexists |].
  split; [done |]. split; [by rewrite Htrace |]. do 3 (split; [done |]).
  split; [| split; [| split]].
  - intros p. split.
    + intros Hp. destruct (Hwrote p Hp) as (Hin & t & t' & Ht & _).
      assert (Hex : existsSync (files w) p = true).
      { apply existsSync_true. unfold files1 in Ht.
        rewrite lookup_insert_ne in Ht by by apply Hother. by rewrite Ht. }
      apply elem_of_app in Hin as [(d & -> & Hd)%list_elem_of_fmap | ->%list_elem_of_singleton].
      * apply list_elem_of_filter in Hd as [Hd _]. apply Is_true_true in Hd.
        rewrite Hisdir in Hd. left. by exists d.
      * by right.
    + intros [(d & -> & Hd & Hex) | [-> Hex]]; apply Hall.
      * apply elem_of_app. left. apply list_elem_of_fmap. exists d. split; [done |].
        apply list_elem_of_filter. split; [apply Is_true_true; by rewrite Hisdir |].
        apply elem_of_entries_insert_file; [done |]. apply elem_of_entries.
        rewrite <-app_assoc. unfold isDirectory in Hd. cbn [app].
        by destruct (files w !! (root ++ ["packages"; d])).
      * unfold files1. by rewrite existsSync_insert_file.
      * apply elem_of_app. right. by apply list_elem_of_singleton.
      * unfold files1. by rewrite existsSync_insert_file.
  - intros p Hp. destruct (Hwrote p Hp) as (Hin & t & t' & Ht & Ht' & Hw1).
    exists t, t'. split; [| done]. unfold files1 in Ht.
    by rewrite lookup_insert_ne in Ht by by apply Hother.
  - rewrite Hframe.
    + apply lookup_insert_eq.
    + intros Hp. apply Hwrote in Hp as [Hin _]. by apply Hother in Hin.
  - intros p Hne Hp. rewrite (Hframe p Hp). by apply lookup_insert_ne.
Qed.

(** ** Actions that exit with code 1 only *)

Lemma tame_ret {A} (a : A) : tame (mret a : action G A).
Proof. intros w o w' [= <- <-]. split; [done | by exists []]. Qed.

Lemma tame_bind {A B} (m : action G A) (k : A -> action G B) :
  tame m -> (forall a, tame (k a)) -> tame (m ≫= k).
Proof.
  intros Hm Hk w o w' Hrun. rewrite bind_run in Hrun.
  destruct (m w) as [[a|code|msg] w1] eqn:Hmw;
    destruct (Hm _ _ _ Hmw) as [Hcode [new1 Hnew1]].
  - destruct (Hk a _ _ _ Hrun) as [Hcode' [new Hnew]]. split; [done |].
    exists (new ++ new1). by rewrite Hnew, Hnew1, app_assoc.
  - injection Hrun as <- <-. split; [| by eexists].
    intros c [= <-]. by apply Hcode.
  - injection Hrun as <- <-. split; [done | by eexists].
Qed.

Lemma tame_throw {A} msg : tame (throw msg : action G A).
Proof. intros w o w' [= <- <-]. split; [done | by exists []]. Qed.

Lemma tame_exit_1 {A} : tame (process_exit 1 : action G A).
Proof. intros w o w' [= <- <-]. split; [by intros c [= <-] | by exists []]. Qed.

Lemma tame_emit e : tame (emit e : action G unit).
Proof. intros w o w' [= <- <-]. split; [done | by exists [e]]. Qed.

Lemma tame_when b (m : action G unit) : tame m -> tame (when b m).
Proof. intros Hm. destruct b; [done | apply tame_ret]. Qed.

Lemma tame_current_files : tame (current_files : action G _).
Proof. intros w o w' [= <- <-]. split; [done | by exists []]. Qed.

Lemma tame_readFileSync p : tame (readFileSync p : action G _).
Proof.
  intros w o w'. unfold readFileSync.
  destruct (files w !! p) as [[?|]|]; intros [= <- <-];
    (split; [done | by exists []]).
Qed.

Lemma tame_writeFileSync p text : tame (writeFileSync p text : action G _).
Proof.
  intros w o w'. unfold writeFileSync.
  destruct (files w !! p) as [[?|]|]; intros [= <- <-];
    (split; [done |]); first [by exists [Write p text] | by exists []].
Qed.

Lemma tame_readdirSync dir : tame (readdirSync dir : action G _).
Proof.
  intros w o w'. unfold readdirSync.
  destruct (files w !! dir) as [[?|]|]; intros [= <- <-];
    (split; [done | by exists []]).
Qed.

Lemma tame_execSync command : tame (execSync command).
Proof.
  intros w o w'. unfold execSync.
  destruct (run_command command (files w) (vcs w)) as [[out|msg] g'];
    intros [= <- <-]; (split; [done | by exists [Exec command]]).
Qed.

Lemma tame_parse text : tame (parse text : action G _).
Proof. unfold parse. destruct (JSON_parse text); [apply tame_ret | apply tame_throw]. Qed.

Lemma tame_get_member doc k : tame (get_member doc k : action G _).
Proof. destruct doc; first [apply tame_ret | apply tame_throw]. Qed.

Lemma tame_set_member doc k v : tame (set_member doc k v : action G _).
Proof. destruct doc; first [apply tame_ret | apply tame_throw]. Qed.

Lemma tame_template v : tame (template v : action G _).
Proof.
  unfold template. destruct (template_string_opt v); [apply tame_ret | apply tame_throw].
Qed.

Lemma tame_forEach {A} (xs : list A) (f : A -> action G unit) :
  (forall x, tame (f x)) -> tame (forEach xs f).
Proof.
  intros Hf. induction xs as [|x xs IH]; cbn [forEach].
  - apply tame_ret.
  - apply tame_bind; [apply Hf | by intros _].
Qed.

Lemma tame_try_catch {A} (body : action G A) handler :
  tame body -> (forall msg, tame (handler msg)) -> tame (try_catch body handler).
Proof.
  intros Hbody Hhandler w o w'. unfold try_catch.
  destruct (body w) as [[a|code|msg] w1] eqn:Hbw;
    destruct (Hbody _ _ _ Hbw) as [Hcode [new1 Hnew1]].
  - intros [= <- <-]. split; [done | by eexists].
  - intros [= <- <-]. split; [done | by eexists].
  - intros Hrun. destruct (Hhandler msg _ _ _ Hrun) as [Hcode' [new Hnew]].
    split; [done |]. exists (new ++ new1). by rewrite Hnew, Hnew1, app_assoc.
Qed.

End Runs.

Create HintDb tame discriminated.
#[global] Hint Resolve tame_ret tame_throw tame_exit_1 tame_emit tame_when
  tame_current_files tame_readFileSync tame_writeFileSync tame_readdirSync
  tame_execSync tame_parse tame_get_member tame_set_member tame_template
  tame_forEach tame_try_catch : tame.

(** Goes through the statements of an action one by one. *)
Ltac tame_steps :=
  repeat first
    [ progress intros
    | apply tame_bind
    | apply tame_when
    | apply tame_forEach
    | apply tame_try_catch
    | solve [unfold console_log, console_error; auto with tame]
    | match goal with
      | |- tame (if ?b then _ else _) => destruct b
      | |- tame (match ?x with _ => _ end) => destruct x
      | |- tame (let _ := _ in _) => cbv zeta
      end ].

Section Tame.
Context {G : Type} `{Shell G}.

Lemma tame_findProjectRoot dirname :
  tame (findProjectRoot dirname : action G _).
Proof. unfold findProjectRoot. tame_steps. Qed.

Lemma tame_updatePackageJsonFile p name version :
  tame (updatePackageJsonFile p name version : action G _).
Proof. unfold updatePackageJsonFile. tame_steps. Qed.

Lemma tame_bump dirname version : tame (bump dirname version).
Proof.
  unfold bump. pose proof tame_findProjectRoot. pose proof tame_updatePackageJsonFile.
  tame_steps.
Qed.

Lemma tame_report message : tame (report message : action G unit).
Proof. unfold report. tame_steps. Qed.

End Tame.

#[global] Hint Resolve tame_findProjectRoot tame_updatePackageJsonFile
  tame_bump tame_report : tame.

(* ================================================================== *)
(** * Actions that write no file *)
(* ================================================================== *)

Section Silent.
Context {G : Type} `{Shell G}.

Lemma silent_ret {A} (a : A) : silent (mret a : action G A).
Proof. intros w o w' [= <- <-]. split; [done | by exists []]. Qed.

Lemma silent_bind {A B} (m : action G A) (k : A -> action G B) :
  silent m -> (forall a, silent (k a)) -> silent (m ≫= k).
Proof.
  intros Hm Hk w o w' Hrun. rewrite bind_run in Hrun.
  destruct (m w) as [[a|code|msg] w1] eqn:Hmw;
    destruct (Hm _ _ _ Hmw) as (Hfiles1 & new1 & Hnew1 & Hw1).
  - destruct (Hk a _ _ _ Hrun) as (Hfiles & new & Hnew & Hw).
    split; [congruence |]. exists (new ++ new1).
    split; [by rewrite Hnew, Hnew1, app_assoc |].
    by rewrite written_app, Hw, Hw1.
  - injection Hrun as <- <-. split; [done | by exists new1].
  - injection Hrun as <- <-. split; [done | by exists new1].
Qed.

Lemma silent_throw {A} msg : silent (throw msg : action G A).
Proof. intros w o w' [= <- <-]. split; [done | by exists []]. Qed.

Lemma silent_exit {A} code : silent (process_exit code : action G A).
Proof. intros w o w' [= <- <-]. split; [done | by exists []]. Qed.

Lemma silent_console_log text : silent (console_log text : action G unit).
Proof. intros w o w' [= <- <-]. split; [done | by exists [Stdout text]]. Qed.

Lemma silent_console_error text : silent (console_error text : action G unit).
Proof. intros w o w' [= <- <-]. split; [done | by exists [Stderr text]]. Qed.

Lemma silent_when b (m : action G unit) : silent m -> silent (when b m).
Proof. intros Hm. destruct b; [done | apply silent_ret]. Qed.

Lemma silent_execSync command : silent (execSync command).
Proof.
  intros w o w'. unfold execSync.
  destruct (run_command command (files w) (vcs w)) as [[out|msg] g'];
    intros [= <- <-]; (split; [done | by exists [Exec command]]).
Qed.

Lemma silent_template v : silent (template v : action G _).
Proof.
  unfold template. destruct (template_string_opt v); [apply silent_ret | apply silent_throw].
Qed.

End Silent.

Create HintDb silent discriminated.
#[global] Hint Resolve silent_ret silent_throw silent_exit silent_console_log
  silent_console_error silent_when silent_execSync silent_template : silent.

Ltac silent_steps :=
  repeat first
    [ progress intros
    | apply silent_bind
    | apply silent_when
    | solve [auto with silent] ].

(* ================================================================== *)
(** * The files a run can write *)
(* ================================================================== *)

Section Writes.
Context {G : Type} `{Shell G}.

(** A manifest the loop went through, seen from the files as they were
    before the root manifest was written. *)
Lemma listed_manifest (disk : gmap (list string) node) root text text' p t :
  disk !! (root ++ ["package.json"]) = Some (File text) ->
  p ∈ ((fun d => root ++ ["packages"; d; "package.json"]) <$>
       filter (fun dir => isDirectory (<[root ++ ["package.json"] := File text']> disk)
                            ((root ++ ["packages"]) ++ [dir]))
              (entries (<[root ++ ["package.json"] := File text']> disk)
                       (root ++ ["packages"])))
      ++ [root ++ ["bundle"; "package.json"]] ->
  <[root ++ ["package.json"] := File text']> disk !! p = Some (File t) ->
  p <> root ++ ["package.json"] /\ disk !! p = Some (File t) /\
  is_package_manifest disk root p.
Proof.
  intros Htext Hin Hp.
  assert (Hne : root ++ ["package.json"] <> p).
  { apply elem_of_app in Hin
      as [(d & -> & _)%list_elem_of_fmap | ->%list_elem_of_singleton];
      by intros [=]%app_inv_head. }
  rewrite lookup_insert_ne in Hp by done.
  split; [done |]. split; [done |].
  assert (Hex : existsSync disk p = true) by (apply existsSync_true; by rewrite Hp).
  apply elem_of_app in Hin
    as [(d & -> & Hd)%list_elem_of_fmap | ->%list_elem_of_singleton]; [| by right].
  apply list_elem_of_filter in Hd as [Hd _]. apply Is_true_true in Hd.
  rewrite <-app_assoc in Hd. rewrite (isDirectory_insert_file _ _ _ text) in Hd by done.
  left. by exists d.
Qed.

(** Whatever its outcome, [bump] writes to manifests only, to each at
    most once, and leaves the other files as they were. *)
Lemma bump_writes dirname version (w : world G) o w' :
  bump dirname version w = (o, w') ->
  exists new,
    trace w' = new ++ trace w /\ NoDup (written new) /\
    (forall p, p ∈ written new ->
       exists root,
         findProjectRoot_from (files w) (rev dirname) = Some root /\
         (p = root ++ ["package.json"] \/ is_package_manifest (files w) root p)) /\
    (forall p, p ∉ written new -> files w' !! p = files w !! p).
Proof.
  assert (Hquiet : forall (w1 : world G),
    files w1 = files w ->
    (exists new, trace w1 = new ++ trace w /\ written new = []) ->
    exists new,
      trace w1 = new ++ trace w /\ NoDup (written new) /\
      (forall p, p ∈ written new ->
         exists root,
           findProjectRoot_from (files w) (rev dirname) = Some root /\
           (p = root ++ ["package.json"] \/ is_package_manifest (files w) root p)) /\
      (forall p, p ∉ written new -> files w1 !! p = files w !! p)).
  { intros w1 Hfiles (new & Hnew & Hnone). exists new. rewrite Hnone, Hfiles.
    split; [done |]. split; [constructor |]. split; [| done].
    by intros p ?%elem_of_nil. }
  unfold bump. intros Hrun.
  rewrite bind_run in Hrun. unfold findProjectRoot at 1 in Hrun.
  rewrite bind_run in Hrun. cbn [current_files] in Hrun.
  destruct (findProjectRoot_from (files w) (rev dirname)) as [root|] eqn:Hroot.
  2:{ injection Hrun as <- <-. apply Hquiet; [done | by exists []]. }
  cbn [mret action_ret] in Hrun.
  destruct (findProjectRoot_from_found _ _ _ Hroot) as [Hmanifest Hpackages].
  rewrite bind_run in Hrun. unfold execSync at 1 in Hrun.
  destruct (run_command STATUS (files w) (vcs w)) as [[status|msg] g1] eqn:Hstatus.
  2:{ injection Hrun as <- <-. apply Hquiet; [done | by eexists [_]]. }
  rewrite bind_run in Hrun.
  destruct (trim_is_empty status) eqn:Hclean.
  2:{ injection Hrun as <- <-. apply Hquiet; [done | by eexists [_; _; _]]. }
  cbn [negb when mret action_ret files vcs trace] in Hrun.
  rewrite bind_run in Hrun. unfold execSync at 1 in Hrun.
  cbn [files vcs trace] in Hrun.
  destruct (run_command ("git tag -l " +:+ "v" +:+ version) (files w) g1)
    as [[listed|msg] g2] eqn:Hlisted.
  2:{ injection Hrun as <- <-. apply Hquiet; [done | by eexists [_; _]]. }
  rewrite bind_run in Hrun.
  destruct (trim_is_empty listed) eqn:Hfree.
  2:{ injection Hrun as <- <-. apply Hquiet; [done | by eexists [_; _; _]]. }
  cbn [negb when mret action_ret files vcs trace] in Hrun.
  rewrite bind_run in Hrun. cbn [current_files files] in Hrun.
  rewrite Hmanifest in Hrun. rewrite bind_run in Hrun.
  pose proof (root_update_run (root ++ ["package.json"]) version
                (World (files w) g2
                   (Exec ("git tag -l " +:+ "v" +:+ version) :: Exec STATUS :: trace w)))
    as Hupdate.
  cbv zeta in Hupdate. cbn [files vcs trace] in Hupdate.
  destruct (files w !! (root ++ ["package.json"])) as [[text|]|] eqn:Htext;
    [destruct (root_text version text) as [text'|] eqn:Hroot_text | |];
    [destruct Hupdate as (doc & Hdoc & Hupdate) | destruct Hupdate as [msg Hupdate]..];
    rewrite Hupdate in Hrun.
  2,3,4: injection Hrun as <- <-; apply Hquiet; [done | by eexists [_; _]].
  set (files1 := <[root ++ ["package.json"] := File text']> (files w)) in *.
  assert (Hroot_only : forall (w1 : world G) later,
    files w1 = files1 ->
    trace w1 =
      later ++ [Stdout ("Updated root package.json to " +:+ version);
                Write (root ++ ["package.json"]) text';
                Exec ("git tag -l " +:+ "v" +:+ version); Exec STATUS] ++ trace w ->
    written later = [] ->
    exists new,
      trace w1 = new ++ trace w /\ NoDup (written new) /\
      (forall p, p ∈ written new ->
         exists root0,
           Some root = Some root0 /\
           (p = root0 ++ ["package.json"] \/ is_package_manifest (files w) root0 p)) /\
      (forall p, p ∉ written new -> files w1 !! p = files w !! p)).
  { intros w1 later Hfiles Htrace Hlater.
    exists (later ++ [Stdout ("Updated root package.json to " +:+ version);
                      Write (root ++ ["package.json"]) text';
                      Exec ("git tag -l " +:+ "v" +:+ version); Exec STATUS]).
    split; [by rewrite Htrace, <-app_assoc |].
    rewrite written_app, Hlater, app_nil_r, Hfiles.
    change (written [_; _; _; _]) with [root ++ ["package.json"]].
    split; [apply NoDup_singleton |]. split.
    - intros p ->%list_elem_of_singleton. exists root. split; [done | by left].
    - intros p [Hp _]%not_elem_of_cons. unfold files1. apply lookup_insert_ne. by intros <-. }
  rewrite bind_run in Hrun. unfold readdirSync at 1 in Hrun.
  cbn [files vcs trace] in Hrun. unfold files1 in Hrun at 1.
  rewrite lookup_insert_ne in Hrun by (by intros [=]%app_inv_head).
  destruct (files w !! (root ++ ["packages"])) as [[?|]|] eqn:Hdir.
  1,3: injection Hrun as <- <-; by apply (Hroot_only _ []).
  rewrite bind_run in Hrun. cbn [current_files files] in Hrun.
  rewrite bind_run in Hrun.
  match type of Hrun with
  | context [forEach ?l ?f ?w0] => destruct (forEach l f w0) as [o1 w1] eqn:Hloop
  end.
  apply forEach_packages in Hloop
    as (Hvcs & Hexit & loop & Htrace & Hcmd & Herr & Hnd & Hframe & Hwrote & _).
  2:{ rewrite manifests_of_packages. apply NoDup_manifests.
      apply NoDup_filter, NoDup_entries. }
  rewrite manifests_of_packages in Hwrote. cbn [files vcs trace] in *.
  assert (Hafter : forall (w2 : world G) later,
    files w2 = files w1 -> trace w2 = later ++ trace w1 -> written later = [] ->
    exists new,
      trace w2 = new ++ trace w /\ NoDup (written new) /\
      (forall p, p ∈ written new ->
         exists root0,
           Some root = Some root0 /\
           (p = root0 ++ ["package.json"] \/ is_package_manifest (files w) root0 p)) /\
      (forall p, p ∉ written new -> files w2 !! p = files w !! p)).
  { intros w2 later Hfiles Hlater Hnone.
    exists (later ++ loop ++ [Stdout ("Updated root package.json to " +:+ version);
                              Write (root ++ ["package.json"]) text';
                              Exec ("git tag -l " +:+ "v" +:+ version); Exec STATUS]).
    split; [by rewrite Hlater, Htrace, <-!app_assoc |].
    rewrite !written_app, Hnone, app_nil_r, Hfiles.
    change (written [_; _; _; _]) with [root ++ ["package.json"]].
    assert (Hlisted' : forall p, p ∈ written loop ->
      p <> root ++ ["package.json"] /\ is_package_manifest (files w) root p).
    { intros p Hp. destruct (Hwrote p Hp) as (Hin & t & t' & Ht & _).
      destruct (listed_manifest _ _ _ _ _ _ Htext Hin Ht) as (? & _ & ?). done. }
    split; [| split].
    - apply NoDup_app. split; [apply NoDup_singleton |]. split; [| done].
      intros p ->%list_elem_of_singleton Hp. by apply Hlisted' in Hp as [? _].
    - intros p [->%list_elem_of_singleton | Hp]%elem_of_app.
      + exists root. split; [done | by left].
      + exists root. split; [done |]. right. by apply Hlisted'.
    - intros p [Hne Hp]%not_elem_of_app. rewrite (Hframe p Hp).
      unfold files1. apply lookup_insert_ne. intros <-. apply Hne. by left. }
  destruct o1 as [[]|code|msg]; [| by destruct (Hexit code) |].
  2:{ injection Hrun as <- <-. by apply (Hafter _ []). }
  match type of Hrun with
  | ?tail w1 = _ => assert (Htail : silent tail) by silent_steps
  end.
  destruct (Htail _ _ _ Hrun) as (Hfiles & later & Hlater & Hnone).
  by apply Hafter with later.
Qed.

End Writes.

(* ================================================================== *)
(** * The handling of the arguments *)
(* ================================================================== *)

Section Arguments.
Context {G : Type} `{Shell G}.

(** [main] follows the verdict on its arguments. *)
Lemma main_verdict dirname args (w : world G) :
  main dirname args w =
    match verdict_of args with
    | ShowHelp =>
        (Exited 0, World (files w) (vcs w) (Stdout HELP_TEXT :: trace w))
    | MissingVersion =>
        (Exited 1,
         World (files w) (vcs w)
           (Stderr HELP_TEXT :: Stderr "Error: No version provided" :: trace w))
    | InvalidVersion version =>
        (Exited 1,
         World (files w) (vcs w)
           (Stderr "Examples: 6.1.19, 6.1.19-alpha, 6.1.19-a11y.1"
            :: Stderr "Expected format: X.Y.Z-pre-release.build"
            :: Stderr ("Error: Invalid SemVer format " +:+ dquote +:+ version +:+ dquote)
            :: trace w))
    | Proceed version => try_catch (bump dirname version) report w
    end.
Proof.
  unfold main, verdict_of, help_requested.
  destruct (includes "-h" args || includes "--help" args); [reflexivity |].
  destruct (head args) as [[|c v]|]; try reflexivity.
  destruct (Regex.test SEMVER (String c v)); reflexivity.
Qed.

(** So does the older variant. *)
Lemma variant_main_verdict dirname args (w : world G) :
  Variant.main dirname args w =
    match verdict_of args with
    | ShowHelp =>
        (Exited 0, World (files w) (vcs w) (Stdout Variant.HELP_TEXT :: trace w))
    | MissingVersion =>
        (Exited 1,
         World (files w) (vcs w)
           (Stderr Variant.HELP_TEXT :: Stderr "Error: No version provided" :: trace w))
    | InvalidVersion version =>
        (Exited 1,
         World (files w) (vcs w)
           (Stderr "Examples: 6.1.19, 6.1.19-alpha, 6.1.19-a11y.1"
            :: Stderr "Expected format: X.Y.Z-pre-release.build"
            :: Stderr ("Error: Invalid SemVer format " +:+ dquote +:+ version +:+ dquote)
            :: trace w))
    | Proceed version => try_catch (Variant.bump dirname version) report w
    end.
Proof.
  unfold Variant.main, verdict_of, help_requested.
  destruct (includes "-h" args || includes "--help" args); [reflexivity |].
  destruct (head args) as [[|c v]|]; try reflexivity.
  destruct (Regex.test SEMVER (String c v)); reflexivity.
Qed.

(** A run that ends normally went through the whole of [bump] with a
    version of the grammar. *)
Lemma run_returned dirname args files g (w' : world G) :
  run dirname args files g = (Returned tt, w') ->
  exists version,
    head args = Some version /\ Regex.test SEMVER version = true /\
    bump dirname version (World files g []) = (Returned tt, w').
Proof.
  unfold run. rewrite main_verdict. unfold verdict_of.
  destruct (help_requested args); [discriminate |].
  destruct (head args) as [[|c v]|]; try discriminate.
  destruct (Regex.test SEMVER (String c v)) eqn:Hv; [| discriminate].
  unfold try_catch.
  destruct (bump dirname (String c v) (World files g [])) as [[[]|code|msg] w1] eqn:Hb;
    try discriminate.
  intros [= <-]. by exists (String c v).
Qed.

End Arguments.

(* ================================================================== *)
(** * The first steps of [bump] *)
(* ================================================================== *)

Section Preconditions.
Context {G : Type} `{Shell G}.

Lemma verdict_proceed args version :
  help_requested args = false -> head args = Some version ->
  Regex.test SEMVER version = true -> verdict_of args = Proceed version.
Proof.
  unfold verdict_of. intros -> -> Hv. rewrite Hv.
  destruct version; [by vm_compute in Hv | done].
Qed.

Lemma bump_no_root dirname version (w : world G) :
  findProjectRoot_from (files w) (rev dirname) = None ->
  exists msg, bump dirname version w = (Thrown msg, w).
Proof.
  intros Hroot. unfold bump, findProjectRoot. rewrite !bind_run.
  cbn [current_files]. rewrite Hroot. by eexists.
Qed.

Lemma bump_status_failed dirname version (w : world G) root msg g1 :
  findProjectRoot_from (files w) (rev dirname) = Some root ->
  run_command STATUS (files w) (vcs w) = (Failed msg, g1) ->
  exists msg',
    bump dirname version w
    = (Thrown msg', World (files w) g1 (Exec STATUS :: trace w)).
Proof.
  intros Hroot Hstatus. unfold bump, findProjectRoot. rewrite !bind_run.
  cbn [current_files]. rewrite Hroot. cbn [mret action_ret].
  rewrite bind_run. unfold execSync at 1. rewrite Hstatus. by eexists.
Qed.

(** The work tree has changes: the run stops after the first command. *)
Lemma bump_dirty dirname version (w : world G) root status g1 :
  findProjectRoot_from (files w) (rev dirname) = Some root ->
  run_command STATUS (files w) (vcs w) = (Ok status, g1) ->
  trim_is_empty status = false ->
  bump dirname version w
  = (Exited 1,
     World (files w) g1
       (Stderr "Please commit or stash your changes before running this script"
        :: Stderr "Error: There are uncommitted changes in the repository"
        :: Exec STATUS :: trace w)).
Proof.
  intros Hroot Hstatus Hdirty. unfold bump, findProjectRoot. rewrite !bind_run.
  cbn [current_files]. rewrite Hroot. cbn [mret action_ret].
  rewrite bind_run. unfold execSync at 1. rewrite Hstatus.
  rewrite bind_run, Hdirty. reflexivity.
Qed.

Lemma bump_tag_failed dirname version (w : world G) root status g1 msg g2 :
  findProjectRoot_from (files w) (rev dirname) = Some root ->
  run_command STATUS (files w) (vcs w) = (Ok status, g1) ->
  trim_is_empty status = true ->
  run_command ("git tag -l " +:+ "v" +:+ version) (files w) g1 = (Failed msg, g2) ->
  exists msg',
    bump dirname version w
    = (Thrown msg',
       World (files w) g2
         (Exec ("git tag -l " +:+ "v" +:+ version) :: Exec STATUS :: trace w)).
Proof.
  intros Hroot Hstatus Hclean Hlisted. unfold bump, findProjectRoot. rewrite !bind_run.
  cbn [current_files]. rewrite Hroot. cbn [mret action_ret].
  rewrite bind_run. unfold execSync at 1. rewrite Hstatus.
  rewrite bind_run, Hclean. cbn [negb when mret action_ret].
  rewrite bind_run. unfold execSync at 1. cbn [files vcs trace].
  rewrite Hlisted. by eexists.
Qed.

(** The tag exists: the run stops after the second command. *)
Lemma bump_tag_exists dirname version (w : world G) root status g1 listed g2 :
  findProjectRoot_from (files w) (rev dirname) = Some root ->
  run_command STATUS (files w) (vcs w) = (Ok status, g1) ->
  trim_is_empty status = true ->
  run_command ("git tag -l " +:+ "v" +:+ version) (files w) g1 = (Ok listed, g2) ->
  trim_is_empty listed = false ->
  bump dirname version w
  = (Exited 1,
     World (files w) g2
       (Stderr ("Error: Git tag " +:+ dquote +:+ ("v" +:+ version) +:+ dquote
                +:+ " already exists")
        :: Exec ("git tag -l " +:+ "v" +:+ version) :: Exec STATUS :: trace w)).
Proof.
  intros Hroot Hstatus Hclean Hlisted Htaken. unfold bump, findProjectRoot.
  rewrite !bind_run.
  cbn [current_files]. rewrite Hroot. cbn [mret action_ret].
  rewrite bind_run. unfold execSync at 1. rewrite Hstatus.
  rewrite bind_run, Hclean. cbn [negb when mret action_ret].
  rewrite bind_run. unfold execSync at 1. cbn [files vcs trace].
  rewrite Hlisted. rewrite bind_run, Htaken. reflexivity.
Qed.

(** Both checks passed: what follows starts from a world in which the
    two commands have run and nothing else has happened. *)
Lemma bump_after_checks dirname version (w : world G) root status g1 listed g2 :
  findProjectRoot_from (files w) (rev dirname) = Some root ->
  run_command STATUS (files w) (vcs w) = (Ok status, g1) ->
  trim_is_empty status = true ->
  run_command ("git tag -l " +:+ "v" +:+ version) (files w) g1 = (Ok listed, g2) ->
  trim_is_empty listed = true ->
  exists rest : action G unit,
    bump dirname version w
    = rest (World (files w) g2
              (Exec ("git tag -l " +:+ "v" +:+ version) :: Exec STATUS :: trace w))
    /\ tame rest.
Proof.
  intros Hroot Hstatus Hclean Hlisted Hfree. eexists. split.
  - unfold bump, findProjectRoot. rewrite !bind_run.
    cbn [current_files]. rewrite Hroot. cbn [mret action_ret].
    rewrite bind_run. unfold execSync at 1. rewrite Hstatus.
    rewrite bind_run, Hclean. cbn [negb when mret action_ret].
    rewrite bind_run. unfold execSync at 1. cbn [files vcs trace].
    rewrite Hlisted. rewrite bind_run, Hfree. cbn [negb when mret action_ret].
    reflexivity.
  - tame_steps.
Qed.

End Preconditions.

(** A pair whose first component is known. *)
Lemma pair_eta {A B : Type} (r : A * B) (a : A) : fst r = a -> r = (a, snd r).
Proof. intros <-. by destruct r. Qed.

(* ================================================================== *)
(** * The claims of the specification *)
(* ================================================================== *)

(** C2, as stated, fails: the argument [-h] is not in the grammar, and
    the script exits with code 0 on it, not with code 1. *)
Lemma help_flag_is_not_rejected :
  ~ semver_grammar "-h" /\
  exit_code (fst (run Example.dirname ["-h"] Example.disk Example.repo)) <> 1.
Proof.
  split.
  - intros Hg. apply SEMVER_grammar in Hg. vm_compute in Hg. discriminate.
  - vm_compute. discriminate.
Qed.

(** C2, amended.  The test of the script accepts exactly the strings of
    the grammar.  Given as the only argument, a string of the grammar
    takes the run into the [try] block; a string outside the grammar
    other than [-h] and [--help] ends it with code 1 and a message on
    the error stream, no file written and no command run; [-h] and
    [--help] end it with code 0 and the help text, nothing touched
    either. *)
Theorem version_argument_checked {G : Type} `{Shell G}
  (dirname : list string) (s : string) (files : gmap (list string) node) (g : G) :
  (Regex.test SEMVER s = true <-> semver_grammar s) /\
  (Regex.test SEMVER s = true ->
     run dirname [s] files g = try_catch (bump dirname s) report (World files g [])) /\
  (Regex.test SEMVER s = false -> s <> "-h" -> s <> "--help" ->
     exists guidance,
       guidance <> [] /\
       run dirname [s] files g = (Exited 1, World files g (Stderr <$> guidance))) /\
  (s = "-h" \/ s = "--help" ->
     run dirname [s] files g = (Exited 0, World files g [Stdout HELP_TEXT])).
Proof.
  split; [apply SEMVER_grammar |]. unfold run. rewrite main_verdict.
  unfold verdict_of, help_requested, includes. cbn [existsb head orb].
  rewrite !orb_false_r. split; [| split].
  - intros Hs. destruct (String.eqb_spec "-h" s) as [<- | _]; [by vm_compute in Hs |].
    destruct (String.eqb_spec "--help" s) as [<- | _]; [by vm_compute in Hs |].
    cbn [orb]. rewrite Hs. by destruct s.
  - intros Hs Hh Hhelp.
    destruct (String.eqb_spec "-h" s) as [<- | _]; [done |].
    destruct (String.eqb_spec "--help" s) as [<- | _]; [done |].
    cbn [orb]. rewrite Hs. destruct s as [|c s].
    + by exists [HELP_TEXT; "Error: No version provided"].
    + by exists ["Examples: 6.1.19, 6.1.19-alpha, 6.1.19-a11y.1";
                 "Expected format: X.Y.Z-pre-release.build";
                 "Error: Invalid SemVer format " +:+ dquote +:+ String c s +:+ dquote].
  - intros [-> | ->]; reflexivity.
Qed.

Lemma version_argument_checked_witness :
  exists guidance,
    guidance <> [] /\
    run Example.dirname ["v1.2.3"] Example.disk Example.repo
    = (Exited 1, World Example.disk Example.repo (Stderr <$> guidance)).
Proof.
  apply (proj1 (proj2 (proj2
    (version_argument_checked Example.dirname "v1.2.3" Example.disk Example.repo)))).
  - vm_compute. reflexivity.
  - discriminate.
  - discriminate.
Defined.

(** C8.  When [-h] or [--help] is among the arguments the script prints
    the help text and exits with code 0, nothing else having happened.
    Otherwise, when there is no version or the version is not in the
    grammar, it prints to the error stream and exits with code 1,
    nothing else having happened either.  Otherwise the exit code is 0
    when the [try] block ends normally, and 1 when the block exits (a
    precondition failed) and when it throws (the error is caught and
    reported). *)
Theorem exit_codes {G : Type} `{Shell G}
  (dirname args : list string) (disk : gmap (list string) node) (g : G) :
  (help_requested args = true ->
     run dirname args disk g = (Exited 0, World disk g [Stdout HELP_TEXT])) /\
  (help_requested args = false ->
   match head args with
   | None => True
   | Some version => Regex.test SEMVER version = false
   end ->
     exists guidance,
       guidance <> [] /\
       run dirname args disk g = (Exited 1, World disk g (Stderr <$> guidance))) /\
  (forall version,
     help_requested args = false -> head args = Some version ->
     Regex.test SEMVER version = true ->
     match bump dirname version (World disk g []) with
     | (Returned _, w1) => run dirname args disk g = (Returned tt, w1)
     | (Exited code, w1) => code = 1 /\ run dirname args disk g = (Exited 1, w1)
     | (Thrown msg, w1) =>
         run dirname args disk g =
           (Exited 1,
            World (files w1) (vcs w1) (Stderr ("Error: " +:+ msg) :: trace w1))
     end) /\
  (exit_code (fst (run dirname args disk g)) = 0 \/
   exit_code (fst (run dirname args disk g)) = 1).
Proof.
  unfold run. rewrite main_verdict. unfold verdict_of.
  split; [| split; [| split]].
  - by intros ->.
  - intros -> Hv. destruct (head args) as [[|c s]|].
    + by exists [HELP_TEXT; "Error: No version provided"].
    + rewrite Hv.
      by exists ["Examples: 6.1.19, 6.1.19-alpha, 6.1.19-a11y.1";
                 "Expected format: X.Y.Z-pre-release.build";
                 "Error: Invalid SemVer format " +:+ dquote +:+ String c s +:+ dquote].
    + by exists [HELP_TEXT; "Error: No version provided"].
  - intros version -> -> Hv. rewrite Hv.
    destruct version as [|c s]; [by vm_compute in Hv |].
    unfold try_catch.
    destruct (bump dirname (String c s) (World disk g [])) as [[[]|code|msg] w1] eqn:Hb;
      [done | | done].
    destruct (tame_bump _ _ _ _ _ Hb) as [Hcode _].
    by rewrite (Hcode code eq_refl).
  - destruct (help_requested args); [by left |].
    destruct (head args) as [[|c s]|]; [by right | | by right].
    destruct (Regex.test SEMVER (String c s)); [| by right].
    unfold try_catch.
    destruct (bump dirname (String c s) (World disk g [])) as [[[]|code|msg] w1] eqn:Hb.
    + by left.
    + destruct (tame_bump _ _ _ _ _ Hb) as [Hcode _].
      right. by rewrite (Hcode code eq_refl).
    + by right.
Qed.

Lemma exit_codes_witness :
  run Example.dirname ["--help"] Example.disk Example.repo
  = (Exited 0, World Example.disk Example.repo [Stdout HELP_TEXT]).
Proof.
  apply (proj1 (exit_codes Example.dirname ["--help"] Example.disk Example.repo)).
  vm_compute. reflexivity.
Defined.

(** C10.  The two copies of the script handle their arguments alike:
    on every argument list both show the help and exit with code 0, or
    both report the missing version and exit with code 1, or both
    report the invalid version and exit with code 1, or both enter
    their [try] block with the same version. *)
Theorem variants_agree_on_arguments {G : Type} `{Shell G}
  (dirname args : list string) (files : gmap (list string) node) (g : G) :
  match verdict_of args with
  | ShowHelp =>
      run dirname args files g = (Exited 0, World files g [Stdout HELP_TEXT]) /\
      Variant.run dirname args files g
      = (Exited 0, World files g [Stdout Variant.HELP_TEXT])
  | MissingVersion =>
      run dirname args files g
      = (Exited 1, World files g [Stderr HELP_TEXT; Stderr "Error: No version provided"]) /\
      Variant.run dirname args files g
      = (Exited 1,
         World files g [Stderr Variant.HELP_TEXT; Stderr "Error: No version provided"])
  | InvalidVersion version =>
      exists guidance,
        guidance <> [] /\
        run dirname args files g = (Exited 1, World files g (Stderr <$> guidance)) /\
        Variant.run dirname args files g = (Exited 1, World files g (Stderr <$> guidance))
  | Proceed version =>
      run dirname args files g
      = try_catch (bump dirname version) report (World files g []) /\
      Variant.run dirname args files g
      = try_catch (Variant.bump dirname version) report (World files g [])
  end.
Proof.
  unfold run, Variant.run. rewrite main_verdict, variant_main_verdict.
  destruct (verdict_of args) as [| |version|version]; try done.
  by exists ["Examples: 6.1.19, 6.1.19-alpha, 6.1.19-a11y.1";
             "Expected format: X.Y.Z-pre-release.build";
             "Error: Invalid SemVer format " +:+ dquote +:+ version +:+ dquote].
Qed.

(** Past the arguments the two copies differ.  On the example project
    the older one runs no command before it writes, and it neither
    writes nor stages the manifest of the bundle. *)
Lemma variant_on_example :
  let result := Variant.run Example.dirname ["1.1.0"] Example.disk Example.repo in
  fst result = Returned tt /\
  written (trace (snd result))
  = [Example.root ++ ["package.json"];
     Example.root ++ ["packages"; "core"; "package.json"]] /\
  commands (trace (snd result))
  = [Variant.ADD; commit_command "1.0.0" "1.1.0"; "git tag v1.1.0"].
Proof. cbv zeta. repeat split; vm_compute; reflexivity. Qed.

(** C3.  In a run whose version passed validation: when the status
    command reports a change, the script exits with code 1 after that
    single command, no file having changed; when the work tree is clean
    and the tag is listed, it exits with code 1 after the two commands,
    no file having changed; and a run that writes any file has first run
    the status command, then the tag command, both with an empty
    answer. *)
Theorem precondition_checks {G : Type} `{Shell G} (dirname args : list string)
  (version : string) (disk : gmap (list string) node) (g : G) :
  help_requested args = false -> head args = Some version ->
  Regex.test SEMVER version = true ->
  let result := run dirname args disk g in
  (forall status g1,
     run_command STATUS disk g = (Ok status, g1) ->
     trim_is_empty status = false ->
     exit_code (fst result) = 1 /\ files (snd result) = disk /\
     written (trace (snd result)) = [] /\
     commands (trace (snd result))
     = match findProjectRoot_from disk (rev dirname) with
       | Some _ => [STATUS]
       | None => []
       end) /\
  (forall status g1 listed g2,
     run_command STATUS disk g = (Ok status, g1) ->
     trim_is_empty status = true ->
     run_command ("git tag -l " +:+ "v" +:+ version) disk g1 = (Ok listed, g2) ->
     trim_is_empty listed = false ->
     exit_code (fst result) = 1 /\ files (snd result) = disk /\
     written (trace (snd result)) = [] /\
     commands (trace (snd result))
     = match findProjectRoot_from disk (rev dirname) with
       | Some _ => [STATUS; "git tag -l " +:+ "v" +:+ version]
       | None => []
       end) /\
  (written (trace (snd result)) <> [] ->
   exists status g1 listed g2 later,
     run_command STATUS disk g = (Ok status, g1) /\
     trim_is_empty status = true /\
     run_command ("git tag -l " +:+ "v" +:+ version) disk g1 = (Ok listed, g2) /\
     trim_is_empty listed = true /\
     rev (trace (snd result))
     = Exec STATUS :: Exec ("git tag -l " +:+ "v" +:+ version) :: later).
Proof.
  intros Hhelp Hhead Hversion result. unfold result, run.
  rewrite main_verdict, (verdict_proceed _ _ Hhelp Hhead Hversion).
  unfold try_catch. set (w0 := World disk g []).
  destruct (findProjectRoot_from disk (rev dirname)) as [root|] eqn:Hroot.
  2:{ destruct (bump_no_root dirname version w0 Hroot) as [msg ->].
      split; [done |]. split; [done |]. by intros []. }
  split; [| split].
  - intros status g1 Hstatus Hdirty.
    by rewrite (bump_dirty dirname version w0 root status g1 Hroot Hstatus Hdirty).
  - intros status g1 listed g2 Hstatus Hclean Hlisted Htaken.
    by rewrite (bump_tag_exists dirname version w0 root status g1 listed g2
                  Hroot Hstatus Hclean Hlisted Htaken).
  - destruct (run_command STATUS disk g) as [[status|msg] g1] eqn:Hstatus.
    2:{ destruct (bump_status_failed dirname version w0 root msg g1 Hroot Hstatus)
          as [msg' ->]. by intros []. }
    destruct (trim_is_empty status) eqn:Hclean.
    2:{ rewrite (bump_dirty dirname version w0 root status g1 Hroot Hstatus Hclean).
        by intros []. }
    destruct (run_command ("git tag -l " +:+ "v" +:+ version) disk g1)
      as [[listed|msg] g2] eqn:Hlisted.
    2:{ destruct (bump_tag_failed dirname version w0 root status g1 msg g2
                    Hroot Hstatus Hclean Hlisted) as [msg' ->]. by intros []. }
    destruct (trim_is_empty listed) eqn:Hfree.
    2:{ rewrite (bump_tag_exists dirname version w0 root status g1 listed g2
                   Hroot Hstatus Hclean Hlisted Hfree). by intros []. }
    destruct (bump_after_checks dirname version w0 root status g1 listed g2
                Hroot Hstatus Hclean Hlisted Hfree) as (rest & -> & Hrest).
    intros _. exists status, g1, listed, g2.
    destruct (rest _) as [o1 w1] eqn:Hrun.
    destruct (Hrest _ _ _ Hrun) as [_ [new Hnew]].
    subst w0. cbn [trace] in Hnew.
    destruct o1 as [[]|code|msg].
    + exists (rev new). do 4 (split; [done |]).
      cbn [snd]. by rewrite Hnew, rev_app_distr.
    + exists (rev new). do 4 (split; [done |]).
      cbn [snd]. by rewrite Hnew, rev_app_distr.
    + exists (rev new ++ [Stderr ("Error: " +:+ msg)]). do 4 (split; [done |]).
      change (report msg w1) with
        (Exited 1 : outcome unit,
         World (files w1) (vcs w1) (Stderr ("Error: " +:+ msg) :: trace w1)).
      cbn [snd trace rev]. by rewrite Hnew, rev_app_distr.
Qed.

Lemma precondition_checks_witness :
  let result := run Example.dirname ["1.0.0"] Example.disk Example.repo in
  exit_code (fst result) = 1 /\ files (snd result) = Example.disk /\
  written (trace (snd result)) = [] /\
  commands (trace (snd result))
  = match findProjectRoot_from Example.disk (rev Example.dirname) with
    | Some _ => [STATUS; "git tag -l " +:+ "v" +:+ "1.0.0"]
    | None => []
    end.
Proof.
  refine (proj1 (proj2
    (precondition_checks Example.dirname ["1.0.0"] "1.0.0" Example.disk Example.repo
       _ _ _)) "" _ ("v1.0.0" +:+ nl) _ (pair_eta _ _ _) _ (pair_eta _ _ _) _);
    vm_compute; reflexivity.
Defined.

Lemma package_manifest_not_root (disk : gmap (list string) node) root p :
  is_package_manifest disk root p -> p <> root ++ ["package.json"].
Proof. by intros [(name & -> & _) | [-> _]] [=]%app_inv_head. Qed.

(** What [main] adds around [bump] writes nothing. *)
Lemma run_writes {G : Type} `{Shell G} (dirname args : list string)
  (disk : gmap (list string) node) (g : G) (o : outcome unit) (w' : world G) :
  run dirname args disk g = (o, w') ->
  NoDup (written (trace w')) /\
  (forall p, p ∈ written (trace w') ->
     exists root,
       findProjectRoot_from disk (rev dirname) = Some root /\
       (p = root ++ ["package.json"] \/ is_package_manifest disk root p)) /\
  (forall p, p ∉ written (trace w') -> files w' !! p = disk !! p).
Proof.
  assert (Hnone : forall (w1 : world G),
    files w1 = disk -> written (trace w1) = [] ->
    NoDup (written (trace w1)) /\
    (forall p, p ∈ written (trace w1) ->
       exists root,
         findProjectRoot_from disk (rev dirname) = Some root /\
         (p = root ++ ["package.json"] \/ is_package_manifest disk root p)) /\
    (forall p, p ∉ written (trace w1) -> files w1 !! p = disk !! p)).
  { intros w1 -> ->. split; [constructor |]. split; [| done].
    by intros p ?%elem_of_nil. }
  unfold run. rewrite main_verdict.
  destruct (verdict_of args) as [| |version|version].
  1,2,3: intros [= <- <-]; by apply Hnone.
  unfold try_catch.
  destruct (bump dirname version (World disk g [])) as [o1 w1] eqn:Hbump.
  apply bump_writes in Hbump as (new & Htrace & Hnd & Hin & Hout).
  cbn [files trace] in *. rewrite app_nil_r in Htrace.
  destruct o1 as [[]|code|msg]; intros [= <- <-].
  1,2: by rewrite Htrace.
  cbn [files trace].
  change (Stderr ("Error: " +:+ msg) :: trace w1)
    with ([Stderr ("Error: " +:+ msg)] ++ trace w1).
  rewrite written_app, app_nil_r. by rewrite Htrace.
Qed.





(** ** The versions after a run *)

Lemma package_text_obj version text text' :
  package_text version text = Some text' ->
  exists doc,
    JSON_parse text = Some doc /\
    forall ms, doc = JObj ms ->
      exists ms',
        rewritten version (JObj ms) = Some (JObj ms') /\
        text' = JSON_stringify (JObj ms') +:+ nl.
Proof.
  unfold package_text. destruct (JSON_parse text) as [doc|]; [| done].
  cbn [mbind option_bind]. intros Htext'. exists doc. split; [done |].
  intros ms ->. destruct (rewritten_obj version ms) as (ms' & Hms' & _).
  rewrite Hms' in Htext'. injection Htext' as <-. by exists ms'.
Qed.

(** In the document [updatePackageJsonFile] serializes, every entry of
    a dependency map whose key starts with the prefix has the range. *)
Lemma rewritten_ranges version ms ms' depType deps' dep range :
  rewritten version (JObj ms) = Some (JObj ms') ->
  depType ∈ depTypes ->
  obj_get ms' depType = Some (JObj deps') ->
  obj_get deps' dep = Some range ->
  startsWith dep PREFIX = true ->
  range = JStr ("~" +:+ version).
Proof.
  intros Hms' HdepType Hdeps' Hrange Hprefix.
  destruct (rewritten_obj version ms) as (ms1 & Hms1 & _ & _ & Hdep & _).
  rewrite Hms1 in Hms'. injection Hms' as ->.
  rewrite (Hdep _ HdepType) in Hdeps'.
  destruct (obj_get ms depType) as [[| | | | |deps]|]; try discriminate.
  destruct (update_dependencies_obj version deps) as (deps1 & Hdeps1 & _ & Hget).
  cbn [fmap option_fmap option_map] in Hdeps'. rewrite Hdeps1 in Hdeps'.
  injection Hdeps' as ->. rewrite Hget, Hprefix in Hrange.
  destruct (obj_has deps dep) eqn:Hhas; cbn [andb] in Hrange.
  - by injection Hrange.
  - unfold obj_has in Hhas. by rewrite Hrange in Hhas.
Qed.






(** C4 does not hold on the code.  In this project a package lives in
    a directory whose name starts with a dot.  The first run ends
    normally and has rewritten the manifest of that package, which the
    pattern given to the shell does not stage; the second run with the
    same version stops at the check of the work tree, before the tag is
    even looked up. *)
Lemma second_run_stops_on_work_tree :
  let first :=
    run Example.dirname ["1.1.0"] Example.disk_with_hidden Example.repo_with_hidden in
  let second :=
    run Example.dirname ["1.1.0"] (files (snd first)) (vcs (snd first)) in
  fst first = Returned tt /\
  (Example.root ++ ["packages"; ".internal"; "package.json"])
    ∈ written (trace (snd first)) /\
  fst second = Exited 1 /\
  commands (trace (snd second)) = [STATUS] /\
  stderr (trace (snd second))
  = ["Error: There are uncommitted changes in the repository";
     "Please commit or stash your changes before running this script"].
Proof.
  cbv zeta. split; [vm_compute; reflexivity |].
  split; [apply (bool_decide_unpack _); vm_compute; reflexivity |].
  split; [vm_compute; reflexivity |].
  split; vm_compute; reflexivity.
Qed.

(* ================================================================== *)
(** * The order of the keys *)
(* ================================================================== *)

Lemma first_occurrences_snoc l k :
  first_occurrences (l ++ [k]) =
    if decide (k ∈ first_occurrences l) then first_occurrences l
    else first_occurrences l ++ [k].
Proof. unfold first_occurrences. by rewrite fold_left_app. Qed.

Lemma elem_of_first_occurrences l k : k ∈ first_occurrences l <-> k ∈ l.
Proof.
  induction l as [|x l IH] using rev_ind; [done |].
  rewrite first_occurrences_snoc, elem_of_app, list_elem_of_singleton.
  destruct (decide (x ∈ first_occurrences l)) as [Hx | Hx].
  - rewrite IH. split; [by left |]. intros [? | ->]; [done | by apply IH].
  - by rewrite elem_of_app, list_elem_of_singleton, IH.
Qed.

Lemma NoDup_first_occurrences l : NoDup (first_occurrences l).
Proof.
  induction l as [|x l IH] using rev_ind; [constructor |].
  rewrite first_occurrences_snoc.
  destruct (decide (x ∈ first_occurrences l)) as [Hx | Hx]; [done |].
  apply NoDup_app. split; [done |]. split; [| apply NoDup_singleton].
  by intros y Hy ->%list_elem_of_singleton.
Qed.

Lemma is_array_index_Some k : is_array_index k = true <-> is_Some (array_index k).
Proof. unfold is_array_index. destruct (array_index k); split; done. Qed.

(** Where a new array index lands among the keys. *)
Lemma keys_insert_index ms i k v indices others :
  keys ms = indices ++ others ->
  Forall (fun k => is_array_index k = true) indices ->
  Forall (fun k => is_array_index k = false) others ->
  StronglySorted index_le indices ->
  array_index k = Some i ->
  exists indices',
    keys (obj_insert_index ms i k v) = indices' ++ others /\
    Forall (fun k => is_array_index k = true) indices' /\
    StronglySorted index_le indices' /\
    (forall k', k' ∈ indices' <-> k' = k \/ k' ∈ indices).
Proof.
  intros Hkeys Hidx Hoth Hsorted Hk.
  assert (Hki : is_array_index k = true) by (apply is_array_index_Some; eauto).
  revert ms Hkeys Hidx Hsorted.
  induction indices as [|k0 indices IH]; intros ms Hkeys Hidx Hsorted.
  - exists [k]. split; [| split; [| split]].
    + cbn [app] in Hkeys. subst others.
      destruct ms as [|[k0 v0] ms]; [done |].
      cbn [obj_insert_index]. cbn [keys map fst] in Hoth.
      apply Forall_cons in Hoth as [Hk0 _]. unfold is_array_index in Hk0.
      by destruct (array_index k0).
    + by constructor.
    + repeat constructor.
    + intros k'. rewrite list_elem_of_singleton, elem_of_nil. tauto.
  - destruct ms as [|[k1 v0] ms]; [done |]. cbn in Hkeys.
    injection Hkeys as -> Hkeys. change (keys ms = indices ++ others) in Hkeys.
    apply Forall_cons in Hidx as [Hk0 Hidx].
    apply StronglySorted_inv in Hsorted as [Hsorted Hle].
    cbn [obj_insert_index]. apply is_array_index_Some in Hk0 as [i0 Hi0].
    rewrite Hi0. destruct (N.ltb_spec i0 i) as [Hlt | Hge].
    + destruct (IH ms Hkeys Hidx Hsorted) as (indices' & Hkeys' & Hidx' & Hsorted' & Hin').
      exists (k0 :: indices').
      split; [change (k0 :: keys (obj_insert_index ms i k v)
                      = k0 :: indices' ++ others); by rewrite Hkeys' |].
      split; [constructor; [apply is_array_index_Some; eauto | done] |].
      split.
      * constructor; [done |]. apply Forall_forall. intros k' Hk'.
        apply Hin' in Hk' as [-> | Hk'].
        -- unfold index_le. rewrite Hi0, Hk. lia.
        -- rewrite Forall_forall in Hle. by apply Hle.
      * intros k'. rewrite !elem_of_cons, Hin'. tauto.
    + exists (k :: k0 :: indices).
      split; [change (k :: k0 :: keys ms = k :: k0 :: indices ++ others);
              by rewrite Hkeys |].
      split; [repeat constructor; [done | apply is_array_index_Some; eauto | done] |].
      split.
      * constructor; [by constructor |]. constructor.
        -- unfold index_le. by rewrite Hi0, Hk.
        -- apply Forall_forall. intros k' Hk'. rewrite Forall_forall in Hle.
           specialize (Hle k' Hk'). unfold index_le in *. rewrite Hi0 in Hle.
           rewrite Hk. destruct (array_index k'); [lia | done].
      * intros k'. rewrite !elem_of_cons. tauto.
Qed.

Lemma keys_insert_index_perm ms i k v :
  keys (obj_insert_index ms i k v) ≡ₚ k :: keys ms.
Proof.
  induction ms as [|[k0 v0] ms IH]; [done |]. cbn [obj_insert_index].
  destruct (array_index k0) as [i0|]; [destruct (i0 <? i)%N |]; try done.
  change (k0 :: keys (obj_insert_index ms i k v) ≡ₚ k :: k0 :: keys ms).
  rewrite IH. apply Permutation_swap.
Qed.

Lemma elem_of_others raw k :
  k ∈ first_occurrences (filter (fun k => is_array_index k = false) raw)
  <-> k ∈ raw /\ is_array_index k = false.
Proof. rewrite elem_of_first_occurrences, list_elem_of_filter. tauto. Qed.

(** The keys of the object are those of the text. *)
Lemma js_enumeration_elem_of raw ks k :
  js_enumeration raw ks -> k ∈ ks <-> k ∈ raw.
Proof.
  intros (_ & indices & others & -> & _ & _ & Hin & ->).
  rewrite elem_of_app, Hin, elem_of_others.
  destruct (is_array_index k); naive_solver.
Qed.

Lemma keys_snoc ms k (v : json) : keys (ms ++ [(k, v)]) = keys ms ++ [k].
Proof. unfold keys. by rewrite map_app. Qed.

Lemma obj_of_members_snoc ms k v :
  obj_of_members (ms ++ [(k, v)]) = obj_set (obj_of_members ms) k v.
Proof. unfold obj_of_members. by rewrite fold_left_app. Qed.

Lemma last_member_snoc ms k v k' :
  last_member (ms ++ [(k, v)]) k' =
    if String.eqb k k' then Some v else last_member ms k'.
Proof. unfold last_member. by rewrite rev_app_distr. Qed.

(** The object built from the members of a text: its keys are in the
    order of enumeration, its values are those of the last members. *)
Lemma obj_of_members_spec ms :
  js_enumeration (keys ms) (keys (obj_of_members ms)) /\
  forall k, obj_get (obj_of_members ms) k = last_member ms k.
Proof.
  induction ms as [|[k v] ms [Henum Hget]] using rev_ind.
  { split; [| done]. split; [constructor |]. exists [], [].
    split; [done |]. split; [constructor |]. split; [constructor |].
    split; [| done]. intros k.
    split; [by intros ?%elem_of_nil | by intros [?%elem_of_nil _]]. }
  rewrite obj_of_members_snoc. split.
  2:{ intros k'. by rewrite obj_get_set, last_member_snoc, Hget. }
  pose proof (js_enumeration_elem_of _ _ k Henum) as Hsame.
  destruct Henum as (Hnd & indices & others & Hkeys & Hidx & Hsorted & Hin & Hothers).
  rewrite keys_snoc.
  assert (Hfilter :
    filter (fun k => is_array_index k = false) (keys ms ++ [k])
    = filter (fun k => is_array_index k = false) (keys ms)
      ++ (if is_array_index k then [] else [k])).
  { rewrite filter_app. f_equal. rewrite filter_cons, filter_nil.
    destruct (is_array_index k); by case_decide. }
  unfold obj_set. destruct (obj_has (obj_of_members ms) k) eqn:Hhas.
  - (* the key is there already *)
    apply obj_has_keys in Hhas. rewrite keys_obj_replace.
    assert (Hk : k ∈ keys ms) by by apply Hsame.
    split; [done |]. exists indices, others. do 3 (split; [done |]). split.
    + intros k'. rewrite Hin, elem_of_app, list_elem_of_singleton. naive_solver.
    + rewrite Hfilter, Hothers. destruct (is_array_index k) eqn:Hki.
      * by rewrite app_nil_r.
      * rewrite first_occurrences_snoc, decide_True; [done |].
        by apply elem_of_others.
  - (* the key is new *)
    assert (Hk : k ∉ keys ms).
    { rewrite <-Hsame, <-obj_has_keys. congruence. }
    assert (Hk' : k ∉ keys (obj_of_members ms)) by by rewrite Hsame.
    destruct (array_index k) as [i|] eqn:Hki.
    + assert (Hothidx : Forall (fun k => is_array_index k = false) others).
      { apply Forall_forall. intros k'. rewrite Hothers, elem_of_others. tauto. }
      destruct (keys_insert_index (obj_of_members ms) i k v indices others
                  Hkeys Hidx Hothidx Hsorted Hki)
        as (indices' & Hkeys' & Hidx' & Hsorted' & Hin').
      split.
      * rewrite keys_insert_index_perm. by constructor.
      * exists indices', others. do 3 (split; [done |]). split.
        -- intros k'. rewrite Hin', Hin, elem_of_app, list_elem_of_singleton.
           assert (is_array_index k = true) by (apply is_array_index_Some; eauto).
           naive_solver.
        -- assert (is_array_index k = true) as Hidxk
             by (apply is_array_index_Some; eauto).
           by rewrite Hfilter, Hidxk, app_nil_r.
    + rewrite keys_snoc. split.
      * apply NoDup_app. split; [done |]. split; [| apply NoDup_singleton].
        by intros k' Hin'' ->%list_elem_of_singleton.
      * exists indices, (others ++ [k]). split; [by rewrite Hkeys, app_assoc |].
        do 2 (split; [done |]). split.
        -- intros k'. rewrite Hin, elem_of_app, list_elem_of_singleton.
           assert (is_array_index k = false) by (unfold is_array_index; by rewrite Hki).
           split; [intros [? ?]; split; [by left | done] |].
           intros [[? | ->] ?]; [done | congruence].
        -- assert (is_array_index k = false) as Hidxk
             by (unfold is_array_index; by rewrite Hki).
           rewrite Hfilter, Hidxk.
           rewrite first_occurrences_snoc, decide_False, Hothers; [done |].
           rewrite elem_of_others. tauto.
Qed.

(** Induction on documents, with the hypothesis for the items of an
    array and for the values of an object. *)
Lemma json_nested_ind (P : json -> Prop) :
  P JNull -> (forall b, P (JBool b)) -> (forall n, P (JNum n)) ->
  (forall s, P (JStr s)) ->
  (forall xs, Forall P xs -> P (JArr xs)) ->
  (forall ms, Forall (fun kv => P (snd kv)) ms -> P (JObj ms)) ->
  forall j, P j.
Proof.
  intros Hnull Hbool Hnum Hstr Harr Hobj.
  refine (fix go (j : json) : P j :=
            match j with
            | JNull => Hnull
            | JBool b => Hbool b
            | JNum n => Hnum n
            | JStr s => Hstr s
            | JArr xs =>
                Harr xs ((fix items (l : list json) : Forall P l :=
                            match l with
                            | [] => List.Forall_nil P
                            | x :: l' =>
                                @List.Forall_cons _ P x l' (go x) (items l')
                            end) xs)
            | JObj ms =>
                Hobj ms ((fix members (l : list (string * json))
                            : Forall (fun kv => P (snd kv)) l :=
                            match l with
                            | [] => List.Forall_nil _
                            | kv :: l' =>
                                @List.Forall_cons _ (fun kv => P (snd kv)) kv l'
                                  (go (snd kv)) (members l')
                            end) ms)
            end).
Qed.

Lemma obj_get_map (f : json -> json) ms k :
  obj_get (map (fun kv => (fst kv, f (snd kv))) ms) k = f <$> obj_get ms k.
Proof.
  induction ms as [|[k0 v0] ms IH]; [done |]. cbn [map obj_get fst snd].
  by destruct (String.eqb k0 k).
Qed.

Lemma obj_get_elem_of ms k v : obj_get ms k = Some v -> (k, v) ∈ ms.
Proof.
  induction ms as [|[k0 v0] ms IH]; [done |]. cbn [obj_get].
  destruct (String.eqb_spec k0 k) as [-> | _].
  - intros [= ->]. by left.
  - intros Hget. right. by apply IH.
Qed.

(** [JSON.parse] lists the keys of every object of the text in the
    order of enumeration. *)
Lemma internalize_enumerates j : enumerates j (internalize j).
Proof.
  induction j as [| | | |xs IH|ms IH] using json_nested_ind;
    try (by constructor).
  - cbn [internalize]. constructor.
    induction IH as [|x xs Hx _ IHxs]; by constructor.
  - cbn [internalize].
    set (ms1 := map (fun kv => (fst kv, internalize (snd kv))) ms).
    destruct (obj_of_members_spec ms1) as [Henum Hget].
    assert (Hkeys : keys ms1 = keys ms).
    { unfold ms1, keys. rewrite map_map. by apply map_ext. }
    constructor; [by rewrite <-Hkeys |].
    intros k v. rewrite Hget. unfold last_member, ms1.
    rewrite <-map_rev, obj_get_map.
    destruct (obj_get (rev ms) k) as [v0|] eqn:Hv0; [| done].
    intros [= <-]. exists v0. split; [done |].
    apply obj_get_elem_of in Hv0. apply (proj1 (list_elem_of_In _ _)) in Hv0.
    apply (proj2 (in_rev _ _)) in Hv0. apply (proj2 (list_elem_of_In _ _)) in Hv0.
    rewrite Forall_forall in IH. by apply (IH (k, v0)).
Qed.

(* ================================================================== *)
(** * The shape of a serialization *)
(* ================================================================== *)

Lemma append_assoc (a b c : string) : (a +:+ b) +:+ c = a +:+ (b +:+ c).
Proof.
  induction a as [|x a IH]; [done |].
  change (String x ((a +:+ b) +:+ c) = String x (a +:+ (b +:+ c))). by rewrite IH.
Qed.

Lemma append_nil_r (a : string) : a +:+ "" = a.
Proof.
  induction a as [|x a IH]; [done |].
  change (String x (a +:+ "") = String x a). by rewrite IH.
Qed.

Lemma spaces_snoc n : spaces n +:+ " " = spaces (S n).
Proof.
  induction n as [|n IH]; [done |].
  change (String " " (spaces n +:+ " ") = String " " (spaces (S n))). by rewrite IH.
Qed.

Lemma spaces_next depth : spaces (2 * depth) +:+ "  " = spaces (2 * S depth).
Proof.
  replace (2 * S depth) with (S (S (2 * depth))) by lia.
  change "  " with (" " +:+ " "). by rewrite <-append_assoc, !spaces_snoc.
Qed.

Lemma render_lines_app ls1 ls2 :
  render_lines (ls1 ++ ls2) = render_lines ls1 +:+ render_lines ls2.
Proof.
  induction ls1 as [|l ls1 IH]; [done |].
  cbn [app render_lines fold_right]. fold (render_lines (ls1 ++ ls2)).
  fold (render_lines ls1). by rewrite IH, append_assoc.
Qed.

Lemma render_lines_with_comma ls :
  ls <> [] -> render_lines (with_comma ls) = render_lines ls +:+ ",".
Proof.
  induction ls as [|[d c] ls IH]; [done |]. intros _.
  destruct ls as [|l ls].
  - cbn [with_comma render_lines fold_right]. unfold render_line. cbn [fst snd].
    by rewrite !append_nil_r, !append_assoc.
  - change (with_comma ((d, c) :: l :: ls)) with ((d, c) :: with_comma (l :: ls)).
    change (render_lines ((d, c) :: ?r)) with (render_line (d, c) +:+ render_lines r).
    by rewrite IH, append_assoc.
Qed.

Lemma render_lines_separated groups :
  Forall (fun g => g <> []) groups ->
  render_lines (separated groups) = join "," (map render_lines groups).
Proof.
  induction 1 as [|g groups Hg Hgroups IH]; [done |].
  destruct groups as [|g' groups]; [done |].
  change (separated (g :: g' :: groups))
    with (with_comma g ++ separated (g' :: groups)).
  change (join "," (map render_lines (g :: g' :: groups)))
    with (render_lines g +:+ "," +:+ join "," (map render_lines (g' :: groups))).
  by rewrite render_lines_app, render_lines_with_comma, IH, append_assoc.
Qed.

Lemma join_prefixed p rs :
  rs <> [] ->
  join "," (map (fun r => p +:+ r) rs) = p +:+ join ("," +:+ p) rs.
Proof.
  induction rs as [|r rs IH]; [done |]. intros _.
  destruct rs as [|r' rs]; [done |].
  change (join "," (map (fun r => p +:+ r) (r :: r' :: rs)))
    with ((p +:+ r) +:+ "," +:+ join "," (map (fun r => p +:+ r) (r' :: rs))).
  change (join ("," +:+ p) (r :: r' :: rs))
    with (r +:+ ("," +:+ p) +:+ join ("," +:+ p) (r' :: rs)).
  by rewrite IH, !append_assoc.
Qed.

(** The serializer of the script writes the page of the
    specification: every line after the first starts with two spaces
    for each level of nesting. *)
Lemma serialize_layout j :
  forall depth, serialize "  " (spaces (2 * depth)) j = render (layout depth j).
Proof.
  induction j as [|[]| | |xs IH|ms IH] using json_nested_ind; intros depth;
    try (by unfold render; cbn; rewrite ?append_nil_r).
  - destruct xs as [|x xs]; [done |].
    set (items := x :: xs) in *.
    change (serialize "  " (spaces (2 * depth)) (JArr items))
      with ("[" +:+ nl +:+ (spaces (2 * depth) +:+ "  ")
            +:+ join ("," +:+ nl +:+ (spaces (2 * depth) +:+ "  "))
                  (map (serialize "  " (spaces (2 * depth) +:+ "  ")) items)
            +:+ nl +:+ spaces (2 * depth) +:+ "]").
    change (render (layout depth (JArr items)))
      with ("[" +:+ render_lines
              (separated
                 (map (fun x => (S depth, fst (layout (S depth) x))
                                :: snd (layout (S depth) x)) items)
               ++ [(depth, "]")])).
    rewrite spaces_next, render_lines_app, render_lines_separated.
    2:{ apply Forall_forall. by intros g (y & -> & _)%list_elem_of_fmap. }
    rewrite map_map.
    rewrite (map_ext_Forall
               (fun x => render_lines ((S depth, fst (layout (S depth) x))
                                       :: snd (layout (S depth) x)))
               (fun x => (nl +:+ spaces (2 * S depth))
                         +:+ serialize "  " (spaces (2 * S depth)) x)).
    2:{ apply Forall_forall. intros y Hy. rewrite Forall_forall in IH.
        rewrite (IH y Hy (S depth)). unfold render.
        cbn [render_lines fold_right]. unfold render_line. cbn [fst snd].
        by rewrite !append_assoc. }
    rewrite <-(map_map (serialize "  " (spaces (2 * S depth)))
                 (fun r => (nl +:+ spaces (2 * S depth)) +:+ r)).
    rewrite join_prefixed by done.
    cbn [render_lines fold_right]. unfold render_line. cbn [fst snd].
    by rewrite !append_assoc, append_nil_r.
  - destruct ms as [|kv ms]; [done |].
    set (members := kv :: ms) in *.
    change (serialize "  " (spaces (2 * depth)) (JObj members))
      with ("{" +:+ nl +:+ (spaces (2 * depth) +:+ "  ")
            +:+ join ("," +:+ nl +:+ (spaces (2 * depth) +:+ "  "))
                  (map (fun kv => quote (fst kv) +:+ ": "
                                  +:+ serialize "  " (spaces (2 * depth) +:+ "  ") (snd kv))
                       members)
            +:+ nl +:+ spaces (2 * depth) +:+ "}").
    change (render (layout depth (JObj members)))
      with ("{" +:+ render_lines
              (separated
                 (map (fun kv =>
                         (S depth, quote (fst kv) +:+ ": "
                                   +:+ fst (layout (S depth) (snd kv)))
                         :: snd (layout (S depth) (snd kv))) members)
               ++ [(depth, "}")])).
    rewrite spaces_next, render_lines_app, render_lines_separated.
    2:{ apply Forall_forall. by intros g (y & -> & _)%list_elem_of_fmap. }
    rewrite map_map.
    rewrite (map_ext_Forall
               (fun kv => render_lines
                            ((S depth, quote (fst kv) +:+ ": "
                                       +:+ fst (layout (S depth) (snd kv)))
                             :: snd (layout (S depth) (snd kv))))
               (fun kv => (nl +:+ spaces (2 * S depth))
                          +:+ (quote (fst kv) +:+ ": "
                               +:+ serialize "  " (spaces (2 * S depth)) (snd kv)))).
    2:{ apply Forall_forall. intros y Hy. rewrite Forall_forall in IH.
        rewrite (IH y Hy (S depth)). unfold render.
        cbn [render_lines fold_right]. unfold render_line. cbn [fst snd].
        by rewrite !append_assoc. }
    rewrite <-(map_map (fun kv => quote (fst kv) +:+ ": "
                                  +:+ serialize "  " (spaces (2 * S depth)) (snd kv))
                 (fun r => (nl +:+ spaces (2 * S depth)) +:+ r)).
    rewrite join_prefixed by done.
    cbn [render_lines fold_right]. unfold render_line. cbn [fst snd].
    by rewrite !append_assoc, append_nil_r.
Qed.

(** The serialization of an object or of an array, followed by a line
    feed, ends with one line feed only. *)
Lemma container_ends_with_one_newline doc :
  match doc with JObj _ | JArr _ => True | _ => False end ->
  ends_with_one_newline (JSON_stringify doc +:+ nl).
Proof.
  unfold JSON_stringify. change "" with (spaces (2 * 0)).
  rewrite serialize_layout. unfold ends_with_one_newline.
  destruct doc as [| | | |[|x xs]|[|kv ms]]; try done; intros _.
  - by exists "[", "]"%char.
  - set (items := x :: xs).
    change (render (layout 0 (JArr items)))
      with ("[" +:+ render_lines
              (separated
                 (map (fun x => (1, fst (layout 1 x)) :: snd (layout 1 x)) items)
               ++ [(0, "]")])).
    rewrite render_lines_app.
    eexists ("[" +:+ render_lines _ +:+ nl), "]"%char. split; [| done].
    cbn [render_lines fold_right]. unfold render_line. cbn [fst snd spaces Nat.mul].
    by rewrite !append_assoc.
  - by exists "{", "}"%char.
  - set (members := kv :: ms).
    change (render (layout 0 (JObj members)))
      with ("{" +:+ render_lines
              (separated
                 (map (fun kv =>
                         (1, quote (fst kv) +:+ ": " +:+ fst (layout 1 (snd kv)))
                         :: snd (layout 1 (snd kv))) members)
               ++ [(0, "}")])).
    rewrite render_lines_app.
    eexists ("{" +:+ render_lines _ +:+ nl), "}"%char. split; [| done].
    cbn [render_lines fold_right]. unfold render_line. cbn [fst snd spaces Nat.mul].
    by rewrite !append_assoc.
Qed.

Lemma JSON_parse_read text doc :
  JSON_parse text = Some doc ->
  exists raw, read_json text = Some raw /\ doc = internalize raw.
Proof.
  unfold JSON_parse. destruct (read_json text) as [raw|]; [| done].
  intros [= <-]. by exists raw.
Qed.

Lemma with_version_keeps version doc doc' :
  with_version version doc = Some doc' ->
  keeps_keys doc doc' /\ match doc' with JObj _ | JArr _ => True | _ => False end.
Proof.
  destruct doc as [| | | |xs|ms]; try done; intros [= <-]; [done |].
  split; [| done]. split; [apply keys_with_version |].
  intros k Hk. left. rewrite obj_get_set. by destruct (String.eqb_spec "version" k).
Qed.

Lemma rewritten_keeps version doc doc' :
  rewritten version doc = Some doc' ->
  keeps_keys doc doc' /\ match doc' with JObj _ | JArr _ => True | _ => False end.
Proof.
  destruct doc as [| | | |xs|ms]; try done.
  { by intros [= <-]. }
  destruct (rewritten_obj version ms) as (ms' & -> & Hkeys & _ & Hdeps & Hother).
  intros [= <-]. split; [| done]. split; [done |]. intros k Hk.
  destruct (decide (k ∈ depTypes)) as [Hdep | Hdep]; [| left; by apply Hother].
  rewrite (Hdeps k Hdep).
  destruct (obj_get ms k) as [[| | | | |deps]|]; try (by left).
  right. split; [done |].
  destruct (update_dependencies_obj version deps) as (deps' & Hdeps' & Hkeys' & _).
  exists deps, deps'. split; [done |]. split; [| done].
  cbn [fmap option_fmap option_map]. by rewrite Hdeps'.
Qed.




(* ================================================================== *)
(** * The steps of a run, one by one *)
(* ================================================================== *)

Section Steps.
Context {G : Type} `{Shell G}.

(** [bump] is the search of the root, the two checks, and the steps
    shared with the older copy. *)
Lemma bump_shared dirname version :
  bump dirname version =
    (projectRoot ← findProjectRoot dirname;
     status ← execSync STATUS;
     when (negb (trim_is_empty status))
       (console_error "Error: There are uncommitted changes in the repository";;
        console_error "Please commit or stash your changes before running this script";;
        process_exit 1);;
     listed ← execSync ("git tag -l " +:+ "v" +:+ version);
     when (negb (trim_is_empty listed))
       (console_error ("Error: Git tag " +:+ dquote +:+ ("v" +:+ version) +:+ dquote
                       +:+ " already exists");;
        process_exit 1);;
     update_and_commit [("bundle", projectRoot ++ ["bundle"])] ADD projectRoot version).
Proof. reflexivity. Qed.

Lemma forEach_ext {A} (xs : list A) (f g : A -> action G unit) :
  (forall x w, f x w = g x w) -> forall w, forEach xs f w = forEach xs g w.
Proof.
  intros Hfg. induction xs as [|x xs IH]; intros w; [done |].
  cbn [forEach]. rewrite !bind_run, Hfg. by destruct (g x w) as [[[]| |] w1].
Qed.

Lemma forEach_map {A B} (h : A -> B) (xs : list A) (f : B -> action G unit) w :
  forEach (map h xs) f w = forEach xs (fun x => f (h x)) w.
Proof.
  revert w. induction xs as [|x xs IH]; intros w; [done |].
  cbn [map forEach]. rewrite !bind_run. by destruct (f (h x) w) as [[[]| |] w1].
Qed.

(** The older copy is the search of the root followed by the same
    steps, with no package besides the ones of [packages/]. *)
Lemma variant_bump_shared dirname version (w : world G) :
  Variant.bump dirname version w =
    (projectRoot ← findProjectRoot dirname;
     update_and_commit [] Variant.ADD projectRoot version) w.
Proof.
  unfold Variant.bump, update_and_commit. rewrite !bind_run.
  destruct (findProjectRoot dirname w) as [[root| |] w0]; [| done..].
  cbn zeta. rewrite !bind_run. cbn [current_files]. rewrite !bind_run.
  match goal with
  | |- match ?m w0 with _ => _ end = _ => destruct (m w0) as [[old| |] w1]; [| done..]
  end.
  rewrite !bind_run.
  destruct (readdirSync (root ++ ["packages"]) w1) as [[names| |] w2]; [| done..].
  rewrite !bind_run. cbn [current_files]. rewrite !bind_run, app_nil_r, forEach_map.
  match goal with
  | |- match forEach ?l ?f w2 with _ => _ end = match forEach ?l ?g w2 with _ => _ end =>
      rewrite (forEach_ext l f g); [done |]
  end.
  intros pkg w3. cbn [fst snd]. by rewrite <-!app_assoc.
Qed.

(** The loop ends normally when every manifest it finds can be
    rewritten. *)
Lemma forEach_packages_returns version (pkgs : list (string * list string))
  (w : world G) :
  NoDup (map (fun pkg : string * list string => snd pkg ++ ["package.json"]) pkgs) ->
  (forall p,
     p ∈ map (fun pkg : string * list string => snd pkg ++ ["package.json"]) pkgs ->
     existsSync (files w) p = true ->
     exists t t', files w !! p = Some (File t) /\ package_text version t = Some t') ->
  exists w',
    forEach pkgs (fun '(name, dir) =>
      let packageFile := dir ++ ["package.json"] in
      files ← current_files;
      if existsSync files packageFile
      then updatePackageJsonFile packageFile name version
      else mret tt) w = (Returned tt, w').
Proof.
  revert w. induction pkgs as [|[name dir] pkgs IH]; intros w Hnodup Hfine.
  { by eexists. }
  cbn [map snd] in Hnodup, Hfine. apply NoDup_cons in Hnodup as [Hfresh Hnodup].
  cbn [forEach]. rewrite !bind_run. cbn [current_files].
  destruct (existsSync (files w) (dir ++ ["package.json"])) eqn:Hexists.
  - destruct (Hfine (dir ++ ["package.json"])) as (t & t' & Ht & Ht');
      [by left | done |].
    pose proof (updatePackageJsonFile_run (dir ++ ["package.json"]) name version w)
      as Hupdate.
    rewrite Ht, Ht' in Hupdate. rewrite Hupdate. apply IH; [done |].
    cbn [files]. intros p Hp Hex.
    assert (Hne : dir ++ ["package.json"] <> p) by (by intros <-).
    rewrite lookup_insert_ne by done. apply Hfine; [by right |].
    unfold existsSync in *. by rewrite lookup_insert_ne in Hex.
  - cbn [mret action_ret]. apply IH; [done |]. intros p Hp. apply Hfine. by right.
Qed.

(** The history of the loop over the packages: for some of the
    packages, in the order of the list, the write of the manifest
    followed by the line that reports it, and nothing else. *)
Lemma forEach_packages_events version (pkgs : list (string * list string))
  (w : world G) o w' :
  forEach pkgs (fun '(name, dir) =>
    let packageFile := dir ++ ["package.json"] in
    files ← current_files;
    if existsSync files packageFile
    then updatePackageJsonFile packageFile name version
    else mret tt) w = (o, w') ->
  exists updated,
    trace w' = rev (flat_map package_events updated) ++ trace w /\
    map fst updated `sublist_of` pkgs.
Proof.
  revert w. induction pkgs as [|[name dir] pkgs IH]; intros w Hrun.
  { injection Hrun as <- <-. by exists []. }
  cbn [forEach] in Hrun. rewrite !bind_run in Hrun. cbn [current_files] in Hrun.
  destruct (existsSync (files w) (dir ++ ["package.json"])).
  - pose proof (updatePackageJsonFile_run (dir ++ ["package.json"]) name version w)
      as Hupdate.
    destruct (files w !! (dir ++ ["package.json"])) as [[text|]|];
      [destruct (package_text version text) as [text'|] | |].
    + rewrite Hupdate in Hrun. destruct (IH _ Hrun) as (updated & Htrace & Hsub).
      exists ((name, dir, text') :: updated). split.
      * rewrite Htrace. cbn [flat_map trace]. rewrite rev_app_distr, <-app_assoc.
        done.
      * by apply sublist_skip.
    + destruct Hupdate as [msg Hupdate]. rewrite Hupdate in Hrun.
      injection Hrun as <- <-. exists []. split; [done |]. apply sublist_nil_l.
    + destruct Hupdate as [msg Hupdate]. rewrite Hupdate in Hrun.
      injection Hrun as <- <-. exists []. split; [done |]. apply sublist_nil_l.
    + destruct Hupdate as [msg Hupdate]. rewrite Hupdate in Hrun.
      injection Hrun as <- <-. exists []. split; [done |]. apply sublist_nil_l.
  - cbn [mret action_ret] in Hrun. destruct (IH _ Hrun) as (updated & Htrace & Hsub).
    exists updated. split; [done |]. by apply sublist_cons.
Qed.

(** Staging, commit and tag write no file, print no error and never
    exit.  They end normally after the three commands, or throw after
    the first command that fails, or after the staging when the old
    version cannot be printed. *)
Lemma stage_commit_tag_run add oldVersion version (w : world G) o w' :
  stage_commit_tag add oldVersion version w = (o, w') ->
  files w' = files w /\
  exists later,
    trace w' = later ++ trace w /\
    ((o = Returned tt /\
      exists old,
        template_string_opt oldVersion = Some old /\
        later =
          [Stdout (nl +:+ "Successfully updated all packages from " +:+ old
                   +:+ " to " +:+ version);
           Stdout ("Created git tag " +:+ "v" +:+ version);
           Exec ("git tag " +:+ "v" +:+ version);
           Stdout "Committed changes on affected files";
           Exec (commit_command old version);
           Exec add]) \/
     (exists msg,
        o = Thrown msg /\
        (later = [Exec add] \/
         exists old,
           template_string_opt oldVersion = Some old /\
           (later = [Exec (commit_command old version); Exec add] \/
            later = [Exec ("git tag " +:+ "v" +:+ version);
                     Stdout "Committed changes on affected files";
                     Exec (commit_command old version);
                     Exec add])))).
Proof.
  unfold stage_commit_tag. rewrite bind_run. unfold execSync at 1.
  destruct (run_command add (files w) (vcs w)) as [[output|msg] g1].
  2:{ intros [= <- <-]. split; [done |]. exists [Exec add]. split; [done |].
      right. eexists. split; [done |]. by left. }
  rewrite bind_run. unfold template.
  destruct (template_string_opt oldVersion) as [old|].
  2:{ intros [= <- <-]. split; [done |]. exists [Exec add]. split; [done |].
      right. eexists. split; [done |]. by left. }
  cbn [mret action_ret files vcs trace]. rewrite bind_run. unfold execSync at 1.
  cbn [files vcs trace].
  destruct (run_command (commit_command old version) (files w) g1) as [[out2|msg] g2].
  2:{ intros [= <- <-]. split; [done |]. eexists [_; _]. split; [done |].
      right. eexists. split; [done |]. right. exists old. split; [done |]. by left. }
  rewrite bind_run. cbn [console_log emit files vcs trace].
  rewrite bind_run. unfold execSync at 1. cbn [files vcs trace].
  destruct (run_command ("git tag " +:+ "v" +:+ version) (files w) g2) as [[out3|msg] g3].
  2:{ intros [= <- <-]. split; [done |]. eexists [_; _; _; _]. split; [done |].
      right. eexists. split; [done |]. right. exists old. split; [done |]. by right. }
  intros [= <- <-]. split; [done |]. eexists [_; _; _; _; _; _]. split; [done |].
  left. split; [done |]. by exists old.
Qed.

(** The steps from the root manifest on.  Either the root manifest
    cannot be rewritten, and the steps throw with nothing done.  Or it
    is rewritten; then the packages are gone through, with no command
    run; and when that loop ends normally the staging, the commit and
    the tag follow. *)
Lemma update_and_commit_run extra add root version (w : world G) o w' :
  existsSync (files w) (root ++ ["package.json"]) = true ->
  (forall dirs : list string,
     NoDup dirs ->
     NoDup (map (fun pkg : string * list string => snd pkg ++ ["package.json"])
              (map (fun pkg => (pkg, (root ++ ["packages"]) ++ [pkg])) dirs ++ extra))) ->
  update_and_commit extra add root version w = (o, w') ->
  ((forall text, files w !! (root ++ ["package.json"]) = Some (File text) ->
      root_text version text = None) /\
   exists msg, o = Thrown msg /\ w' = w) \/
  (exists text text' doc o1 w1 loop,
     let files1 := <[root ++ ["package.json"] := File text']> (files w) in
     files w !! (root ++ ["package.json"]) = Some (File text) /\
     JSON_parse text = Some doc /\
     root_text version text = Some text' /\
     vcs w1 = vcs w /\
     trace w1 =
       loop ++ Stdout ("Updated root package.json to " +:+ version)
            :: Write (root ++ ["package.json"]) text' :: trace w /\
     commands loop = [] /\ stderr loop = [] /\ NoDup (written loop) /\
     (forall p, p ∉ written loop -> files w1 !! p = files1 !! p) /\
     (forall p, p ∈ written loop ->
        p ∈ listed_manifests files1 root extra /\
        exists t t',
          files1 !! p = Some (File t) /\
          package_text version t = Some t' /\
          files w1 !! p = Some (File t')) /\
     (o1 = Returned tt ->
      forall p, p ∈ listed_manifests files1 root extra ->
        existsSync files1 p = true -> p ∈ written loop) /\
     (o1 = Returned tt -> files w !! (root ++ ["packages"]) = Some Dir) /\
     (files w !! (root ++ ["packages"]) = Some Dir ->
      (forall p, p ∈ listed_manifests files1 root extra ->
         existsSync files1 p = true ->
         exists t t', files1 !! p = Some (File t) /\ package_text version t = Some t') ->
      o1 = Returned tt) /\
     (exists updated,
        loop = rev (flat_map package_events updated) /\
        map fst updated `sublist_of` listed_packages files1 root extra) /\
     match o1 with
     | Returned _ =>
         stage_commit_tag add (member doc "version") version w1 = (o, w')
     | Thrown msg => o = Thrown msg /\ w' = w1
     | Exited _ => False
     end).
Proof.
  intros Hmanifest Hnodup. unfold update_and_commit. cbn zeta.
  rewrite bind_run. cbn [current_files]. rewrite Hmanifest, bind_run.
  pose proof (root_update_run (root ++ ["package.json"]) version w) as Hupdate.
  cbv zeta in Hupdate.
  destruct (files w !! (root ++ ["package.json"])) as [[text|]|] eqn:Htext;
    [destruct (root_text version text) as [text'|] eqn:Hroot_text | |];
    [destruct Hupdate as (doc & Hdoc & Hupdate) | destruct Hupdate as [msg Hupdate]..];
    rewrite Hupdate.
  2:{ intros [= <- <-]. left. split; [| by eexists]. by intros ? [= <-]. }
  2,3: intros [= <- <-]; left; split; [done | by eexists].
  intros Hrun. right.
  set (files1 := <[root ++ ["package.json"] := File text']> (files w)) in *.
  rewrite bind_run in Hrun. unfold readdirSync at 1 in Hrun.
  cbn [files vcs trace] in Hrun. unfold files1 in Hrun at 1.
  rewrite lookup_insert_ne in Hrun by (by intros [=]%app_inv_head).
  assert (Hstopped : forall msg,
    files w !! (root ++ ["packages"]) <> Some Dir ->
    (o, w') =
      (Thrown msg,
       World files1 (vcs w)
         (Stdout ("Updated root package.json to " +:+ version)
          :: Write (root ++ ["package.json"]) text' :: trace w)) ->
    exists text0 text'0 doc0 (o1 : outcome unit) (w1 : world G) loop,
      Some (File text) = Some (File text0) /\
      JSON_parse text0 = Some doc0 /\
      root_text version text0 = Some text'0 /\
      vcs w1 = vcs w /\
      trace w1 =
        loop ++ Stdout ("Updated root package.json to " +:+ version)
             :: Write (root ++ ["package.json"]) text'0 :: trace w /\
      commands loop = [] /\ stderr loop = [] /\ NoDup (written loop) /\
      (forall p, p ∉ written loop ->
         files w1 !! p = <[root ++ ["package.json"] := File text'0]> (files w) !! p) /\
      (forall p, p ∈ written loop ->
         p ∈ listed_manifests (<[root ++ ["package.json"] := File text'0]> (files w))
               root extra /\
         exists t t',
           <[root ++ ["package.json"] := File text'0]> (files w) !! p = Some (File t) /\
           package_text version t = Some t' /\
           files w1 !! p = Some (File t')) /\
      (o1 = Returned tt ->
       forall p,
         p ∈ listed_manifests (<[root ++ ["package.json"] := File text'0]> (files w))
               root extra ->
         existsSync (<[root ++ ["package.json"] := File text'0]> (files w)) p = true ->
         p ∈ written loop) /\
      (o1 = Returned tt -> files w !! (root ++ ["packages"]) = Some Dir) /\
      (files w !! (root ++ ["packages"]) = Some Dir ->
       (forall p,
          p ∈ listed_manifests (<[root ++ ["package.json"] := File text'0]> (files w))
                root extra ->
          existsSync (<[root ++ ["package.json"] := File text'0]> (files w)) p = true ->
          exists t t',
            <[root ++ ["package.json"] := File text'0]> (files w) !! p = Some (File t) /\
            package_text version t = Some t') ->
       o1 = Returned tt) /\
      (exists updated,
         loop = rev (flat_map package_events updated) /\
         map fst updated
           `sublist_of` listed_packages
                          (<[root ++ ["package.json"] := File text'0]> (files w))
                          root extra) /\
      match o1 with
      | Returned _ =>
          stage_commit_tag add (member doc0 "version") version w1 = (o, w')
      | Thrown msg => o = Thrown msg /\ w' = w1
      | Exited _ => False
      end).
  { intros msg Hnodir [= -> ->]. exists text, text', doc, (Thrown msg).
    exists (World files1 (vcs w)
              (Stdout ("Updated root package.json to " +:+ version)
               :: Write (root ++ ["package.json"]) text' :: trace w)), [].
    do 3 (split; [done |]). split; [done |]. split; [done |].
    do 2 (split; [done |]). split; [constructor |]. split; [done |].
    split; [by intros p ?%elem_of_nil |]. split; [discriminate |].
    split; [discriminate |]. split; [done |].
    split; [| done]. exists []. split; [done |]. apply sublist_nil_l. }
  destruct (files w !! (root ++ ["packages"])) as [[?|]|] eqn:Hdir.
  1,3: by eapply Hstopped.
  clear Hstopped.
  rewrite bind_run in Hrun. cbn [current_files files] in Hrun.
  rewrite bind_run in Hrun.
  match type of Hrun with
  | context [forEach ?l ?f ?w0] => destruct (forEach l f w0) as [o1 w1] eqn:Hloop
  end.
  pose proof (forEach_packages_events _ _ _ _ _ Hloop) as (updated & Hevents & Hsub).
  assert (Hreturns :
    (forall p, p ∈ listed_manifests files1 root extra ->
       existsSync files1 p = true ->
       exists t t', files1 !! p = Some (File t) /\ package_text version t = Some t') ->
    o1 = Returned tt).
  { intros Hfine.
    match type of Hloop with
    | forEach ?l ?f ?w0 = _ =>
        assert (exists w1', forEach l f w0 = (Returned tt, w1')) as [w1' Hreturned]
    end.
    { apply forEach_packages_returns; [| exact Hfine].
      apply Hnodup. apply NoDup_filter, NoDup_entries. }
    rewrite Hreturned in Hloop. by injection Hloop as <- _. }
  apply forEach_packages in Hloop
    as (Hvcs & Hexit & loop & Htrace & Hcmd & Herr & Hnd & Hframe & Hwrote & Hall).
  2:{ apply Hnodup. apply NoDup_filter, NoDup_entries. }
  cbn [files vcs trace] in *.
  exists text, text', doc, o1, w1, loop.
  do 3 (split; [done |]). do 5 (split; [done |]). split; [done |].
  split; [done |]. split; [done |]. split; [done |]. split; [done |]. split.
  { exists updated. split; [| done]. rewrite Htrace in Hevents.
    by apply app_inv_tail in Hevents. }
  destruct o1 as [[]|code|msg]; [done | by destruct (Hexit code) |].
  by injection Hrun as <- <-.
Qed.

End Steps.

(* ================================================================== *)
(** * The search of the project root *)
(* ================================================================== *)

Lemma findProjectRoot_from_spec (files : gmap (list string) node) l :
  match findProjectRoot_from files l with
  | Some root =>
      exists skipped,
        l = skipped ++ rev root /\ root <> [] /\
        is_project_root files root = true /\
        forall s1 s2, skipped = s1 ++ s2 -> s2 <> [] ->
          is_project_root files (rev (s2 ++ rev root)) = false
  | None =>
      forall s1 s2, l = s1 ++ s2 -> s2 <> [] -> is_project_root files (rev s2) = false
  end.
Proof.
  induction l as [|x parent IH].
  - intros s1 s2 Hl Hs2. symmetry in Hl. by apply app_eq_nil in Hl as [_ ->].
  - cbn [findProjectRoot_from].
    fold (is_project_root files (rev (x :: parent))).
    destruct (is_project_root files (rev (x :: parent))) eqn:Hhere.
    + exists []. split; [by rewrite rev_involutive |]. split.
      * intros Hnil. apply (f_equal (@rev string)) in Hnil.
        by rewrite rev_involutive in Hnil.
      * split; [done |]. intros s1 s2 Hs Hs2. symmetry in Hs.
        by apply app_eq_nil in Hs as [_ ->].
    + destruct (findProjectRoot_from files parent) as [root|].
      * destruct IH as (skipped & -> & Hroot & Hboth & Hdeeper).
        exists (x :: skipped). do 3 (split; [done |]).
        intros [|y s1] s2 Hs Hs2.
        -- cbn [app] in Hs. subst s2. exact Hhere.
        -- injection Hs as -> ->. by apply Hdeeper with s1.
      * intros [|y s1] s2 Hs Hs2.
        -- cbn [app] in Hs. by subst s2.
        -- injection Hs as -> ->. by apply IH with s1.
Qed.

(** X1.  [findProjectRoot] returns the innermost directory, from the one of
    the script up to but not including the root of the file system,
    that holds both [package.json] and [packages]; it throws when there
    is none.  It changes nothing. *)
Theorem findProjectRoot_innermost {G : Type} `{Shell G}
  (dirname : list string) (w : world G) :
  match findProjectRoot dirname w with
  | (Returned root, w') =>
      w' = w /\ root <> [] /\
      is_project_root (files w) root = true /\
      exists below,
        dirname = root ++ below /\
        forall deeper rest, below = deeper ++ rest -> deeper <> [] ->
          is_project_root (files w) (root ++ deeper) = false
  | (Thrown msg, w') =>
      w' = w /\
      msg = "Could not find project root (looking for package.json and packages/ directory)" /\
      forall dir rest, dirname = dir ++ rest -> dir <> [] ->
        is_project_root (files w) dir = false
  | (Exited _, _) => False
  end.
Proof.
  unfold findProjectRoot. rewrite bind_run. cbn [current_files].
  pose proof (findProjectRoot_from_spec (files w) (rev dirname)) as Hspec.
  destruct (findProjectRoot_from (files w) (rev dirname)) as [root|].
  - destruct Hspec as (skipped & Hl & Hroot & Hboth & Hdeeper).
    cbn [mret action_ret]. do 3 (split; [done |]).
    exists (rev skipped). split.
    + rewrite <-(rev_involutive dirname), Hl, rev_app_distr.
      by rewrite rev_involutive.
    + intros deeper rest Hbelow Hne.
      specialize (Hdeeper (rev rest) (rev deeper)).
      rewrite rev_app_distr, !rev_involutive in Hdeeper. apply Hdeeper.
      * by rewrite <-rev_app_distr, <-Hbelow, rev_involutive.
      * intros Hnil. apply (f_equal (@rev string)) in Hnil.
        by rewrite rev_involutive in Hnil.
  - cbn [throw]. do 2 (split; [done |]). intros dir rest Hdir Hne.
    specialize (Hspec (rev rest) (rev dir)). rewrite rev_involutive in Hspec.
    apply Hspec.
    + by rewrite Hdir, rev_app_distr.
    + intros Hnil. apply (f_equal (@rev string)) in Hnil.
      by rewrite rev_involutive in Hnil.
Qed.

(** X2.  Without a project root above the script, a run with a version of
    the grammar exits with code 1 after one line on the error stream,
    with no command run and no file touched.  The root of the file
    system does not count, whatever it holds. *)
Theorem run_without_project_root {G : Type} `{Shell G}
  (dirname args : list string) (version : string)
  (disk : gmap (list string) node) (g : G) :
  help_requested args = false -> head args = Some version ->
  Regex.test SEMVER version = true ->
  findProjectRoot_from disk (rev dirname) = None ->
  run dirname args disk g
  = (Exited 1,
     World disk g
       [Stderr ("Error: " +:+
                "Could not find project root (looking for package.json and packages/ directory)")]).
Proof.
  intros Hhelp Hhead Hversion Hroot. unfold run.
  rewrite main_verdict, (verdict_proceed _ _ Hhelp Hhead Hversion).
  unfold try_catch, bump, findProjectRoot. rewrite !bind_run.
  cbn [current_files files]. by rewrite Hroot.
Qed.

Lemma run_without_project_root_witness :
  run ["opt"; "tools"] ["2.0.0"]
      (list_to_map [(["package.json"], File "{}"); (["packages"], Dir);
                    (["opt"], Dir); (["opt"; "tools"], Dir)])
      Example.repo
  = (Exited 1,
     World (list_to_map [(["package.json"], File "{}"); (["packages"], Dir);
                         (["opt"], Dir); (["opt"; "tools"], Dir)])
       Example.repo
       [Stderr ("Error: " +:+
                "Could not find project root (looking for package.json and packages/ directory)")]).
Proof.
  apply (run_without_project_root ["opt"; "tools"] ["2.0.0"] "2.0.0");
    vm_compute; reflexivity.
Defined.

(* ================================================================== *)
(** * The characters of a version *)
(* ================================================================== *)

Lemma is_digit_ident c : is_digit c = true -> is_ident_char c = true.
Proof.
  unfold is_digit, is_ident_char. intros ->. by rewrite orb_true_r.
Qed.

Lemma forallb_weaken {A} (p q : A -> bool) (l : list A) :
  (forall x, p x = true -> q x = true) ->
  forallb p l = true -> forallb q l = true.
Proof.
  intros Hpq. induction l as [|x l IH]; [done |]. cbn [forallb].
  intros [Hx Hl]%andb_true_iff. by rewrite (Hpq _ Hx), IH.
Qed.

Lemma forallb_dotted segs :
  Forall segment segs ->
  forallb (fun c => is_ident_char c || Ascii.eqb c ".") (dotted segs) = true.
Proof.
  induction 1 as [|u segs [_ Hu] Hsegs IH]; [done |].
  assert (Hu' : forallb (fun c => is_ident_char c || Ascii.eqb c ".") u = true).
  { eapply forallb_weaken; [| exact Hu]. by intros c ->. }
  destruct segs as [|v segs]; [done |].
  change (dotted (u :: v :: segs)) with (u ++ "."%char :: dotted (v :: segs)).
  rewrite forallb_app, Hu'. cbn [forallb andb]. by rewrite IH, orb_true_r.
Qed.

(** X3.  A version the script accepts starts with a digit and is made of
    ASCII letters, digits, dots and hyphens only: it holds no space, no
    quote and no character to which the shell gives a meaning, so the
    commands built from it are the ones the script spells out. *)
Theorem accepted_version_characters (s : string) :
  Regex.test SEMVER s = true ->
  (exists c rest, s = String c rest /\ is_digit c = true) /\
  forallb (fun c => is_ident_char c || Ascii.eqb c ".") (list_ascii_of_string s) = true.
Proof.
  intros (major & minor & patch & pre & [Hmaj Hmajor] & [_ Hminor] & [_ Hpatch]
          & Hpre & Hs)%SEMVER_grammar.
  split.
  - destruct major as [|c major]; [done |]. destruct s as [|c' rest]; [done |].
    cbn in Hs. injection Hs as -> _. exists c, rest. split; [done |].
    cbn [forallb] in Hmajor. by apply andb_true_iff in Hmajor as [? _].
  - rewrite Hs.
    assert (Hweak : forall u, forallb is_digit u = true ->
              forallb (fun c => is_ident_char c || Ascii.eqb c ".") u = true).
    { intros u. apply forallb_weaken. intros c Hc. by rewrite (is_digit_ident _ Hc). }
    rewrite forallb_app, (Hweak _ Hmajor). cbn [forallb andb].
    rewrite forallb_app, (Hweak _ Hminor). cbn [forallb andb].
    rewrite forallb_app, (Hweak _ Hpatch). cbn [andb].
    destruct Hpre as [-> | (segs & _ & Hsegs & ->)]; [done |].
    cbn [forallb]. by rewrite (forallb_dotted _ Hsegs).
Qed.

Lemma accepted_version_characters_witness :
  (exists c rest, "6.1.19-a11y.1" = String c rest /\ is_digit c = true) /\
  forallb (fun c => is_ident_char c || Ascii.eqb c ".")
          (list_ascii_of_string "6.1.19-a11y.1") = true.
Proof.
  apply (accepted_version_characters "6.1.19-a11y.1"). vm_compute. reflexivity.
Defined.

(* ================================================================== *)
(** * What reaches the error stream *)
(* ================================================================== *)

Section Orderly.
Context {G : Type} `{Shell G}.

Lemma orderly_ret {A} (a : A) : orderly (mret a : action G A).
Proof. intros w o w' [= <- <-]. by exists []. Qed.

Lemma orderly_bind {A B} (m : action G A) (k : A -> action G B) :
  orderly m -> (forall a, orderly (k a)) -> orderly (m ≫= k).
Proof.
  intros Hm Hk w o w' Hrun. rewrite bind_run in Hrun.
  destruct (m w) as [[a|code|msg] w1] eqn:Hmw;
    destruct (Hm _ _ _ Hmw) as (new1 & Hnew1 & Hquiet1).
  - destruct (Hk a _ _ _ Hrun) as (new & Hnew & Hquiet).
    exists (new ++ new1). split; [by rewrite Hnew, Hnew1, app_assoc |].
    destruct o as [b|code|msg].
    + by rewrite stderr_app, Hquiet1, Hquiet.
    + destruct Hquiet as (line & rest & ->). by exists line, (rest ++ new1).
    + by rewrite stderr_app, Hquiet1, Hquiet.
  - injection Hrun as <- <-. by exists new1.
  - injection Hrun as <- <-. by exists new1.
Qed.

Lemma orderly_throw {A} msg : orderly (throw msg : action G A).
Proof. intros w o w' [= <- <-]. by exists []. Qed.

Lemma orderly_console_log text : orderly (console_log text : action G unit).
Proof. intros w o w' [= <- <-]. by exists [Stdout text]. Qed.

(** The two blocks that print an error and exit. *)
Lemma orderly_when_exit b line :
  orderly (when b (console_error line;; process_exit 1) : action G unit).
Proof.
  destruct b; [| apply orderly_ret].
  intros w o w' [= <- <-]. exists [Stderr line]. split; [done |]. by eexists _, _.
Qed.

Lemma orderly_when_exit_2 b line1 line2 :
  orderly (when b (console_error line1;; console_error line2;; process_exit 1)
           : action G unit).
Proof.
  destruct b; [| apply orderly_ret].
  intros w o w' [= <- <-]. exists [Stderr line2; Stderr line1]. split; [done |].
  by eexists _, _.
Qed.

Lemma orderly_current_files : orderly (current_files : action G _).
Proof. intros w o w' [= <- <-]. by exists []. Qed.

Lemma orderly_readFileSync p : orderly (readFileSync p : action G _).
Proof.
  intros w o w'. unfold readFileSync.
  destruct (files w !! p) as [[?|]|]; intros [= <- <-]; by exists [].
Qed.

Lemma orderly_writeFileSync p text : orderly (writeFileSync p text : action G _).
Proof.
  intros w o w'. unfold writeFileSync.
  destruct (files w !! p) as [[?|]|]; intros [= <- <-];
    first [by exists [Write p text] | by exists []].
Qed.

Lemma orderly_readdirSync dir : orderly (readdirSync dir : action G _).
Proof.
  intros w o w'. unfold readdirSync.
  destruct (files w !! dir) as [[?|]|]; intros [= <- <-]; by exists [].
Qed.

Lemma orderly_execSync command : orderly (execSync command).
Proof.
  intros w o w'. unfold execSync.
  destruct (run_command command (files w) (vcs w)) as [[out|msg] g'];
    intros [= <- <-]; by exists [Exec command].
Qed.

Lemma orderly_parse text : orderly (parse text : action G _).
Proof.
  unfold parse. destruct (JSON_parse text); [apply orderly_ret | apply orderly_throw].
Qed.

Lemma orderly_get_member doc k : orderly (get_member doc k : action G _).
Proof. destruct doc; first [apply orderly_ret | apply orderly_throw]. Qed.

Lemma orderly_set_member doc k v : orderly (set_member doc k v : action G _).
Proof. destruct doc; first [apply orderly_ret | apply orderly_throw]. Qed.

Lemma orderly_template v : orderly (template v : action G _).
Proof.
  unfold template.
  destruct (template_string_opt v); [apply orderly_ret | apply orderly_throw].
Qed.

Lemma orderly_forEach {A} (xs : list A) (f : A -> action G unit) :
  (forall x, orderly (f x)) -> orderly (forEach xs f).
Proof.
  intros Hf. induction xs as [|x xs IH]; cbn [forEach].
  - apply orderly_ret.
  - apply orderly_bind; [apply Hf | by intros _].
Qed.

End Orderly.

Create HintDb orderly discriminated.
#[global] Hint Resolve orderly_ret orderly_throw orderly_console_log
  orderly_when_exit orderly_when_exit_2 orderly_current_files
  orderly_readFileSync orderly_writeFileSync orderly_readdirSync
  orderly_execSync orderly_parse orderly_get_member orderly_set_member
  orderly_template : orderly.

Ltac orderly_steps :=
  repeat first
    [ progress intros
    | solve [auto with orderly]
    | apply orderly_bind
    | apply orderly_forEach
    | match goal with
      | |- orderly (if ?b then _ else _) => destruct b
      | |- orderly (match ?x with _ => _ end) => destruct x
      | |- orderly (let _ := _ in _) => cbv zeta
      end ].

Lemma orderly_bump {G : Type} `{Shell G} dirname version :
  orderly (bump dirname version).
Proof. unfold bump, findProjectRoot, updatePackageJsonFile. orderly_steps. Qed.

(** X4.  A run never lets an exception escape.  It ends normally, with
    nothing on the error stream; or it exits with code 0, which it does
    only for the help, with nothing on the error stream either; or it
    exits with code 1, and then the last thing it did was to print a
    line on the error stream. *)
Theorem failures_are_reported {G : Type} `{Shell G}
  (dirname args : list string) (disk : gmap (list string) node) (g : G)
  (o : outcome unit) (w' : world G) :
  run dirname args disk g = (o, w') ->
  match o with
  | Returned _ => help_requested args = false /\ stderr (trace w') = []
  | Exited code =>
      (code = 0 /\ help_requested args = true /\ stderr (trace w') = []) \/
      (code = 1 /\ help_requested args = false /\
       exists line rest, trace w' = Stderr line :: rest)
  | Thrown _ => False
  end.
Proof.
  unfold run. rewrite main_verdict. unfold verdict_of.
  destruct (help_requested args).
  { intros [= <- <-]. left. by vm_compute. }
  destruct (head args) as [[|c v]|].
  1,3: intros [= <- <-]; right; do 2 (split; [done |]); by eexists _, _.
  destruct (Regex.test SEMVER (String c v)).
  2:{ intros [= <- <-]. right. do 2 (split; [done |]). by eexists _, _. }
  unfold try_catch.
  destruct (bump dirname (String c v) (World disk g [])) as [o1 w1] eqn:Hbump.
  destruct (orderly_bump _ _ _ _ _ Hbump) as (new & Hnew & Hquiet).
  cbn [trace] in Hnew. rewrite app_nil_r in Hnew.
  destruct (tame_bump _ _ _ _ _ Hbump) as [Hcode _].
  destruct o1 as [[]|code|msg].
  - intros [= <- <-]. by rewrite Hnew.
  - intros [= <- <-]. right. split; [by apply Hcode |]. split; [done |].
    by rewrite Hnew.
  - intros [= <- <-]. right. do 2 (split; [done |]). by eexists _, _.
Qed.

Lemma failures_are_reported_witness :
  (1 = 0 /\ help_requested ["1.0.0"] = true /\
   stderr (trace (snd (run Example.dirname ["1.0.0"] Example.disk Example.repo))) = []) \/
  (1 = 1 /\ help_requested ["1.0.0"] = false /\
   exists line rest,
     trace (snd (run Example.dirname ["1.0.0"] Example.disk Example.repo))
     = Stderr line :: rest).
Proof.
  apply (failures_are_reported Example.dirname ["1.0.0"] Example.disk Example.repo
           (Exited 1)).
  apply pair_eta. vm_compute. reflexivity.
Defined.

(* ================================================================== *)
(** * The stages of a run *)
(* ================================================================== *)

Lemma package_manifest_listed (disk : gmap (list string) node) root text text' p :
  disk !! (root ++ ["package.json"]) = Some (File text) ->
  is_package_manifest disk root p ->
  p ∈ listed_manifests (<[root ++ ["package.json"] := File text']> disk) root
        [("bundle", root ++ ["bundle"])] /\
  existsSync (<[root ++ ["package.json"] := File text']> disk) p = true.
Proof.
  intros Htext Hp. unfold listed_manifests. rewrite manifests_of_packages.
  destruct Hp as [(name & -> & Hdir & Hex) | [-> Hex]].
  - split.
    + apply elem_of_app. left. apply list_elem_of_fmap. exists name. split; [done |].
      apply list_elem_of_filter. split.
      * apply Is_true_true. rewrite <-app_assoc.
        by rewrite (isDirectory_insert_file _ _ _ text).
      * rewrite elem_of_entries_insert_file
          by (apply existsSync_true; by rewrite Htext).
        apply elem_of_entries. unfold isDirectory in Hdir. rewrite <-app_assoc.
        cbn [app]. by destruct (disk !! (root ++ ["packages"; name])).
    + rewrite existsSync_insert_file; [done |].
      apply existsSync_true. by rewrite Htext.
  - split.
    + apply elem_of_app. right. by apply list_elem_of_singleton.
    + rewrite existsSync_insert_file; [done |].
      apply existsSync_true. by rewrite Htext.
Qed.

(** A run, stage by stage.  Either it stops before it writes anything:
    on its arguments, on the search of the root, on one of the two
    checks or on the root manifest.  Or it rewrites the root manifest,
    goes through the packages, and, when it got to the end of them,
    stages, commits and tags; whatever goes wrong from there on is
    reported, and the run exits with code 1. *)
Lemma run_stages {G : Type} `{Shell G} (dirname args : list string)
  (disk : gmap (list string) node) (g : G) (o : outcome unit) (w' : world G) :
  run dirname args disk g = (o, w') ->
  (files w' = disk /\ written (trace w') = [] /\ stdout (trace w') ⊆ [HELP_TEXT] /\
   (o = Exited 0 /\ help_requested args = true \/
    o = Exited 1 /\ help_requested args = false) /\
   (commands (trace w') = [] \/
    exists version,
      help_requested args = false /\
      head args = Some version /\ Regex.test SEMVER version = true /\
      (commands (trace w') = [STATUS] \/
       commands (trace w') = [STATUS; "git tag -l " +:+ "v" +:+ version]))) \/
  (exists version root status g1 listed g2 text text' doc o1 w1 loop later,
     help_requested args = false /\ head args = Some version /\
     Regex.test SEMVER version = true /\
     findProjectRoot_from disk (rev dirname) = Some root /\
     run_command STATUS disk g = (Ok status, g1) /\
     trim_is_empty status = true /\
     run_command ("git tag -l " +:+ "v" +:+ version) disk g1 = (Ok listed, g2) /\
     trim_is_empty listed = true /\
     disk !! (root ++ ["package.json"]) = Some (File text) /\
     JSON_parse text = Some doc /\
     root_text version text = Some text' /\
     vcs w1 = g2 /\
     trace w1 =
       loop ++ [Stdout ("Updated root package.json to " +:+ version);
                Write (root ++ ["package.json"]) text';
                Exec ("git tag -l " +:+ "v" +:+ version); Exec STATUS] /\
     commands loop = [] /\ stderr loop = [] /\ NoDup (written loop) /\
     files w1 !! (root ++ ["package.json"]) = Some (File text') /\
     (forall p, p <> root ++ ["package.json"] -> p ∉ written loop ->
        files w1 !! p = disk !! p) /\
     (forall p, p ∈ written loop ->
        is_package_manifest disk root p /\
        exists t t',
          disk !! p = Some (File t) /\
          package_text version t = Some t' /\
          files w1 !! p = Some (File t')) /\
     (o1 = Returned tt ->
      forall p, is_package_manifest disk root p -> p ∈ written loop) /\
     (o1 = Returned tt -> disk !! (root ++ ["packages"]) = Some Dir) /\
     (exists updated,
        loop = rev (flat_map package_events updated) /\
        forall name dir text,
          (name, dir, text) ∈ updated ->
          dir = root ++ ["packages"; name] \/
          name = "bundle" /\ dir = root ++ ["bundle"]) /\
     files w' = files w1 /\ trace w' = later ++ trace w1 /\
     match o1 with
     | Returned _ =>
         (o = Returned tt /\
          exists old,
            template_string_opt (member doc "version") = Some old /\
            later =
              [Stdout (nl +:+ "Successfully updated all packages from " +:+ old
                       +:+ " to " +:+ version);
               Stdout ("Created git tag " +:+ "v" +:+ version);
               Exec ("git tag " +:+ "v" +:+ version);
               Stdout "Committed changes on affected files";
               Exec (commit_command old version);
               Exec ADD]) \/
         (o = Exited 1 /\
          exists msg,
            (later = [Stderr ("Error: " +:+ msg); Exec ADD] \/
             exists old,
               template_string_opt (member doc "version") = Some old /\
               (later = [Stderr ("Error: " +:+ msg);
                         Exec (commit_command old version); Exec ADD] \/
                later = [Stderr ("Error: " +:+ msg);
                         Exec ("git tag " +:+ "v" +:+ version);
                         Stdout "Committed changes on affected files";
                         Exec (commit_command old version);
                         Exec ADD])))
     | Thrown msg => o = Exited 1 /\ later = [Stderr ("Error: " +:+ msg)]
     | Exited _ => False
     end).
Proof.
  unfold run. rewrite main_verdict. unfold verdict_of.
  destruct (help_requested args) eqn:Hhelp.
  { intros [= <- <-]. left. do 2 (split; [done |]).
    split; [| split; [by left | by left]].
    intros x Hx. exact Hx. }
  assert (Hearly : forall (w1 : world G),
    files w1 = disk -> written (trace w1) = [] -> stdout (trace w1) = [] ->
    o = Exited 1 ->
    (commands (trace w1) = [] \/
     exists version,
       false = false /\
       head args = Some version /\ Regex.test SEMVER version = true /\
       (commands (trace w1) = [STATUS] \/
        commands (trace w1) = [STATUS; "git tag -l " +:+ "v" +:+ version])) ->
    files w1 = disk /\ written (trace w1) = [] /\ stdout (trace w1) ⊆ [HELP_TEXT] /\
    (o = Exited 0 /\ false = true \/
     o = Exited 1 /\ false = false) /\
    (commands (trace w1) = [] \/
     exists version,
       false = false /\
       head args = Some version /\ Regex.test SEMVER version = true /\
       (commands (trace w1) = [STATUS] \/
        commands (trace w1) = [STATUS; "git tag -l " +:+ "v" +:+ version]))).
  { intros w1 ? ? Hout ? ?. do 2 (split; [done |]). rewrite Hout.
    split; [by intros x ?%elem_of_nil |]. split; [by right | done]. }
  destruct (head args) as [[|c v]|] eqn:Hhead.
  1,3: intros [= <- <-]; left; apply Hearly; try done; by left.
  destruct (Regex.test SEMVER (String c v)) eqn:Hversion.
  2:{ intros [= <- <-]. left. apply Hearly; try done. by left. }
  set (version := String c v) in *.
  unfold try_catch. rewrite bump_shared, bind_run.
  unfold findProjectRoot at 1. rewrite bind_run. cbn [current_files files].
  destruct (findProjectRoot_from disk (rev dirname)) as [root|] eqn:Hroot.
  2:{ intros [= <- <-]. left. apply Hearly; try done. by left. }
  cbn [mret action_ret].
  destruct (findProjectRoot_from_found _ _ _ Hroot) as [Hmanifest Hpackages].
  rewrite bind_run. unfold execSync at 1. cbn [files vcs trace].
  destruct (run_command STATUS disk g) as [[status|msg] g1] eqn:Hstatus.
  2:{ intros [= <- <-]. left. apply Hearly; try done. right. exists version.
      do 3 (split; [done |]). by left. }
  rewrite bind_run.
  destruct (trim_is_empty status) eqn:Hclean.
  2:{ intros [= <- <-]. left. apply Hearly; try done. right. exists version.
      do 3 (split; [done |]). by left. }
  cbn [negb when mret action_ret files vcs trace].
  rewrite bind_run. unfold execSync at 1. cbn [files vcs trace].
  destruct (run_command ("git tag -l " +:+ "v" +:+ version) disk g1)
    as [[listed|msg] g2] eqn:Hlisted.
  2:{ intros [= <- <-]. left. apply Hearly; try done. right. exists version.
      do 3 (split; [done |]). by right. }
  rewrite bind_run.
  destruct (trim_is_empty listed) eqn:Hfree.
  2:{ intros [= <- <-]. left. apply Hearly; try done. right. exists version.
      do 3 (split; [done |]). by right. }
  cbn [negb when mret action_ret files vcs trace].
  match goal with
  | |- context [update_and_commit ?e ?a ?r ?v ?w0] =>
      destruct (update_and_commit e a r v w0) as [o2 w2] eqn:Hsteps
  end.
  apply update_and_commit_run in Hsteps; [| done |].
  2:{ intros dirs Hdirs. rewrite manifests_of_packages. by apply NoDup_manifests. }
  cbn [files vcs trace] in Hsteps.
  destruct Hsteps as [(_ & msg & -> & ->)
    | (text & text' & doc & o1 & w1 & loop & Htext & Hdoc & Htext' & Hvcs & Htrace
       & Hcmd & Herr & Hnd & Hframe & Hwrote & Hall & Hisdir & _
       & (updated & Hloop & Hsub) & Hend)].
  { intros [= <- <-]. left. apply Hearly; try done. right. exists version.
    do 3 (split; [done |]). by right. }
  cbv zeta in Hframe, Hwrote, Hall. intros Hrun. right.
  assert (Hlisted' : forall p, p ∈ written loop ->
    p <> root ++ ["package.json"] /\ is_package_manifest disk root p /\
    exists t t',
      disk !! p = Some (File t) /\ package_text version t = Some t' /\
      files w1 !! p = Some (File t')).
  { intros p Hp. destruct (Hwrote p Hp) as (Hin & t & t' & Ht & Ht' & Hfile).
    unfold listed_manifests in Hin. rewrite manifests_of_packages in Hin.
    destruct (listed_manifest _ _ _ _ _ _ Htext Hin Ht) as (? & ? & ?).
    do 2 (split; [done |]). by exists t, t'. }
  assert (Hstage : files w' = files w1 /\ exists later, trace w' = later ++ trace w1 /\
    match o1 with
    | Returned _ =>
        (o = Returned tt /\
         exists old,
           template_string_opt (member doc "version") = Some old /\
           later =
             [Stdout (nl +:+ "Successfully updated all packages from " +:+ old
                      +:+ " to " +:+ version);
              Stdout ("Created git tag " +:+ "v" +:+ version);
              Exec ("git tag " +:+ "v" +:+ version);
              Stdout "Committed changes on affected files";
              Exec (commit_command old version);
              Exec ADD]) \/
        (o = Exited 1 /\
         exists msg,
           (later = [Stderr ("Error: " +:+ msg); Exec ADD] \/
            exists old,
              template_string_opt (member doc "version") = Some old /\
              (later = [Stderr ("Error: " +:+ msg);
                        Exec (commit_command old version); Exec ADD] \/
               later = [Stderr ("Error: " +:+ msg);
                        Exec ("git tag " +:+ "v" +:+ version);
                        Stdout "Committed changes on affected files";
                        Exec (commit_command old version);
                        Exec ADD])))
    | Thrown msg => o = Exited 1 /\ later = [Stderr ("Error: " +:+ msg)]
    | Exited _ => False
    end).
  { destruct o1 as [[]|code|msg]; [| done |].
    - apply stage_commit_tag_run in Hend
        as (Hfiles & later & Hlater
            & [[-> (old & Hold & ->)] | (msg & -> & Hshape)]).
      + injection Hrun as <- <-. split; [done |]. eexists. split; [done |].
        left. split; [done |]. by exists old.
      + injection Hrun as <- <-. cbn [files trace]. split; [done |].
        exists (Stderr ("Error: " +:+ msg) :: later). rewrite Hlater.
        split; [done |]. right. split; [done |]. exists msg.
        destruct Hshape as [-> | (old & Hold & [-> | ->])].
        * by left.
        * right. exists old. split; [done |]. by left.
        * right. exists old. split; [done |]. by right.
    - destruct Hend as [-> ->]. injection Hrun as <- <-. cbn [files trace].
      split; [done |]. by exists [Stderr ("Error: " +:+ msg)]. }
  destruct Hstage as (Hfiles & later & Hlater & Hshape).
  exists version, root, status, g1, listed, g2, text, text', doc, o1, w1, loop, later.
  do 11 (split; [done |]). do 2 (split; [done |]). do 3 (split; [done |]).
  split; [| split; [| split; [| split; [| split]]]].
  - rewrite Hframe, lookup_insert_eq; [done |].
    intros Hin. by apply Hlisted' in Hin as [? _].
  - intros p Hne Hp. rewrite (Hframe p Hp). apply lookup_insert_ne. by intros <-.
  - intros p Hp. by apply Hlisted' in Hp as (_ & ? & ?).
  - intros -> p Hp.
    destruct (package_manifest_listed _ _ _ text' _ Htext Hp) as [Hin Hex].
    by apply Hall.
  - done.
  - split; [| done]. exists updated. split; [done |]. intros name dir t Hin.
    assert (Hpkg : (name, dir) ∈ map fst updated).
    { apply list_elem_of_fmap. by exists (name, dir, t). }
    eapply sublist_subseteq in Hpkg; [| exact Hsub].
    unfold listed_packages in Hpkg.
    apply elem_of_app in Hpkg
      as [(d & [= -> ->] & _)%list_elem_of_fmap | [= -> ->]%list_elem_of_singleton].
    + left. by rewrite <-app_assoc.
    + by right.
Qed.

(** What follows the loop writes nothing. *)
Lemma written_after_loop (loop later before : list event) root text' version :
  written later = [] ->
  written (later ++ loop ++
           [Stdout ("Updated root package.json to " +:+ version);
            Write (root ++ ["package.json"]) text';
            Exec ("git tag -l " +:+ "v" +:+ version); Exec STATUS])
  = (root ++ ["package.json"]) :: written loop.
Proof. intros Hlater. by rewrite !written_app, Hlater, app_nil_r. Qed.

(* ================================================================== *)
(** * Runs that fail *)
(* ================================================================== *)

(** X5.  Nothing is undone.  Whatever the outcome of a run, every file it
    has written still holds what the run wrote: for the root manifest
    its text with the new version, for the manifest of a package the
    text [updatePackageJsonFile] makes of it. *)
Theorem writes_are_kept {G : Type} `{Shell G} (dirname args : list string)
  (disk : gmap (list string) node) (g : G) (o : outcome unit) (w' : world G) :
  run dirname args disk g = (o, w') ->
  forall p, p ∈ written (trace w') ->
    exists version root text text',
      head args = Some version /\
      findProjectRoot_from disk (rev dirname) = Some root /\
      disk !! p = Some (File text) /\
      files w' !! p = Some (File text') /\
      (if decide (p = root ++ ["package.json"])
       then root_text version text
       else package_text version text) = Some text'.
Proof.
  intros [(_ & Hnone & _)
    | (version & root & status & g1 & listed & g2 & text & text' & doc & o1 & w1
       & loop & later & _ & Hhead & _ & Hroot & _ & _ & _ & _ & Htext & _ & Htext'
       & _ & Htrace & _ & _ & _ & Hrootfile & _ & Hwrote & _ & _ & _ & Hfiles & Hlater
       & Hend)]%run_stages p Hp.
  { rewrite Hnone in Hp. by apply elem_of_nil in Hp. }
  assert (Hquiet : written later = []).
  { destruct o1 as [[]|code|msg]; [| done |].
    - by destruct Hend
        as [[_ (old & _ & ->)] | [_ (msg & [-> | (old & _ & [-> | ->])])]].
    - by destruct Hend as [_ ->]. }
  rewrite Hlater, Htrace, (written_after_loop _ _ [] _ _ _ Hquiet) in Hp.
  rewrite Hfiles. exists version, root.
  apply elem_of_cons in Hp as [-> | Hp].
  - exists text, text'. do 4 (split; [done |]). by rewrite decide_True.
  - destruct (Hwrote p Hp) as (Hpkg & t & t' & Ht & Ht' & Hfile).
    exists t, t'. do 4 (split; [done |]).
    rewrite decide_False; [done |]. by apply package_manifest_not_root in Hpkg.
Qed.

Lemma writes_are_kept_witness :
  let w' :=
    snd (run Example.dirname ["1.1.0"]
           Mishap.disk_without_bundle Mishap.repo_without_bundle) in
  let p := Example.root ++ ["packages"; "core"; "package.json"] in
  exists version root text text',
    head ["1.1.0"] = Some version /\
    findProjectRoot_from Mishap.disk_without_bundle (rev Example.dirname)
    = Some root /\
    Mishap.disk_without_bundle !! p = Some (File text) /\
    files w' !! p = Some (File text') /\
    (if decide (p = root ++ ["package.json"])
     then root_text version text
     else package_text version text) = Some text'.
Proof.
  cbv zeta.
  refine (writes_are_kept Example.dirname ["1.1.0"]
            Mishap.disk_without_bundle Mishap.repo_without_bundle (Exited 1) _
            (pair_eta _ _ _) (Example.root ++ ["packages"; "core"; "package.json"]) _).
  - vm_compute. reflexivity.
  - apply (bool_decide_unpack _). vm_compute. reflexivity.
Defined.

(** On the example project without the manifest of the bundle the
    staging fails, for want of that manifest, after two manifests have
    been rewritten. *)
Lemma staging_fails_without_bundle :
  let result :=
    run Example.dirname ["1.1.0"]
      Mishap.disk_without_bundle Mishap.repo_without_bundle in
  fst result = Exited 1 /\
  written (trace (snd result))
  = [Example.root ++ ["package.json"];
     Example.root ++ ["packages"; "core"; "package.json"]] /\
  commands (trace (snd result))
  = [STATUS; "git tag -l v1.1.0"; ADD].
Proof. cbv zeta. repeat split; vm_compute; reflexivity. Qed.

(** X6.  A manifest of a package that cannot be rewritten (it is a directory,
    it is not JSON, or it is [null] or a string, a number or a boolean)
    stops a run that has got to write: the run exits with code 1 after an
    error line; the root manifest is rewritten already and stays so; the
    manifest in question is not written; nothing is staged, committed or
    tagged. *)
Theorem package_manifest_failure {G : Type} `{Shell G}
  (dirname args : list string) (version : string)
  (disk : gmap (list string) node) (g : G) (o : outcome unit) (w' : world G)
  (root p : list string) :
  run dirname args disk g = (o, w') ->
  written (trace w') <> [] ->
  head args = Some version ->
  findProjectRoot_from disk (rev dirname) = Some root ->
  is_package_manifest disk root p ->
  (forall text, disk !! p = Some (File text) -> package_text version text = None) ->
  o = Exited 1 /\
  (p ∉ written (trace w')) /\
  (root ++ ["package.json"]) ∈ written (trace w') /\
  commands (trace w') = [STATUS; "git tag -l " +:+ "v" +:+ version] /\
  exists msg rest, trace w' = Stderr ("Error: " +:+ msg) :: rest.
Proof.
  intros [(_ & Hnone & _)
    | (version' & root' & status & g1 & listed & g2 & text & text' & doc & o1 & w1
       & loop & later & _ & Hhead & _ & Hroot & _ & _ & _ & _ & Htext & _ & Htext'
       & _ & Htrace & Hcmd & _ & _ & _ & _ & Hwrote & Hall & _ & _ & _ & Hlater
       & Hend)]%run_stages Hsome Hhead' Hroot' Hp Hbad; [done |].
  assert (version' = version) as -> by congruence.
  assert (root' = root) as -> by congruence.
  destruct o1 as [[]|code|msg]; [| done |].
  { destruct (Hwrote p (Hall eq_refl p Hp)) as (_ & t & t' & Ht & Ht' & _).
    by rewrite (Hbad _ Ht) in Ht'. }
  destruct Hend as [-> ->]. split; [done |].
  rewrite Hlater, Htrace.
  rewrite (written_after_loop _ [Stderr ("Error: " +:+ msg)] [] _ _ _ eq_refl).
  split; [| split; [by left | split]].
  - intros [-> | Hin]%elem_of_cons.
    + by apply package_manifest_not_root in Hp.
    + destruct (Hwrote p Hin) as (_ & t & t' & Ht & Ht' & _).
      by rewrite (Hbad _ Ht) in Ht'.
  - by rewrite !commands_app, Hcmd.
  - by eexists _, _.
Qed.

Lemma package_manifest_failure_witness :
  let result :=
    run Example.dirname ["1.1.0"] Mishap.disk_with_broken Mishap.repo_with_broken in
  let p := Example.root ++ ["packages"; "broken"; "package.json"] in
  fst result = Exited 1 /\
  (p ∉ written (trace (snd result))) /\
  (Example.root ++ ["package.json"]) ∈ written (trace (snd result)) /\
  commands (trace (snd result)) = [STATUS; "git tag -l " +:+ "v" +:+ "1.1.0"] /\
  exists msg rest, trace (snd result) = Stderr ("Error: " +:+ msg) :: rest.
Proof.
  cbv zeta.
  apply (package_manifest_failure Example.dirname ["1.1.0"] "1.1.0"
           Mishap.disk_with_broken Mishap.repo_with_broken _ _ Example.root).
  - apply pair_eta. reflexivity.
  - vm_compute. discriminate.
  - reflexivity.
  - vm_compute. reflexivity.
  - left. exists "broken". split; [reflexivity |]. split; vm_compute; reflexivity.
  - intros text Htext. vm_compute in Htext. injection Htext as <-.
    vm_compute. reflexivity.
Defined.

(** X7.  A root manifest that cannot be rewritten (it is a directory, it is
    not JSON, or it is [null] or a string, a number or a boolean) makes
    the run exit with code 1 before it writes anything. *)
Theorem root_manifest_failure {G : Type} `{Shell G}
  (dirname args : list string) (version : string)
  (disk : gmap (list string) node) (g : G) (o : outcome unit) (w' : world G)
  (root : list string) :
  run dirname args disk g = (o, w') ->
  help_requested args = false ->
  head args = Some version ->
  findProjectRoot_from disk (rev dirname) = Some root ->
  (forall text, disk !! (root ++ ["package.json"]) = Some (File text) ->
     root_text version text = None) ->
  o = Exited 1 /\ files w' = disk /\ written (trace w') = [] /\
  (commands (trace w') = [] \/ commands (trace w') = [STATUS] \/
   commands (trace w') = [STATUS; "git tag -l " +:+ "v" +:+ version]).
Proof.
  intros [(Hfiles & Hnone & _ & Hcode & Hcmd)
    | (version' & root' & status & g1 & listed & g2 & text & text' & doc & o1 & w1
       & loop & later & _ & Hhead & _ & Hroot & _ & _ & _ & _ & Htext & _ & Htext'
       & _)]%run_stages Hhelp Hhead' Hroot' Hbad.
  - destruct Hcode as [[_ Hhelp'] | [-> _]]; [congruence |].
    do 3 (split; [done |]).
    destruct Hcmd as [? | (version' & _ & Hhead & _ & [? | Hcmd])];
      [by left | by right; left |].
    right; right. congruence.
  - assert (version' = version) as -> by congruence.
    assert (root' = root) as -> by congruence.
    by rewrite (Hbad _ Htext) in Htext'.
Qed.

Lemma root_manifest_failure_witness :
  let result :=
    run Example.dirname ["1.1.0"]
      Mishap.disk_with_null_root Mishap.repo_with_null_root in
  fst result = Exited 1 /\ files (snd result) = Mishap.disk_with_null_root /\
  written (trace (snd result)) = [] /\
  (commands (trace (snd result)) = [] \/ commands (trace (snd result)) = [STATUS] \/
   commands (trace (snd result)) = [STATUS; "git tag -l " +:+ "v" +:+ "1.1.0"]).
Proof.
  cbv zeta.
  apply (root_manifest_failure Example.dirname ["1.1.0"] "1.1.0"
           Mishap.disk_with_null_root Mishap.repo_with_null_root _ _ Example.root).
  - apply pair_eta. reflexivity.
  - reflexivity.
  - reflexivity.
  - vm_compute. reflexivity.
  - intros text Htext. vm_compute in Htext. injection Htext as <-.
    vm_compute. reflexivity.
Defined.

(* ================================================================== *)
(** * The commands and the reports of a run *)
(* ================================================================== *)

(** X8.  The commands of a run, whatever its outcome, are the first ones of
    this list, in this order: the status, the listing of the tag, the
    staging, the commit, the tag.  No command is run on a version that
    is not in the grammar, nor when the help is asked for. *)
Theorem commands_in_order {G : Type} `{Shell G} (dirname args : list string)
  (disk : gmap (list string) node) (g : G) (o : outcome unit) (w' : world G) :
  run dirname args disk g = (o, w') ->
  commands (trace w') = [] \/
  exists version old,
    help_requested args = false /\ head args = Some version /\
    Regex.test SEMVER version = true /\
    commands (trace w')
      `prefix_of` [STATUS; "git tag -l " +:+ "v" +:+ version; ADD;
                   commit_command old version; "git tag " +:+ "v" +:+ version].
Proof.
  intros [(_ & _ & _ & Hcode & Hcmd)
    | (version & root & status & g1 & listed & g2 & text & text' & doc & o1 & w1
       & loop & later & Hhelp & Hhead & Hversion & _ & _ & _ & _ & _ & _ & _ & _
       & _ & Htrace & Hcmd & _ & _ & _ & _ & _ & _ & _ & _ & _ & Hlater
       & Hend)]%run_stages.
  - destruct Hcmd as [? | (version & Hhelp & Hhead & Hversion & Hcmd)]; [by left |].
    right. exists version, "". do 3 (split; [done |]).
    destruct Hcmd as [-> | ->]; [by eexists [_; _; _; _] | by eexists [_; _; _]].
  - right. rewrite Hlater, Htrace, !commands_app, Hcmd, app_nil_r.
    change (commands [_; _; _; _])
      with [STATUS; "git tag -l " +:+ "v" +:+ version].
    destruct o1 as [[]|code|msg]; [| done |].
    + destruct Hend
        as [[_ (old & _ & ->)] | [_ (msg & [-> | (old & _ & [-> | ->])])]].
      * exists version, old. do 3 (split; [done |]). by exists [].
      * exists version, "". do 3 (split; [done |]). by eexists [_; _].
      * exists version, old. do 3 (split; [done |]). by eexists [_].
      * exists version, old. do 3 (split; [done |]). by exists [].
    + destruct Hend as [_ ->]. exists version, "". do 3 (split; [done |]).
      by eexists [_; _; _].
Qed.

Lemma writes_package_events updated :
  writes (flat_map package_events updated)
  = map (fun pkg : string * list string * string => pkg.1.2 ++ ["package.json"]) updated.
Proof.
  induction updated as [|[[name dir] text] updated IH]; [done |].
  cbn [flat_map package_events app]. unfold writes in *. cbn [omap list_omap].
  by rewrite IH.
Qed.

Lemma outs_package_events updated :
  outs (flat_map package_events updated)
  = map (fun pkg : string * list string * string => "Updated package " +:+ pkg.1.1)
        updated.
Proof.
  induction updated as [|[[name dir] text] updated IH]; [done |].
  cbn [flat_map package_events app]. unfold outs in *. cbn [omap list_omap].
  by rewrite IH.
Qed.



Lemma commands_in_order_witness :
  let w' :=
    snd (run Example.dirname ["1.1.0"]
           Mishap.disk_without_bundle Mishap.repo_without_bundle) in
  commands (trace w') = [] \/
  exists version old,
    help_requested ["1.1.0"] = false /\ head ["1.1.0"] = Some version /\
    Regex.test SEMVER version = true /\
    commands (trace w')
      `prefix_of` [STATUS; "git tag -l " +:+ "v" +:+ version; ADD;
                   commit_command old version; "git tag " +:+ "v" +:+ version].
Proof.
  apply (commands_in_order Example.dirname ["1.1.0"]
           Mishap.disk_without_bundle Mishap.repo_without_bundle (Exited 1)).
  apply pair_eta. vm_compute. reflexivity.
Defined.

(* ================================================================== *)
(** * The older copy, stage by stage *)
(* ================================================================== *)

(** The end of a [try] block whose loop is over: staging, commit and
    tag when the loop ended normally, and the handler for what was
    thrown. *)
Lemma caught_stage {G : Type} `{Shell G} add doc version
  (o1 : outcome unit) (w1 : world G) o2 w2 o w' :
  match o1 with
  | Returned _ => stage_commit_tag add (member doc "version") version w1 = (o2, w2)
  | Thrown msg => o2 = Thrown msg /\ w2 = w1
  | Exited _ => False
  end ->
  match o2 with
  | Returned a => (Returned a, w2)
  | Exited code => (Exited code, w2)
  | Thrown msg => report msg w2
  end = (o, w') ->
  files w' = files w1 /\
  exists later,
    trace w' = later ++ trace w1 /\
    match o1 with
    | Returned _ =>
        (o = Returned tt /\
         exists old,
           template_string_opt (member doc "version") = Some old /\
           later =
             [Stdout (nl +:+ "Successfully updated all packages from " +:+ old
                      +:+ " to " +:+ version);
              Stdout ("Created git tag " +:+ "v" +:+ version);
              Exec ("git tag " +:+ "v" +:+ version);
              Stdout "Committed changes on affected files";
              Exec (commit_command old version);
              Exec add]) \/
        (o = Exited 1 /\
         exists msg,
           (later = [Stderr ("Error: " +:+ msg); Exec add] \/
            exists old,
              template_string_opt (member doc "version") = Some old /\
              (later = [Stderr ("Error: " +:+ msg);
                        Exec (commit_command old version); Exec add] \/
               later = [Stderr ("Error: " +:+ msg);
                        Exec ("git tag " +:+ "v" +:+ version);
                        Stdout "Committed changes on affected files";
                        Exec (commit_command old version);
                        Exec add])))
    | Thrown msg => o = Exited 1 /\ later = [Stderr ("Error: " +:+ msg)]
    | Exited _ => False
    end.
Proof.
  intros Hend Hrun. destruct o1 as [[]|code|msg]; [| done |].
  - apply stage_commit_tag_run in Hend
      as (Hfiles & later & Hlater
          & [[-> (old & Hold & ->)] | (msg & -> & Hshape)]).
    + injection Hrun as <- <-. split; [done |]. eexists. split; [done |].
      left. split; [done |]. by exists old.
    + injection Hrun as <- <-. cbn [files trace]. split; [done |].
      exists (Stderr ("Error: " +:+ msg) :: later). rewrite Hlater.
      split; [done |]. right. split; [done |]. exists msg.
      destruct Hshape as [-> | (old & Hold & [-> | ->])].
      * by left.
      * right. exists old. split; [done |]. by left.
      * right. exists old. split; [done |]. by right.
  - destruct Hend as [-> ->]. injection Hrun as <- <-. cbn [files trace].
    split; [done |]. by exists [Stderr ("Error: " +:+ msg)].
Qed.

(** A run of the older copy.  Either it stops before it writes, on its
    arguments, on the search of the root or on the root manifest, with
    no command run.  Or it rewrites the root manifest and goes through
    the packages of [packages/], then stages, commits and tags. *)
Lemma variant_run_stages {G : Type} `{Shell G} (dirname args : list string)
  (disk : gmap (list string) node) (g : G) (o : outcome unit) (w' : world G) :
  Variant.run dirname args disk g = (o, w') ->
  (files w' = disk /\ vcs w' = g /\
   written (trace w') = [] /\ commands (trace w') = [] /\
   (o = Exited 0 /\ help_requested args = true \/
    o = Exited 1 /\ help_requested args = false) /\
   (forall version root text,
      help_requested args = false -> head args = Some version ->
      Regex.test SEMVER version = true ->
      findProjectRoot_from disk (rev dirname) = Some root ->
      disk !! (root ++ ["package.json"]) = Some (File text) ->
      root_text version text = None)) \/
  (exists version root text text' doc o1 w1 loop later,
     help_requested args = false /\ head args = Some version /\
     Regex.test SEMVER version = true /\
     findProjectRoot_from disk (rev dirname) = Some root /\
     disk !! (root ++ ["package.json"]) = Some (File text) /\
     JSON_parse text = Some doc /\
     root_text version text = Some text' /\
     vcs w1 = g /\
     trace w1 =
       loop ++ [Stdout ("Updated root package.json to " +:+ version);
                Write (root ++ ["package.json"]) text'] /\
     commands loop = [] /\ stderr loop = [] /\ NoDup (written loop) /\
     files w1 !! (root ++ ["package.json"]) = Some (File text') /\
     (forall p, p <> root ++ ["package.json"] -> p ∉ written loop ->
        files w1 !! p = disk !! p) /\
     (forall p, p ∈ written loop ->
        (exists name,
           p = root ++ ["packages"; name; "package.json"] /\
           isDirectory disk (root ++ ["packages"; name]) = true) /\
        exists t t',
          disk !! p = Some (File t) /\
          package_text version t = Some t' /\
          files w1 !! p = Some (File t')) /\
     (o1 = Returned tt ->
      forall name,
        isDirectory disk (root ++ ["packages"; name]) = true ->
        existsSync disk (root ++ ["packages"; name; "package.json"]) = true ->
        (root ++ ["packages"; name; "package.json"]) ∈ written loop) /\
     (disk !! (root ++ ["packages"]) = Some Dir ->
      (forall name,
         isDirectory disk (root ++ ["packages"; name]) = true ->
         existsSync disk (root ++ ["packages"; name; "package.json"]) = true ->
         exists t t',
           disk !! (root ++ ["packages"; name; "package.json"]) = Some (File t) /\
           package_text version t = Some t') ->
      o1 = Returned tt) /\
     files w' = files w1 /\ trace w' = later ++ trace w1 /\
     match o1 with
     | Returned _ =>
         (o = Returned tt /\
          exists old,
            template_string_opt (member doc "version") = Some old /\
            later =
              [Stdout (nl +:+ "Successfully updated all packages from " +:+ old
                       +:+ " to " +:+ version);
               Stdout ("Created git tag " +:+ "v" +:+ version);
               Exec ("git tag " +:+ "v" +:+ version);
               Stdout "Committed changes on affected files";
               Exec (commit_command old version);
               Exec Variant.ADD]) \/
         (o = Exited 1 /\
          exists msg,
            (later = [Stderr ("Error: " +:+ msg); Exec Variant.ADD] \/
             exists old,
               template_string_opt (member doc "version") = Some old /\
               (later = [Stderr ("Error: " +:+ msg);
                         Exec (commit_command old version); Exec Variant.ADD] \/
                later = [Stderr ("Error: " +:+ msg);
                         Exec ("git tag " +:+ "v" +:+ version);
                         Stdout "Committed changes on affected files";
                         Exec (commit_command old version);
                         Exec Variant.ADD])))
     | Thrown msg => o = Exited 1 /\ later = [Stderr ("Error: " +:+ msg)]
     | Exited _ => False
     end).
Proof.
  unfold Variant.run. rewrite variant_main_verdict. unfold verdict_of.
  destruct (help_requested args) eqn:Hhelp.
  { intros [= <- <-]. left. do 4 (split; [done |]). split; [by left | done]. }
  destruct (head args) as [[|c v]|] eqn:Hhead.
  { intros [= <- <-]. left. do 4 (split; [done |]). split; [by right |].
    intros version root text _ [= <-] Hv. by vm_compute in Hv. }
  2:{ intros [= <- <-]. left. do 4 (split; [done |]). split; [by right |].
      by intros version root text _ [=]. }
  destruct (Regex.test SEMVER (String c v)) eqn:Hversion.
  2:{ intros [= <- <-]. left. do 4 (split; [done |]). split; [by right |].
      intros version root text _ [= <-]. congruence. }
  set (version := String c v) in *.
  unfold try_catch. rewrite variant_bump_shared, bind_run.
  unfold findProjectRoot at 1. rewrite bind_run. cbn [current_files files].
  destruct (findProjectRoot_from disk (rev dirname)) as [root|] eqn:Hroot.
  2:{ intros [= <- <-]. left. do 4 (split; [done |]). split; [by right |].
      by intros version' root text _ _ _ [=]. }
  cbn [mret action_ret].
  destruct (findProjectRoot_from_found _ _ _ Hroot) as [Hmanifest Hpackages].
  match goal with
  | |- context [update_and_commit ?e ?a ?r ?v ?w0] =>
      destruct (update_and_commit e a r v w0) as [o2 w2] eqn:Hsteps
  end.
  apply update_and_commit_run in Hsteps; [| done |].
  2:{ intros dirs Hdirs. rewrite app_nil_r, map_map. cbn [snd].
      apply NoDup_fmap_2_strong; [| done].
      intros d d' _ _ Heq. apply app_inv_tail in Heq.
      by apply app_inv_head in Heq as [= ->]. }
  cbn [files vcs trace] in Hsteps.
  destruct Hsteps as [(Hbad & msg & -> & ->)
    | (text & text' & doc & o1 & w1 & loop & Htext & Hdoc & Htext' & Hvcs & Htrace
       & Hcmd & Herr & Hnd & Hframe & Hwrote & Hall & _ & Hreturns & _ & Hend)].
  { intros [= <- <-]. left. do 4 (split; [done |]). split; [by right |].
    intros version' root' text _ [= <-] _ [= <-] Htext. by apply Hbad. }
  cbv zeta in Hframe, Hwrote, Hall. intros Hrun. right.
  destruct (caught_stage _ _ _ _ _ _ _ _ _ Hend Hrun) as (Hfiles & later & Hlater & Hshape).
  assert (Hlisted : forall p,
    p ∈ listed_manifests (<[root ++ ["package.json"] := File text']> disk) root [] <->
    exists name,
      p = root ++ ["packages"; name; "package.json"] /\
      isDirectory disk (root ++ ["packages"; name]) = true).
  { intros p. unfold listed_manifests. rewrite app_nil_r, map_map. cbn [snd].
    rewrite list_elem_of_fmap. split.
    - intros (name & -> & [Hdir Hin]%list_elem_of_filter). exists name.
      rewrite <-!app_assoc. split; [done |]. apply Is_true_true in Hdir.
      rewrite <-app_assoc in Hdir.
      by rewrite (isDirectory_insert_file _ _ _ text) in Hdir.
    - intros (name & -> & Hdir). exists name. rewrite <-!app_assoc.
      split; [done |]. apply list_elem_of_filter. split.
      + apply Is_true_true. rewrite <-app_assoc.
        by rewrite (isDirectory_insert_file _ _ _ text).
      + rewrite elem_of_entries_insert_file
          by (apply existsSync_true; by rewrite Htext).
        apply elem_of_entries. unfold isDirectory in Hdir. rewrite <-app_assoc.
        cbn [app]. by destruct (disk !! (root ++ ["packages"; name])). }
  assert (Hwrote' : forall p, p ∈ written loop ->
    p <> root ++ ["package.json"] /\
    (exists name,
       p = root ++ ["packages"; name; "package.json"] /\
       isDirectory disk (root ++ ["packages"; name]) = true) /\
    exists t t',
      disk !! p = Some (File t) /\ package_text version t = Some t' /\
      files w1 !! p = Some (File t')).
  { intros p Hp. destruct (Hwrote p Hp) as (Hin & t & t' & Ht & Ht' & Hfile).
    apply Hlisted in Hin as (name & -> & Hdir).
    assert (Hne : root ++ ["packages"; name; "package.json"] <> root ++ ["package.json"])
      by (by intros [=]%app_inv_head).
    rewrite lookup_insert_ne in Ht by done.
    split; [done |]. split; [by exists name |]. by exists t, t'. }
  exists version, root, text, text', doc, o1, w1, loop, later.
  do 7 (split; [done |]). do 2 (split; [done |]). do 3 (split; [done |]).
  split; [| split; [| split; [| split; [| split]]]].
  - rewrite Hframe, lookup_insert_eq; [done |].
    intros Hin. by apply Hwrote' in Hin as [? _].
  - intros p Hne Hp. rewrite (Hframe p Hp). apply lookup_insert_ne. by intros <-.
  - intros p Hp. by apply Hwrote' in Hp as (_ & ? & ?).
  - intros -> name Hdir Hex. apply Hall; [done | |].
    + apply Hlisted. by exists name.
    + rewrite existsSync_insert_file; [done |].
      apply existsSync_true. by rewrite Htext.
  - intros Hisdir Hfine. apply Hreturns; [done |].
    intros p (name & -> & Hdir)%Hlisted Hex.
    assert (Hne : root ++ ["package.json"] <> root ++ ["packages"; name; "package.json"])
      by (by intros [=]%app_inv_head).
    rewrite lookup_insert_ne by done. apply Hfine; [done |].
    rewrite existsSync_insert_file in Hex; [done |].
    apply existsSync_true. by rewrite Htext.
  - done.
Qed.

(* ================================================================== *)
(** * What the older copy does and does not do *)
(* ================================================================== *)

(** X10.  The files the older copy writes.  Whatever the outcome of a run,
    they are among the root manifest and the manifests of the
    directories right below [packages/], none is written twice, and
    every other path is as it was; a run that ends normally has written
    all of them.  The manifest of the bundle is never written. *)
Theorem variant_rewritten_manifests {G : Type} `{Shell G}
  (dirname args : list string) (disk : gmap (list string) node) (g : G)
  (o : outcome unit) (w' : world G) :
  Variant.run dirname args disk g = (o, w') ->
  NoDup (written (trace w')) /\
  (forall p, p ∈ written (trace w') ->
     exists root,
       findProjectRoot_from disk (rev dirname) = Some root /\
       (p = root ++ ["package.json"] \/
        exists name,
          p = root ++ ["packages"; name; "package.json"] /\
          isDirectory disk (root ++ ["packages"; name]) = true /\
          existsSync disk p = true)) /\
  (forall p, p ∉ written (trace w') -> files w' !! p = disk !! p) /\
  (forall root,
     findProjectRoot_from disk (rev dirname) = Some root ->
     (root ++ ["bundle"; "package.json"]) ∉ written (trace w')) /\
  (o = Returned tt ->
   exists root,
     findProjectRoot_from disk (rev dirname) = Some root /\
     (root ++ ["package.json"]) ∈ written (trace w') /\
     forall name,
       isDirectory disk (root ++ ["packages"; name]) = true ->
       existsSync disk (root ++ ["packages"; name; "package.json"]) = true ->
       (root ++ ["packages"; name; "package.json"]) ∈ written (trace w')).
Proof.
  intros [(Hfiles & _ & Hnone & _ & Hcode & _)
    | (version & root & text & text' & doc & o1 & w1 & loop & later & _ & _ & _
       & Hroot & Htext & _ & _ & _ & Htrace & _ & _ & Hnd & Hrootfile & Hframe
       & Hwrote & Hall & _ & Hfiles & Hlater & Hend)]%variant_run_stages.
  { rewrite Hnone, Hfiles. split; [constructor |].
    split; [by intros p ?%elem_of_nil |]. split; [done |].
    split; [by intros root _ ?%elem_of_nil |].
    intros ->. by destruct Hcode as [[[=] _] | [[=] _]]. }
  assert (Hwritten : written (trace w') = (root ++ ["package.json"]) :: written loop).
  { rewrite Hlater, Htrace, !written_app.
    assert (written later = []) as ->.
    { destruct o1 as [[]|code|msg]; [| done |].
      - by destruct Hend
          as [[_ (old & _ & ->)] | [_ (msg & [-> | (old & _ & [-> | ->])])]].
      - by destruct Hend as [_ ->]. }
    by rewrite app_nil_r. }
  rewrite Hwritten, Hfiles. split; [| split; [| split; [| split]]].
  - constructor; [| done]. intros Hin.
    by destruct (Hwrote _ Hin) as [(name & [=]%app_inv_head & _) _].
  - intros p [-> | Hp]%elem_of_cons; exists root; (split; [done |]); [by left |].
    destruct (Hwrote p Hp) as [(name & -> & Hdir) (t & t' & Ht & _)].
    right. exists name. do 2 (split; [done |]).
    apply existsSync_true. by rewrite Ht.
  - intros p [Hne Hp]%not_elem_of_cons. by apply Hframe.
  - intros root' Hroot'. assert (root' = root) as -> by congruence.
    intros [[=]%app_inv_head | Hin]%elem_of_cons.
    by destruct (Hwrote _ Hin) as [(name & [=]%app_inv_head & _) _].
  - intros ->. exists root. split; [done |]. split; [by left |].
    intros name Hdir Hex. right.
    destruct o1 as [[]|code|msg]; [by apply Hall | done |].
    by destruct Hend as [[=] _].
Qed.

Lemma variant_rewritten_manifests_witness :
  let w' := snd (Variant.run Example.dirname ["1.1.0"] Example.disk Example.repo) in
  NoDup (written (trace w')) /\
  (forall p, p ∈ written (trace w') ->
     exists root,
       findProjectRoot_from Example.disk (rev Example.dirname) = Some root /\
       (p = root ++ ["package.json"] \/
        exists name,
          p = root ++ ["packages"; name; "package.json"] /\
          isDirectory Example.disk (root ++ ["packages"; name]) = true /\
          existsSync Example.disk p = true)) /\
  (forall p, p ∉ written (trace w') -> files w' !! p = Example.disk !! p) /\
  (forall root,
     findProjectRoot_from Example.disk (rev Example.dirname) = Some root ->
     (root ++ ["bundle"; "package.json"]) ∉ written (trace w')) /\
  (Returned tt = Returned tt ->
   exists root,
     findProjectRoot_from Example.disk (rev Example.dirname) = Some root /\
     (root ++ ["package.json"]) ∈ written (trace w') /\
     forall name,
       isDirectory Example.disk (root ++ ["packages"; name]) = true ->
       existsSync Example.disk (root ++ ["packages"; name; "package.json"]) = true ->
       (root ++ ["packages"; name; "package.json"]) ∈ written (trace w')).
Proof.
  apply (variant_rewritten_manifests Example.dirname ["1.1.0"]
           Example.disk Example.repo).
  apply pair_eta. vm_compute. reflexivity.
Defined.

(** X11.  The older copy asks nothing of the repository before it writes.
    With a version of the grammar, a project root and a root manifest
    that can be rewritten, it rewrites the root manifest whatever the
    state of the repository; and the only commands it ever runs are the
    staging, the commit and the tag, in this order. *)
Theorem variant_has_no_precondition {G : Type} `{Shell G}
  (dirname args : list string) (version : string)
  (disk : gmap (list string) node) (g : G) (o : outcome unit) (w' : world G)
  (root : list string) (text text' : string) :
  Variant.run dirname args disk g = (o, w') ->
  help_requested args = false -> head args = Some version ->
  Regex.test SEMVER version = true ->
  findProjectRoot_from disk (rev dirname) = Some root ->
  disk !! (root ++ ["package.json"]) = Some (File text) ->
  root_text version text = Some text' ->
  files w' !! (root ++ ["package.json"]) = Some (File text') /\
  (root ++ ["package.json"]) ∈ written (trace w') /\
  exists old,
    commands (trace w')
      `prefix_of` [Variant.ADD; commit_command old version;
                   "git tag " +:+ "v" +:+ version].
Proof.
  intros [(_ & _ & _ & _ & _ & Hbad)
    | (version' & root' & text0 & text0' & doc & o1 & w1 & loop & later & _ & Hhead
       & _ & Hroot & Htext & _ & Htext' & _ & Htrace & Hcmd & _ & _ & Hrootfile & _
       & _ & _ & _ & Hfiles & Hlater & Hend)]%variant_run_stages
    Hhelp Hhead' Hversion Hroot' Htext1 Htext1'.
  { by rewrite (Hbad _ _ _ Hhelp Hhead' Hversion Hroot' Htext1) in Htext1'. }
  assert (version' = version) as -> by congruence.
  assert (root' = root) as -> by congruence.
  assert (text0 = text) as -> by congruence.
  assert (text0' = text') as -> by congruence.
  rewrite Hfiles, Hlater, Htrace. split; [done |]. split.
  - rewrite !written_app. apply elem_of_app. left. apply elem_of_app. left.
    by left.
  - rewrite !commands_app, Hcmd, app_nil_r. cbn [app].
    change (commands [_; _]) with (@nil string). cbn [app].
    destruct o1 as [[]|code|msg]; [| done |].
    + destruct Hend
        as [[_ (old & _ & ->)] | [_ (msg & [-> | (old & _ & [-> | ->])])]].
      * exists old. by exists [].
      * exists "". by eexists [_; _].
      * exists old. by eexists [_].
      * exists old. by exists [].
    + destruct Hend as [_ ->]. exists "". by eexists [_; _; _].
Qed.

Lemma variant_has_no_precondition_witness :
  let w' :=
    snd (Variant.run Example.dirname ["1.1.0"]
           Example.disk_with_hidden Example.repo) in
  files w' !! (Example.root ++ ["package.json"])
  = Some (File (Example.text_of
                  (JObj [("name", JStr "fullcalendar-workspace");
                         ("version", JStr "1.1.0");
                         ("private", JBool true);
                         ("devDependencies",
                          JObj [("@teamdiverst/fullcalendar-core", JStr "~1.0.0");
                                ("typescript", JStr "^5.0.0")])]))) /\
  (Example.root ++ ["package.json"]) ∈ written (trace w') /\
  exists old,
    commands (trace w')
      `prefix_of` [Variant.ADD; commit_command old "1.1.0";
                   "git tag " +:+ "v" +:+ "1.1.0"].
Proof.
  cbv zeta.
  apply (variant_has_no_precondition Example.dirname ["1.1.0"] "1.1.0"
           Example.disk_with_hidden Example.repo (Returned tt) _ Example.root
           (Example.text_of Example.root_manifest)).
  - apply pair_eta. vm_compute. reflexivity.
  - reflexivity.
  - reflexivity.
  - vm_compute. reflexivity.
  - vm_compute. reflexivity.
  - vm_compute. reflexivity.
  - vm_compute. reflexivity.
Defined.

(** On that project the newer copy stops at its first check. *)
Lemma newer_copy_stops_where_older_writes :
  let result := run Example.dirname ["1.1.0"] Example.disk_with_hidden Example.repo in
  fst result = Exited 1 /\ written (trace (snd result)) = [] /\
  commands (trace (snd result)) = [STATUS].
Proof. cbv zeta. repeat split; vm_compute; reflexivity. Qed.



(** X13.  Where the newer copy succeeds, the older one writes the same
    content.  On a project on which a run of the newer copy ends
    normally, a run of the older copy, whatever the repository answers
    to it, leaves every file as the newer copy leaves it, except the
    manifest of the bundle, which it leaves as it was. *)
Theorem copies_write_the_same {G : Type} `{Shell G}
  (dirname args : list string) (disk : gmap (list string) node) (g g' : G)
  (w' : world G) (o : outcome unit) (w'' : world G) :
  run dirname args disk g = (Returned tt, w') ->
  Variant.run dirname args disk g' = (o, w'') ->
  exists root,
    findProjectRoot_from disk (rev dirname) = Some root /\
    files w'' !! (root ++ ["bundle"; "package.json"])
    = disk !! (root ++ ["bundle"; "package.json"]) /\
    forall p, p <> root ++ ["bundle"; "package.json"] ->
      files w'' !! p = files w' !! p.
Proof.
  intros [(_ & _ & _ & [[[=] _] | [[=] _]] & _)
    | (version & root & status & g1 & listed & g2 & text & text' & doc & o1 & w1
       & loop & later & Hhelp & Hhead & Hversion & Hroot & _ & _ & _ & _ & Htext
       & _ & Htext' & _ & _ & _ & _ & _ & Hrootfile & Hframe & Hwrote & Hall
       & Hisdir & _ & Hfiles & _ & Hend)]%run_stages.
  assert (o1 = Returned tt) as ->.
  { destruct o1 as [[]|code|msg]; [done | done |]. by destruct Hend as [[=] _]. }
  specialize (Hall eq_refl). specialize (Hisdir eq_refl).
  intros [(_ & _ & _ & _ & _ & Hbad)
    | (version' & root' & text0 & text0' & doc' & o1 & w2 & loop' & later' & _
       & Hhead' & _ & Hroot' & Htext0 & _ & Htext0' & _ & _ & _ & _ & _
       & Hrootfile' & Hframe' & Hwrote' & Hall' & Hreturns & Hfiles' & _
       & _)]%variant_run_stages.
  { by rewrite (Hbad _ _ _ Hhelp Hhead Hversion Hroot Htext) in Htext'. }
  assert (version' = version) as -> by congruence.
  assert (root' = root) as -> by congruence.
  assert (text0 = text) as -> by congruence.
  assert (text0' = text') as -> by congruence.
  assert (Hfine : forall name,
    isDirectory disk (root ++ ["packages"; name]) = true ->
    existsSync disk (root ++ ["packages"; name; "package.json"]) = true ->
    (root ++ ["packages"; name; "package.json"]) ∈ written loop).
  { intros name Hdir Hex. apply Hall. left. by exists name. }
  assert (o1 = Returned tt) as ->.
  { apply Hreturns; [done |]. intros name Hdir Hex.
    destruct (Hwrote _ (Hfine name Hdir Hex)) as (_ & t & t' & Ht & Ht' & _).
    by exists t, t'. }
  specialize (Hall' eq_refl).
  exists root. split; [done |]. rewrite Hfiles, Hfiles'. split.
  - apply Hframe'; [by intros [=]%app_inv_head |]. intros Hin.
    by destruct (Hwrote' _ Hin) as [(name & [=]%app_inv_head & _) _].
  - intros p Hp. destruct (decide (p = root ++ ["package.json"])) as [-> | Hne].
    { by rewrite Hrootfile, Hrootfile'. }
    destruct (decide (p ∈ written loop')) as [Hin' | Hout'].
    + destruct (Hwrote' p Hin') as [(name & -> & Hdir) (t & t' & Ht & Ht' & ->)].
      assert (Hex : existsSync disk (root ++ ["packages"; name; "package.json"]) = true).
      { apply existsSync_true. by rewrite Ht. }
      destruct (Hwrote _ (Hfine name Hdir Hex)) as (_ & t0 & t0' & Ht0 & Ht0' & ->).
      congruence.
    + rewrite (Hframe' p Hne Hout').
      destruct (decide (p ∈ written loop)) as [Hin | Hout].
      * destruct (Hwrote p Hin) as ([(name & -> & Hdir & Hex) | [-> _]] & _);
          [| done].
        destruct Hout'. by apply Hall'.
      * by rewrite (Hframe p Hne Hout).
Qed.

Lemma copies_write_the_same_witness :
  let w' := snd (run Example.dirname ["1.1.0"] Example.disk Example.repo) in
  let w'' := snd (Variant.run Example.dirname ["1.1.0"] Example.disk Example.repo) in
  exists root,
    findProjectRoot_from Example.disk (rev Example.dirname) = Some root /\
    files w'' !! (root ++ ["bundle"; "package.json"])
    = Example.disk !! (root ++ ["bundle"; "package.json"]) /\
    forall p, p <> root ++ ["bundle"; "package.json"] ->
      files w'' !! p = files w' !! p.
Proof.
  cbv zeta.
  apply (copies_write_the_same Example.dirname ["1.1.0"] Example.disk
           Example.repo Example.repo _ (Returned tt)).
  - apply pair_eta. vm_compute. reflexivity.
  - apply pair_eta. vm_compute. reflexivity.
Defined.

(* ================================================================== *)
(** * One update after another *)
(* ================================================================== *)

Lemma obj_get_None ms k : obj_get ms k = None <-> k ∉ keys ms.
Proof.
  rewrite <-obj_has_keys. unfold obj_has. by destruct (obj_get ms k).
Qed.

(** Two objects with the same keys at the same places, none twice, and
    the same values are the same object. *)
Lemma obj_ext ms1 ms2 :
  keys ms1 = keys ms2 -> NoDup (keys ms1) ->
  (forall k, obj_get ms1 k = obj_get ms2 k) -> ms1 = ms2.
Proof.
  revert ms2. induction ms1 as [|[k v] ms1 IH]; intros [|[k' v'] ms2] Hkeys Hnd Hget;
    try done.
  cbn in Hkeys. injection Hkeys as <- Hkeys. change (keys ms1 = keys ms2) in Hkeys.
  change (NoDup (k :: keys ms1)) in Hnd. apply NoDup_cons in Hnd as [Hfresh Hnd].
  pose proof (Hget k) as Hk. cbn in Hk. rewrite String.eqb_refl in Hk.
  injection Hk as <-. f_equal. apply IH; [done | done |]. intros k0.
  destruct (String.eqb_spec k k0) as [<- | Hne].
  - rewrite (proj2 (obj_get_None ms1 k) Hfresh). symmetry. apply obj_get_None.
    by rewrite <-Hkeys.
  - specialize (Hget k0). cbn in Hget.
    by rewrite (proj2 (String.eqb_neq k k0) Hne) in Hget.
Qed.

Lemma update_dependencies_twice v1 v2 d :
  (forall deps, d = JObj deps -> NoDup (keys deps)) ->
  update_dependencies v2 (update_dependencies v1 d) = update_dependencies v2 d.
Proof.
  intros Hnd. destruct d as [| | | | |deps]; try done.
  specialize (Hnd deps eq_refl).
  destruct (update_dependencies_obj v1 deps) as (deps1 & -> & Hkeys1 & Hget1).
  destruct (update_dependencies_obj v2 deps1) as (deps12 & -> & Hkeys12 & Hget12).
  destruct (update_dependencies_obj v2 deps) as (deps2 & -> & Hkeys2 & Hget2).
  f_equal. apply obj_ext; [congruence | congruence |]. intros k.
  rewrite Hget12, Hget2, Hget1.
  assert (obj_has deps1 k = obj_has deps k) as ->.
  { apply eq_true_iff_eq. by rewrite !obj_has_keys, Hkeys1. }
  by destruct (startsWith k PREFIX && obj_has deps k).
Qed.

(** The objects of a document that [JSON.parse] returns have no key
    twice. *)
Lemma parsed_keys text ms :
  JSON_parse text = Some (JObj ms) ->
  NoDup (keys ms) /\
  forall k deps, obj_get ms k = Some (JObj deps) -> NoDup (keys deps).
Proof.
  intros (raw & _ & Hdoc)%JSON_parse_read.
  pose proof (internalize_enumerates raw) as Henum. rewrite <-Hdoc in Henum.
  inversion Henum as [| | | | |raw0 ms0 [Hnd _] Hvalues]; subst.
  split; [done |]. intros k deps Hk.
  destruct (Hvalues _ _ Hk) as (v0 & _ & Hv0).
  by inversion Hv0 as [| | | | |raw1 ms1 [Hnd1 _] _].
Qed.

(** X14.  A later update overrides an earlier one.  For a manifest read from
    a file, the document [updatePackageJsonFile] makes of it for a
    version, updated again for a second version, is the document made
    of the manifest for the second version directly; so an update to
    the version a manifest already went through changes nothing. *)
Theorem later_version_overrides (text : string) (doc doc1 : json) (v1 v2 : string) :
  JSON_parse text = Some doc ->
  rewritten v1 doc = Some doc1 ->
  rewritten v2 doc1 = rewritten v2 doc.
Proof.
  intros Hparse Hfirst. destruct doc as [| | | |xs|ms]; try done.
  { by injection Hfirst as <-. }
  destruct (parsed_keys _ _ Hparse) as [Hnd Hdeps].
  destruct (rewritten_obj v1 ms) as (ms1 & Hms1 & Hkeys1 & Hv1 & Hdep1 & Hother1).
  assert (doc1 = JObj ms1) as -> by congruence.
  destruct (rewritten_obj v2 ms1) as (ms12 & -> & Hkeys12 & Hv12 & Hdep12 & Hother12).
  destruct (rewritten_obj v2 ms) as (ms2 & -> & Hkeys2 & Hv2 & Hdep2 & Hother2).
  assert (Hhas1 : obj_has ms1 "version" = true).
  { apply obj_has_get. by rewrite Hv1. }
  rewrite Hhas1, app_nil_r in Hkeys12.
  f_equal. f_equal. apply obj_ext; [congruence | |].
  - rewrite Hkeys12, Hkeys1. destruct (obj_has ms "version") eqn:Hhas.
    + by rewrite app_nil_r.
    + apply NoDup_app. split; [done |]. split; [| apply NoDup_singleton].
      intros k Hk ->%list_elem_of_singleton. apply obj_has_keys in Hk. congruence.
  - intros k. destruct (String.eqb_spec k "version") as [-> | Hne]; [congruence |].
    destruct (decide (k ∈ depTypes)) as [Hin | Hout].
    + rewrite (Hdep12 k Hin), (Hdep2 k Hin), (Hdep1 k Hin).
      destruct (obj_get ms k) as [d|] eqn:Hd; [| done]. cbn. f_equal.
      apply update_dependencies_twice. intros deps ->. by apply (Hdeps k).
    + by rewrite (Hother12 k Hne Hout), (Hother2 k Hne Hout), (Hother1 k Hne Hout).
Qed.

Lemma later_version_overrides_witness :
  rewritten "2.0.0"
    (JObj [("name", JStr "fullcalendar");
           ("version", JStr "1.1.0");
           ("dependencies",
             JObj [("@teamdiverst/fullcalendar-core", JStr "~1.1.0");
                   ("@teamdiverst/fullcalendar-daygrid", JStr "~1.1.0")]);
           ("peerDependencies", JObj [("@teamdiverst/other", JStr "1.x")])])
  = rewritten "2.0.0" Example.bundle_manifest.
Proof.
  apply (later_version_overrides (Example.text_of Example.bundle_manifest) _ _ "1.1.0");
    vm_compute; reflexivity.
Defined.

(* ================================================================== *)
(** * The arguments after the first *)
(* ================================================================== *)

(** X15.  Only the first argument is taken as the version, and the others are
    only searched for the two help flags: two argument lists with the
    same first argument, both with or both without a help flag, give the
    same run. *)
Theorem only_first_argument_counts {G : Type} `{Shell G}
  (dirname args args' : list string) (disk : gmap (list string) node) (g : G) :
  head args = head args' ->
  help_requested args = help_requested args' ->
  run dirname args disk g = run dirname args' disk g.
Proof.
  intros Hhead Hhelp. unfold run. rewrite !main_verdict. unfold verdict_of.
  by rewrite Hhead, Hhelp.
Qed.

Lemma only_first_argument_counts_witness :
  run Example.dirname ["1.1.0"; "--dry-run"; "2.0.0"] Example.disk Example.repo
  = run Example.dirname ["1.1.0"] Example.disk Example.repo.
Proof.
  apply (only_first_argument_counts Example.dirname
           ["1.1.0"; "--dry-run"; "2.0.0"] ["1.1.0"]); reflexivity.
Defined.

(* ================================================================== *)
(** * The update of one manifest, when it goes wrong *)
(* ================================================================== *)

(** X16.  [updatePackageJsonFile] is all or nothing.  When the path is
    missing or is a directory, when the file is not JSON, and when it
    is [null], a boolean, a number or a string, the function throws and
    has changed nothing.  On an object it returns.  On an array it
    returns too, having written the array back as it was: the version
    assigned to it is a property that the serialization leaves out. *)
Theorem updatePackageJsonFile_outcomes {G : Type} (p : list string)
  (name version : string) (w : world G) :
  match files w !! p with
  | Some (File text) =>
      match JSON_parse text with
      | Some (JObj ms) =>
          exists w', updatePackageJsonFile p name version w = (Returned tt, w')
      | Some (JArr xs) =>
          updatePackageJsonFile p name version w
          = (Returned tt,
             World (<[p := File (JSON_stringify (JArr xs) +:+ nl)]> (files w)) (vcs w)
                   (Stdout ("Updated package " +:+ name)
                    :: Write p (JSON_stringify (JArr xs) +:+ nl) :: trace w))
      | _ => exists msg, updatePackageJsonFile p name version w = (Thrown msg, w)
      end
  | _ => exists msg, updatePackageJsonFile p name version w = (Thrown msg, w)
  end.
Proof.
  pose proof (updatePackageJsonFile_run p name version w) as Hrun.
  destruct (files w !! p) as [[text|]|]; [| done..].
  unfold package_text in Hrun.
  destruct (JSON_parse text) as [[| | | |xs|ms]|]; try done.
  cbn [mbind option_bind] in Hrun.
  destruct (rewritten version (JObj ms)) as [doc'|] eqn:Hdoc'.
  - cbn [mbind option_bind] in Hrun. by eexists.
  - by destruct (rewritten_obj version ms) as (ms' & Hms' & _); congruence.
Qed.

(* ================================================================== *)
(** * The paths of the file system *)
(* ================================================================== *)


